(** * buildah: the Builder record, its persistence and its configuration update

    A shallow embedding of [buildah.go] (the Builder record, [OpenBuilder],
    [OpenBuilderByPath], [Builder.Save]) and of [cmd/buildah/config.go]
    (the flag tables, [updateConfig], [configCmd]).

    Go strings and byte slices are byte sequences: they are [string]s here
    (an [ascii] is one byte).  A Go map that the code tests against [nil] is
    an [option (gmap string _)], [None] being the nil map.  A Go slice is a
    [list]: nothing in the two files tells a nil slice from an empty one
    ([range], [append] and the [omitempty] encoding treat them alike).  A
    pointer that may be nil is an [option], and a call either returns or
    panics ([outcome]).

    The packages that the two files call are modelled first: [strings],
    [unicode/utf8], [encoding/base64] and [encoding/json] of the Go standard
    library after their documentation; the Store, [filepath], the command
    line and the tokenizer of [shellwords] as interfaces and parameters.
    Then come the two files, the notions that the statements use, and the
    statements with their proofs. *)

From Stdlib Require Import ZArith Ascii String List Lia Bool.
From stdpp Require Import base option gmap strings list fin_maps sorting.

#[local] Set Warnings "-register-all".

Local Open Scope string_scope.
Local Open Scope list_scope.

(** ** Errors *)

(** Go [error] values that the two files create or pass on. *)
Inductive error : Type :=
  | ErrContainerUnknown                 (* storage.ErrContainerUnknown *)
  | Errorf (msg : string)               (* fmt.Errorf(...) *)
  | SyntaxError                         (* encoding/json: *SyntaxError *)
  | UnmarshalTypeError                  (* encoding/json: *UnmarshalTypeError, base64 errors *)
  | UnsupportedTypeError                (* encoding/json: Marshal of an unsupported value *)
  | ExternalError (msg : string).       (* an error of the Store, the OS or the tokenizer *)

(** A Go result pair [(v, err)]: either a value and a nil error, or an error. *)
Inductive result (A : Type) : Type :=
  | Ok (a : A)
  | Err (e : error).
Arguments Ok {A} a.
Arguments Err {A} e.


(** ** Bytes *)

(** The numeric value of a byte, and the byte of a value below 256. *)
Definition byte (c : ascii) : N := N_of_ascii c.
Definition chr (n : N) : ascii := ascii_of_N n.

(** [s[:n]] and [s[n:]]. *)
Fixpoint take_str (n : nat) (s : string) : string :=
  match n, s with
  | S n', String c s' => String c (take_str n' s')
  | _, _ => EmptyString
  end.

Fixpoint drop_str (n : nat) (s : string) : string :=
  match n, s with
  | S n', String _ s' => drop_str n' s'
  | _, _ => s
  end.

Definition in_range (c : ascii) (lo hi : N) : bool :=
  ((lo <=? byte c) && (byte c <=? hi))%N.

(** ** strings (Go standard library) *)

Module strings.

(** [HasPrefix s p]: [s] begins with [p]. *)
Fixpoint HasPrefix (s p : string) {struct p} : bool :=
  match p, s with
  | EmptyString, _ => true
  | String c p', String d s' => if Ascii.eqb c d then HasPrefix s' p' else false
  | String _ _, EmptyString => false
  end.

(** [Cut s sep]: the text before and after the first occurrence of the
    non-empty [sep] in [s], if there is one. *)
Fixpoint Cut (s sep : string) : option (string * string) :=
  if HasPrefix s sep then Some (EmptyString, drop_str (String.length sep) s)
  else match s with
       | EmptyString => None
       | String c s' =>
           match Cut s' sep with
           | Some (before, after) => Some (String c before, after)
           | None => None
           end
       end.

(** [SplitN s sep n] for a non-empty [sep] and [n >= 0]: at most [n]
    substrings, the last one being the unsplit remainder; [nil] for
    [n = 0]. *)
Fixpoint SplitN (s sep : string) (n : nat) : list string :=
  match n with
  | O => []
  | S O => [s]
  | S n' =>
      match Cut s sep with
      | Some (before, after) => before :: SplitN after sep n'
      | None => [s]
      end
  end.

End strings.

(** ** unicode/utf8 and unicode/utf16 (Go standard library) *)

Module utf8.

Definition RuneError : N := 0xFFFD.
Definition RuneSelf : N := 0x80.

(** [DecodeRune s]: the first rune of [s] and its width in bytes;
    [(RuneError, 0)] for the empty string and [(RuneError, 1)] where the
    bytes are no well-formed UTF-8 sequence (over-long forms, surrogates and
    values above U+10FFFF included).  The masks and shifts of the Go code are
    written as the subtractions and multiplications they amount to on the
    accepted byte ranges. *)
Definition DecodeRune (s : string) : N * nat :=
  match s with
  | EmptyString => (RuneError, 0)
  | String c0 s1 =>
      let b0 := byte c0 in
      if (b0 <? 0x80)%N then (b0, 1)
      else if (b0 <? 0xC2)%N then (RuneError, 1)
      else if (b0 <? 0xE0)%N then
        match s1 with
        | String c1 _ =>
            if in_range c1 0x80 0xBF
            then (((b0 - 0xC0) * 64 + (byte c1 - 0x80))%N, 2)
            else (RuneError, 1)
        | _ => (RuneError, 1)
        end
      else if (b0 <? 0xF0)%N then
        let lo := if (b0 =? 0xE0)%N then 0xA0%N else 0x80%N in
        let hi := if (b0 =? 0xED)%N then 0x9F%N else 0xBF%N in
        match s1 with
        | String c1 (String c2 _) =>
            if in_range c1 lo hi && in_range c2 0x80 0xBF
            then (((b0 - 0xE0) * 4096 + (byte c1 - 0x80) * 64 + (byte c2 - 0x80))%N, 3)
            else (RuneError, 1)
        | _ => (RuneError, 1)
        end
      else if (b0 <? 0xF5)%N then
        let lo := if (b0 =? 0xF0)%N then 0x90%N else 0x80%N in
        let hi := if (b0 =? 0xF4)%N then 0x8F%N else 0xBF%N in
        match s1 with
        | String c1 (String c2 (String c3 _)) =>
            if in_range c1 lo hi && in_range c2 0x80 0xBF && in_range c3 0x80 0xBF
            then (((b0 - 0xF0) * 262144 + (byte c1 - 0x80) * 4096
                   + (byte c2 - 0x80) * 64 + (byte c3 - 0x80))%N, 4)
            else (RuneError, 1)
        | _ => (RuneError, 1)
        end
      else (RuneError, 1)
  end.

(** The encoding error: [RuneError] of width 1. *)
Definition invalid (d : N * nat) : bool :=
  (fst d =? RuneError)%N && Nat.eqb (snd d) 1.

(** [EncodeRune r]: the UTF-8 bytes of [r]; of U+FFFD when [r] is a
    surrogate or lies above U+10FFFF. *)
Definition EncodeRune (r : N) : string :=
  let three (r : N) :=
    String (chr (0xE0 + r / 4096)%N)
      (String (chr (0x80 + (r / 64) mod 64)%N)
         (String (chr (0x80 + r mod 64)%N) EmptyString)) in
  if (r <? 0x80)%N then String (chr r) EmptyString
  else if (r <? 0x800)%N then
    String (chr (0xC0 + r / 64)%N) (String (chr (0x80 + r mod 64)%N) EmptyString)
  else if ((0xD800 <=? r) && (r <? 0xE000))%N || (0x10FFFF <? r)%N then three RuneError
  else if (r <? 0x10000)%N then three r
  else
    String (chr (0xF0 + r / 262144)%N)
      (String (chr (0x80 + (r / 4096) mod 64)%N)
         (String (chr (0x80 + (r / 64) mod 64)%N)
            (String (chr (0x80 + r mod 64)%N) EmptyString))).

(** [ValidString s], as the loop of the Go function: no position of [s]
    decodes to the encoding error. *)
Fixpoint valid_from (fuel : nat) (s : string) : bool :=
  match fuel, s with
  | _, EmptyString => true
  | O, _ => false
  | S f, String c s' =>
      if (byte c <? RuneSelf)%N then valid_from f s'
      else
        let d := DecodeRune s in
        if invalid d then false else valid_from f (drop_str (snd d) s)
  end.

Definition ValidString (s : string) : bool := valid_from (String.length s) s.

End utf8.

Module utf16.

Definition IsSurrogate (r : N) : bool := ((0xD800 <=? r) && (r <? 0xE000))%N.

(** [DecodeRune r1 r2]: the code point of a surrogate pair, U+FFFD when
    the two are not a high and a low surrogate. *)
Definition DecodeRune (r1 r2 : N) : N :=
  if ((0xD800 <=? r1) && (r1 <? 0xDC00) && (0xDC00 <=? r2) && (r2 <? 0xE000))%N
  then ((r1 - 0xD800) * 1024 + (r2 - 0xDC00) + 0x10000)%N
  else utf8.RuneError.

End utf16.

(** ** encoding/base64, the standard encoding with padding (Go standard library) *)

Module base64.

Definition encodeStd : string :=
  "ABCDEFGHIJKLMNOPQRSTUVWXYZabcdefghijklmnopqrstuvwxyz0123456789+/".

Definition padChar : ascii := "="%char.

(** [encode[n]] for a 6-bit value. *)
Definition enc6 (n : N) : ascii :=
  match String.get (N.to_nat n) encodeStd with
  | Some c => c
  | None => padChar
  end.

(** [decodeMap[c]]: the position of [c] in the alphabet, if it is there. *)
Fixpoint index_from (i : N) (c : ascii) (tbl : string) : option N :=
  match tbl with
  | EmptyString => None
  | String d tbl' => if Ascii.eqb c d then Some i else index_from (N.succ i) c tbl'
  end.

Definition dec6 (c : ascii) : option N := index_from 0 c encodeStd.

(** [EncodeToString]: three bytes give four characters; a last group of
    one or two bytes is padded with [=]. *)
Fixpoint EncodeToString (src : string) : string :=
  match src with
  | EmptyString => EmptyString
  | String a EmptyString =>
      let val := (byte a * 65536)%N in
      String (enc6 (val / 262144 mod 64)) (String (enc6 (val / 4096 mod 64))
        (String padChar (String padChar EmptyString)))
  | String a (String b EmptyString) =>
      let val := (byte a * 65536 + byte b * 256)%N in
      String (enc6 (val / 262144 mod 64)) (String (enc6 (val / 4096 mod 64))
        (String (enc6 (val / 64 mod 64)) (String padChar EmptyString)))
  | String a (String b (String c rest)) =>
      let val := (byte a * 65536 + byte b * 256 + byte c)%N in
      String (enc6 (val / 262144 mod 64)) (String (enc6 (val / 4096 mod 64))
        (String (enc6 (val / 64 mod 64)) (String (enc6 (val mod 64))
          (EncodeToString rest))))
  end.

Definition is_newline (c : ascii) : bool :=
  (byte c =? 10)%N || (byte c =? 13)%N.

(** The decoder skips carriage returns and line feeds wherever they stand. *)
Fixpoint strip_newlines (s : string) : string :=
  match s with
  | EmptyString => EmptyString
  | String c s' => if is_newline c then strip_newlines s' else String c (strip_newlines s')
  end.

(** The bytes of one quantum of [dlen] characters whose 6-bit values are
    [d0 .. d3] ([dlen - 1] bytes). *)
Definition quantum (d0 d1 d2 d3 : N) (dlen : nat) : string :=
  let val := (d0 * 262144 + d1 * 4096 + d2 * 64 + d3)%N in
  take_str (dlen - 1)
    (String (chr (val / 65536 mod 256)) (String (chr (val / 256 mod 256))
       (String (chr (val mod 256)) EmptyString))).

(** Quanta of four characters; padding only in the last one, and nothing
    after it. *)
Fixpoint decode_quanta (s : string) : option string :=
  match s with
  | EmptyString => Some EmptyString
  | String c0 (String c1 (String c2 (String c3 rest))) =>
      match dec6 c0, dec6 c1 with
      | Some d0, Some d1 =>
          if Ascii.eqb c2 padChar then
            if Ascii.eqb c3 padChar then
              match rest with
              | EmptyString => Some (quantum d0 d1 0 0 2)
              | _ => None
              end
            else None
          else
            match dec6 c2 with
            | Some d2 =>
                if Ascii.eqb c3 padChar then
                  match rest with
                  | EmptyString => Some (quantum d0 d1 d2 0 3)
                  | _ => None
                  end
                else
                  match dec6 c3 with
                  | Some d3 =>
                      match decode_quanta rest with
                      | Some out => Some (quantum d0 d1 d2 d3 4 +:+ out)
                      | None => None
                      end
                  | None => None
                  end
            | None => None
            end
      | _, _ => None
      end
  | _ => None
  end.

(** [DecodeString]: [None] stands for a [CorruptInputError]. *)
Definition DecodeString (s : string) : option string :=
  decode_quanta (strip_newlines s).

End base64.

(** ** encoding/json (Go standard library), as far as the Builder needs it

    [Marshal] writes compact text, escapes what HTML could misread, coerces
    strings to valid UTF-8 and writes the keys of a map in byte order.
    [Unmarshal] checks the syntax of the whole text before it stores
    anything, matches the keys of an object to the fields without regard to
    case, and keeps decoding after a value of the wrong type, returning the
    error at the end.  Two things are left out.  The [float64] of a number
    stored at type [interface{}] is stood for by its literal (whether it is
    in range is checked).  And a slice is filled anew from an array, as the
    documentation has it; the reuse of the array of a slice, which shows when
    a key occurs twice and the second array holds [null], is not
    modelled. *)

Module json.

(** JSON values, with string contents and keys already unquoted and number
    literals kept as written. *)
Inductive value : Type :=
  | JNull
  | JBool (b : bool)
  | JNumber (lit : string)
  | JString (s : string)
  | JArray (l : list value)
  | JObject (members : list (string * value)).

Definition dquote : ascii := chr 34.
Definition backslash : ascii := "\"%char.

Definition hex : string := "0123456789abcdef".

Definition hexdigit (n : N) : ascii :=
  match String.get (N.to_nat n) hex with
  | Some c => c
  | None => "0"%char
  end.

(** *** Encoding a string: [encodeState.string] with [escapeHTML] set *)

(** The text written for one byte below [utf8.RuneSelf]. *)
Definition escape_ascii (c : ascii) : string :=
  let b := byte c in
  if (0x20 <=? b)%N && negb (Ascii.eqb c backslash) && negb (Ascii.eqb c dquote)
     && negb (Ascii.eqb c "<") && negb (Ascii.eqb c ">") && negb (Ascii.eqb c "&")
  then String c EmptyString
  else if Ascii.eqb c backslash || Ascii.eqb c dquote
  then String backslash (String c EmptyString)
  else if (b =? 10)%N then String backslash "n"
  else if (b =? 13)%N then String backslash "r"
  else if (b =? 9)%N then String backslash "t"
  else String backslash "u00" +:+ String (hexdigit (b / 16)) (String (hexdigit (b mod 16)) EmptyString).

(** The loop of [encodeState.string]: bytes that are no well-formed UTF-8
    become the escape of U+FFFD, U+2028 and U+2029 are escaped, any other rune is
    copied. *)
Fixpoint encode_body (fuel : nat) (s : string) : string :=
  match fuel, s with
  | S f, String c s' =>
      if (byte c <? utf8.RuneSelf)%N then escape_ascii c +:+ encode_body f s'
      else
        let d := utf8.DecodeRune s in
        if utf8.invalid d then String backslash "ufffd" +:+ encode_body f s'
        else if (fst d =? 0x2028)%N || (fst d =? 0x2029)%N
        then String backslash "u202" +:+ String (hexdigit (fst d mod 16)) (encode_body f (drop_str (snd d) s))
        else take_str (snd d) s +:+ encode_body f (drop_str (snd d) s)
  | _, _ => EmptyString
  end.

Definition encode_string (s : string) : string :=
  String dquote (encode_body (String.length s) s) +:+ String dquote EmptyString.

(** [a,b,c]. *)
Fixpoint join (sep : string) (l : list string) : string :=
  match l with
  | [] => EmptyString
  | [x] => x
  | x :: l' => x +:+ sep +:+ join sep l'
  end.

(** The compact text of a value. *)
Fixpoint encode_value (v : value) : string :=
  match v with
  | JNull => "null"
  | JBool true => "true"
  | JBool false => "false"
  | JNumber lit => lit
  | JString s => encode_string s
  | JArray l => "[" +:+ join "," (map encode_value l) +:+ "]"
  | JObject ms =>
      "{" +:+ join "," (map (fun kv => encode_string (fst kv) +:+ ":" +:+ encode_value (snd kv)) ms) +:+ "}"
  end.

(** *** Scanning and unquoting *)

Definition is_space (c : ascii) : bool :=
  Ascii.eqb c " " || (byte c =? 9)%N || (byte c =? 10)%N || (byte c =? 13)%N.

Fixpoint skip_space (s : string) : string :=
  match s with
  | String c s' => if is_space c then skip_space s' else s
  | EmptyString => s
  end.

Definition is_digit (c : ascii) : bool := in_range c 48 57.

(** The value of a hexadecimal digit, in either case. *)
Definition unhex (c : ascii) : option N :=
  let b := byte c in
  if in_range c 48 57 then Some (b - 48)%N
  else if in_range c 97 102 then Some (b - 87)%N
  else if in_range c 65 70 then Some (b - 55)%N
  else None.

(** Four hexadecimal digits at the head of [s]. *)
Definition hex4 (s : string) : option (N * string) :=
  match s with
  | String c0 (String c1 (String c2 (String c3 rest))) =>
      match unhex c0, unhex c1, unhex c2, unhex c3 with
      | Some h0, Some h1, Some h2, Some h3 =>
          Some ((h0 * 4096 + h1 * 256 + h2 * 16 + h3)%N, rest)
      | _, _, _, _ => None
      end
  | _ => None
  end.

(** [getu4]: a [\uXXXX] escape at the head of [s]. *)
Definition getu4 (s : string) : option (N * string) :=
  match s with
  | String c0 (String c1 rest) =>
      if Ascii.eqb c0 backslash && Ascii.eqb c1 "u" then hex4 rest else None
  | _ => None
  end.

Definition push (p : string) (r : option (string * string)) : option (string * string) :=
  match r with
  | Some (out, rest) => Some (p +:+ out, rest)
  | None => None
  end.

(** The body of a string literal, from after its opening quote up to and
    including its closing quote: the scanner's check (no raw control
    character, only the escapes of JSON) together with [unquote] (escapes
    replaced, a surrogate pair combined, a lone surrogate and any byte that
    is no well-formed UTF-8 replaced by U+FFFD, any other rune copied).
    Returns the contents and the text after the closing quote. *)
Fixpoint unquote (fuel : nat) (s : string) : option (string * string) :=
  match fuel, s with
  | S f, String c s' =>
      if Ascii.eqb c dquote then Some (EmptyString, s')
      else if Ascii.eqb c backslash then
        match s' with
        | String e s'' =>
            let one (b : N) := push (String (chr b) EmptyString) (unquote f s'') in
            if Ascii.eqb e dquote || Ascii.eqb e backslash || Ascii.eqb e "/"
            then push (String e EmptyString) (unquote f s'')
            else if Ascii.eqb e "b" then one 8%N
            else if Ascii.eqb e "f" then one 12%N
            else if Ascii.eqb e "n" then one 10%N
            else if Ascii.eqb e "r" then one 13%N
            else if Ascii.eqb e "t" then one 9%N
            else if Ascii.eqb e "u" then
              match hex4 s'' with
              | Some (rr, s3) =>
                  if utf16.IsSurrogate rr then
                    match getu4 s3 with
                    | Some (rr1, s4) =>
                        let dec := utf16.DecodeRune rr rr1 in
                        if (dec =? utf8.RuneError)%N
                        then push (utf8.EncodeRune utf8.RuneError) (unquote f s3)
                        else push (utf8.EncodeRune dec) (unquote f s4)
                    | None => push (utf8.EncodeRune utf8.RuneError) (unquote f s3)
                    end
                  else push (utf8.EncodeRune rr) (unquote f s3)
              | None => None
              end
            else None
        | EmptyString => None
        end
      else if (byte c <? 0x20)%N then None
      else if (byte c <? utf8.RuneSelf)%N then push (String c EmptyString) (unquote f s')
      else
        let d := utf8.DecodeRune s in
        if utf8.invalid d then push (utf8.EncodeRune utf8.RuneError) (unquote f s')
        else push (take_str (snd d) s) (unquote f (drop_str (snd d) s))
  | _, _ => None
  end.

(** A string literal whose opening quote has been read. *)
Definition scan_string (s : string) : option (string * string) :=
  unquote (String.length s) s.


(** The longest run of digits at the head of [s], and what follows. *)
Fixpoint digits (s : string) : string * string :=
  match s with
  | String c s' =>
      if is_digit c then let '(ds, rest) := digits s' in (String c ds, rest)
      else (EmptyString, s)
  | EmptyString => (EmptyString, EmptyString)
  end.

(** A number literal: an optional minus sign; a zero, or a digit from 1 to
    9 and further digits; optionally a point and at least one digit;
    optionally an exponent mark, a sign and at least one digit.  Returns the
    literal and the text after it. *)
Definition scan_number (s : string) : option (string * string) :=
  let '(sign, s0) :=
    match s with
    | String c s' => if Ascii.eqb c "-" then ("-", s') else (EmptyString, s)
    | EmptyString => (EmptyString, s)
    end in
  let int_part :=
    match s0 with
    | String c s' =>
        if Ascii.eqb c "0" then Some ("0", s')
        else if in_range c 49 57
        then let '(ds, rest) := digits s' in Some (String c ds, rest)
        else None
    | EmptyString => None
    end in
  match int_part with
  | None => None
  | Some (ip, s1) =>
      let frac_part :=
        match s1 with
        | String c s' =>
            if Ascii.eqb c "." then
              let '(ds, rest) := digits s' in
              match ds with
              | EmptyString => None
              | _ => Some (String c ds, rest)
              end
            else Some (EmptyString, s1)
        | EmptyString => Some (EmptyString, s1)
        end in
      match frac_part with
      | None => None
      | Some (fp, s2) =>
          let exp_part :=
            match s2 with
            | String c s' =>
                if Ascii.eqb c "e" || Ascii.eqb c "E" then
                  let '(sg, s3) :=
                    match s' with
                    | String d s'' =>
                        if Ascii.eqb d "+" || Ascii.eqb d "-"
                        then (String d EmptyString, s'') else (EmptyString, s')
                    | EmptyString => (EmptyString, s')
                    end in
                  let '(ds, rest) := digits s3 in
                  match ds with
                  | EmptyString => None
                  | _ => Some (String c sg +:+ ds, rest)
                  end
                else Some (EmptyString, s2)
            | EmptyString => Some (EmptyString, s2)
            end in
          match exp_part with
          | None => None
          | Some (ep, s3) => Some (sign +:+ ip +:+ fp +:+ ep, s3)
          end
      end
  end.

(** One value at the head of [s], after optional white space; the
    elements of an array after its first; the members of an object.  [fuel]
    bounds the depth of the calls: each call is made on a text shorter than
    its caller's. *)
Fixpoint parse_value (fuel : nat) (s : string) : option (value * string) :=
  match fuel with
  | O => None
  | S f =>
      match skip_space s with
      | EmptyString => None
      | String c s' =>
          if Ascii.eqb c "{" then
            match skip_space s' with
            | String c1 s1 =>
                if Ascii.eqb c1 "}" then Some (JObject [], s1)
                else
                  match parse_members f s' with
                  | Some (ms, rest) => Some (JObject ms, rest)
                  | None => None
                  end
            | EmptyString => None
            end
          else if Ascii.eqb c "[" then
            match skip_space s' with
            | String c1 s1 =>
                if Ascii.eqb c1 "]" then Some (JArray [], s1)
                else
                  match parse_value f s' with
                  | Some (v, s2) =>
                      match parse_elements f s2 with
                      | Some (vs, rest) => Some (JArray (v :: vs), rest)
                      | None => None
                      end
                  | None => None
                  end
            | EmptyString => None
            end
          else if Ascii.eqb c dquote then
            match scan_string s' with
            | Some (str, rest) => Some (JString str, rest)
            | None => None
            end
          else if Ascii.eqb c "-" || is_digit c then
            match scan_number (String c s') with
            | Some (lit, rest) => Some (JNumber lit, rest)
            | None => None
            end
          else if strings.HasPrefix (String c s') "true" then Some (JBool true, drop_str 4 (String c s'))
          else if strings.HasPrefix (String c s') "false" then Some (JBool false, drop_str 5 (String c s'))
          else if strings.HasPrefix (String c s') "null" then Some (JNull, drop_str 4 (String c s'))
          else None
      end
  end
with parse_elements (fuel : nat) (s : string) : option (list value * string) :=
  match fuel with
  | O => None
  | S f =>
      match skip_space s with
      | String c s' =>
          if Ascii.eqb c "]" then Some ([], s')
          else if Ascii.eqb c "," then
            match parse_value f s' with
            | Some (v, s2) =>
                match parse_elements f s2 with
                | Some (vs, rest) => Some (v :: vs, rest)
                | None => None
                end
            | None => None
            end
          else None
      | EmptyString => None
      end
  end
with parse_members (fuel : nat) (s : string) : option (list (string * value) * string) :=
  match fuel with
  | O => None
  | S f =>
      match skip_space s with
      | String q s1 =>
          if Ascii.eqb q dquote then
            match scan_string s1 with
            | Some (k, s2) =>
                match skip_space s2 with
                | String colon s3 =>
                    if Ascii.eqb colon ":" then
                      match parse_value f s3 with
                      | Some (v, s4) =>
                          match skip_space s4 with
                          | String d s5 =>
                              if Ascii.eqb d "}" then Some ([(k, v)], s5)
                              else if Ascii.eqb d "," then
                                match parse_members f s5 with
                                | Some (ms, rest) => Some ((k, v) :: ms, rest)
                                | None => None
                                end
                              else None
                          | EmptyString => None
                          end
                      | None => None
                      end
                    else None
                | EmptyString => None
                end
            | None => None
            end
          else None
      | EmptyString => None
      end
  end.

(** [checkValid] and the reading of the text: one value, with white space
    around it and nothing else.  [None] stands for a [*SyntaxError]. *)
Definition Parse (data : string) : option value :=
  match parse_value (S (String.length data)) data with
  | Some (v, rest) =>
      match skip_space rest with
      | EmptyString => Some v
      | _ => None
      end
  | None => None
  end.


(** *** Decoding into Go values *)

(** Field names are matched exactly or, failing that, without regard to
    case: ASCII letters fold, and so do the Kelvin sign (U+212A) with [k] and
    the long s (U+017F) with [s].  [name] is a field name (ASCII). *)
Definition is_letter (c : ascii) : bool := in_range c 65 90 || in_range c 97 122.

Definition caseMask (c : ascii) : N := N.land (byte c) 0xDF.

Fixpoint equalFold (name key : string) : bool :=
  match name, key with
  | EmptyString, EmptyString => true
  | String sb name', String tb key' =>
      if (byte tb <? utf8.RuneSelf)%N then
        (Ascii.eqb sb tb || (is_letter sb && (caseMask sb =? caseMask tb)%N))
        && equalFold name' key'
      else
        match key' with
        | String t1 key1 =>
            if (byte tb =? 0xC5)%N && (byte t1 =? 0xBF)%N
            then (Ascii.eqb sb "s" || Ascii.eqb sb "S") && equalFold name' key1
            else
              match key1 with
              | String t2 key2 =>
                  if (byte tb =? 0xE2)%N && (byte t1 =? 0x84)%N && (byte t2 =? 0xAA)%N
                  then (Ascii.eqb sb "k" || Ascii.eqb sb "K") && equalFold name' key2
                  else false
              | EmptyString => false
              end
        | EmptyString => false
        end
  | _, _ => false
  end.

(** The value of a run of decimal digits. *)
Fixpoint decimal (acc : N) (s : string) : N :=
  match s with
  | String c s' => decimal (acc * 10 + (byte c - 48))%N s'
  | EmptyString => acc
  end.

Fixpoint all_digits (s : string) : bool :=
  match s with
  | String c s' => is_digit c && all_digits s'
  | EmptyString => true
  end.

(** A number literal read into a [uint8]: [strconv.ParseUint(s, 10, 64)]
    accepts digits only, and the value must fit. *)
Definition to_uint8 (lit : string) : option N :=
  if all_digits lit && negb (String.eqb lit EmptyString) && (decimal 0 lit <=? 255)%N
  then Some (decimal 0 lit) else None.

(** A number literal read into a [float64] is an error when it rounds to
    an infinity: when its magnitude reaches [2^1024 - 2^970]. *)
Definition float64_overflows (lit : string) : bool :=
  let s0 := match lit with
            | String c s' => if Ascii.eqb c "-" then s' else lit
            | EmptyString => lit
            end in
  let '(ip, s1) := digits s0 in
  let '(fp, s2) := match s1 with
                   | String c s' => if Ascii.eqb c "." then digits s' else (EmptyString, s1)
                   | EmptyString => (EmptyString, s1)
                   end in
  let ex : Z := match s2 with
                | String _ (String d s') =>
                    if Ascii.eqb d "-" then (- Z.of_N (decimal 0 s'))%Z
                    else if Ascii.eqb d "+" then Z.of_N (decimal 0 s')
                    else Z.of_N (decimal 0 (String d s'))
                | _ => 0%Z
                end in
  let mant := Z.of_N (decimal 0 (ip +:+ fp)) in
  let e10 := (ex - Z.of_nat (String.length fp))%Z in
  let limit := (2 ^ 1024 - 2 ^ 970)%Z in
  if (0 <=? e10)%Z then (limit <=? mant * 10 ^ e10)%Z
  else (limit * 10 ^ (- e10) <=? mant)%Z.

(** A Go map keeps one entry per key; the encoder writes the keys in
    byte order.  [put k v ms] stores the entry in a list sorted by key. *)
Fixpoint put (k : string) (v : value) (ms : list (string * value)) : list (string * value) :=
  match ms with
  | [] => [(k, v)]
  | (k', v') :: ms' =>
      if String.eqb k k' then (k, v) :: ms'
      else if String.ltb k k' then (k, v) :: ms
      else (k', v') :: put k v ms'
  end.

(** The value stored at type [interface{}] for a JSON value: numbers must
    be in the range of [float64]; an object becomes a map (its members sorted
    by key, the last of equal keys kept). *)
Fixpoint to_interface (v : value) : option value :=
  match v with
  | JNumber lit => if float64_overflows lit then None else Some v
  | JArray l =>
      match (fix elems (l : list value) : option (list value) :=
               match l with
               | [] => Some []
               | x :: l' =>
                   match to_interface x, elems l' with
                   | Some y, Some ys => Some (y :: ys)
                   | _, _ => None
                   end
               end) l with
      | Some ys => Some (JArray ys)
      | None => None
      end
  | JObject ms =>
      match (fix members (ms : list (string * value)) (acc : list (string * value))
               : option (list (string * value)) :=
               match ms with
               | [] => Some acc
               | (k, x) :: ms' =>
                   match to_interface x with
                   | Some y => members ms' (put k y acc)
                   | None => None
                   end
               end) ms [] with
      | Some ms' => Some (JObject ms')
      | None => None
      end
  | _ => Some v
  end.

End json.

(** ** Files *)

(** The files of the file system: the contents stored under each path. *)
Abbreviation FS := (gmap string string).

(** [ioutil.ReadFile]. *)
Definition ReadFile (fs : FS) (path : string) : result string :=
  match fs !! path with
  | Some data => Ok data
  | None => Err (ExternalError "no such file or directory")
  end.

Module ioutils.

(** What may go wrong while the file is written. *)
Inductive fault : Type :=
  | no_fault
  | create_fails                  (* the temporary file cannot be created *)
  | write_fails (n : nat)         (* the write stops after [n] bytes *)
  | rename_fails.                 (* the rename is refused *)

(** The name of the temporary file: a name in the directory of the target
    that is not the target's. *)
Definition temp_name (filename : string) : string := filename +:+ ".tmp".

(** Modelled from the spec: [ioutils.AtomicWriteFile] of
    github.com/containers/storage/pkg/ioutils, which is not among the source
    files.  As the spec describes it: the data is written to a temporary
    file, which is renamed into place atomically on success and removed on
    any failure.  The result is the list of the states that the file system
    goes through (a crash leaves any one of them behind; the last one is
    the state when the call returns) and the error returned. *)
Definition AtomicWriteFile (f : fault) (fs : FS) (filename data : string)
  : list FS * option error :=
  let tmp := temp_name filename in
  match f with
  | create_fails => ([], Some (ExternalError "cannot create temporary file"))
  | write_fails n =>
      ([<[tmp := EmptyString]> fs; <[tmp := take_str n data]> fs; delete tmp fs],
       Some (ExternalError "short write"))
  | rename_fails =>
      ([<[tmp := EmptyString]> fs; <[tmp := data]> fs; delete tmp fs],
       Some (ExternalError "cannot rename"))
  | no_fault =>
      ([<[tmp := EmptyString]> fs; <[tmp := data]> fs; <[filename := data]> (delete tmp fs)],
       None)
  end.

End ioutils.

(** ** The Store (github.com/containers/storage), as the two files use it *)

Module storage.

(** A container of the Store; only its ID is read. *)
Record Container : Type := { ID : string }.

(** The methods of the [storage.Store] interface that are called. *)
Record Store : Type := {
  GetContainerDirectory : string -> result string;
  Containers : result (list Container);
  GetMetadata : string -> result string
}.

End storage.

(** How a call ends: it returns, or the goroutine panics (here: a nil
    pointer is dereferenced). *)
Inductive outcome (A : Type) : Type :=
  | Returns (a : A)
  | Panics.
Arguments Returns {A} a.
Arguments Panics {A}.

(** ** The Builder record (buildah.go, lines 25-92) *)

Module buildah.

Definition Package : string := "buildah".
Definition containerType : string := Package +:+ " 0.0.0".
Definition stateFile : string := Package +:+ ".json".

(** A value held at type [interface{}] in [Expose].  [updateConfig] stores
    [struct{}{}]; [json.Unmarshal] stores what it decodes ([decoded j]: the
    nil, bool, float64, string, []interface{} or map[string]interface{} value
    that the JSON value [j] denotes, a map written as the list of its entries
    sorted by key and a float64 as the literal it was read from); any other Go
    value, which the encoder refuses (a channel, a function), is
    [unsupported]. *)
Inductive iface : Type :=
  | empty_struct                        (* struct{}{} *)
  | decoded (j : json.value)
  | unsupported.

Record Builder : Type := mkBuilder {
  store : option storage.Store          (* unexported; not encoded *);
  Type_ : string                        (* json:type *);
  FromImage : string                    (* json:image,omitempty *);
  Config : string                       (* []byte, json:config,omitempty *);
  Manifest : string                     (* []byte, json:manifest,omitempty *);
  Container : string                    (* json:container-name,omitempty *);
  ContainerID : string                  (* json:container-id,omitempty *);
  MountPoint : string                   (* json:mountpoint,omitempty *);
  Mounts : list string                  (* json:mounts,omitempty *);
  Links : list string                   (* json:links,omitempty *);
  Annotations : option (gmap string string) (* json:annotations,omitempty *);
  CreatedBy : string                    (* json:created-by,omitempty *);
  OS : string                           (* json:os,omitempty *);
  Architecture : string                 (* json:arch,omitempty *);
  Maintainer : string                   (* json:maintainer,omitempty *);
  User : string                         (* json:user,omitempty *);
  Workdir : string                      (* json:workingdir,omitempty *);
  Env : list string                     (* json:env,omitempty *);
  Cmd : list string                     (* json:cmd,omitempty *);
  Entrypoint : list string              (* json:entrypoint,omitempty *);
  Expose : option (gmap string iface)   (* json:expose,omitempty *);
  Labels : option (gmap string string)  (* json:labels,omitempty *);
  Volumes : list string                 (* json:volumes,omitempty *);
  Arg : option (gmap string string)     (* json:arg,omitempty *)
}.

(** [&Builder{}]: every field at its zero value. *)
Definition zero : Builder :=
  mkBuilder None EmptyString EmptyString EmptyString EmptyString EmptyString EmptyString EmptyString [] [] None EmptyString EmptyString EmptyString EmptyString EmptyString EmptyString [] [] [] None None [] None.

(** Field assignments [b.F = v]. *)
Definition set_store (v : option storage.Store) (b : Builder) : Builder :=
  mkBuilder v (Type_ b) (FromImage b) (Config b) (Manifest b) (Container b) (ContainerID b) (MountPoint b) (Mounts b) (Links b) (Annotations b) (CreatedBy b) (OS b) (Architecture b) (Maintainer b) (User b) (Workdir b) (Env b) (Cmd b) (Entrypoint b) (Expose b) (Labels b) (Volumes b) (Arg b).
Definition set_Type_ (v : string) (b : Builder) : Builder :=
  mkBuilder (store b) v (FromImage b) (Config b) (Manifest b) (Container b) (ContainerID b) (MountPoint b) (Mounts b) (Links b) (Annotations b) (CreatedBy b) (OS b) (Architecture b) (Maintainer b) (User b) (Workdir b) (Env b) (Cmd b) (Entrypoint b) (Expose b) (Labels b) (Volumes b) (Arg b).
Definition set_FromImage (v : string) (b : Builder) : Builder :=
  mkBuilder (store b) (Type_ b) v (Config b) (Manifest b) (Container b) (ContainerID b) (MountPoint b) (Mounts b) (Links b) (Annotations b) (CreatedBy b) (OS b) (Architecture b) (Maintainer b) (User b) (Workdir b) (Env b) (Cmd b) (Entrypoint b) (Expose b) (Labels b) (Volumes b) (Arg b).
Definition set_Config (v : string) (b : Builder) : Builder :=
  mkBuilder (store b) (Type_ b) (FromImage b) v (Manifest b) (Container b) (ContainerID b) (MountPoint b) (Mounts b) (Links b) (Annotations b) (CreatedBy b) (OS b) (Architecture b) (Maintainer b) (User b) (Workdir b) (Env b) (Cmd b) (Entrypoint b) (Expose b) (Labels b) (Volumes b) (Arg b).
Definition set_Manifest (v : string) (b : Builder) : Builder :=
  mkBuilder (store b) (Type_ b) (FromImage b) (Config b) v (Container b) (ContainerID b) (MountPoint b) (Mounts b) (Links b) (Annotations b) (CreatedBy b) (OS b) (Architecture b) (Maintainer b) (User b) (Workdir b) (Env b) (Cmd b) (Entrypoint b) (Expose b) (Labels b) (Volumes b) (Arg b).
Definition set_Container (v : string) (b : Builder) : Builder :=
  mkBuilder (store b) (Type_ b) (FromImage b) (Config b) (Manifest b) v (ContainerID b) (MountPoint b) (Mounts b) (Links b) (Annotations b) (CreatedBy b) (OS b) (Architecture b) (Maintainer b) (User b) (Workdir b) (Env b) (Cmd b) (Entrypoint b) (Expose b) (Labels b) (Volumes b) (Arg b).
Definition set_ContainerID (v : string) (b : Builder) : Builder :=
  mkBuilder (store b) (Type_ b) (FromImage b) (Config b) (Manifest b) (Container b) v (MountPoint b) (Mounts b) (Links b) (Annotations b) (CreatedBy b) (OS b) (Architecture b) (Maintainer b) (User b) (Workdir b) (Env b) (Cmd b) (Entrypoint b) (Expose b) (Labels b) (Volumes b) (Arg b).
Definition set_MountPoint (v : string) (b : Builder) : Builder :=
  mkBuilder (store b) (Type_ b) (FromImage b) (Config b) (Manifest b) (Container b) (ContainerID b) v (Mounts b) (Links b) (Annotations b) (CreatedBy b) (OS b) (Architecture b) (Maintainer b) (User b) (Workdir b) (Env b) (Cmd b) (Entrypoint b) (Expose b) (Labels b) (Volumes b) (Arg b).
Definition set_Mounts (v : list string) (b : Builder) : Builder :=
  mkBuilder (store b) (Type_ b) (FromImage b) (Config b) (Manifest b) (Container b) (ContainerID b) (MountPoint b) v (Links b) (Annotations b) (CreatedBy b) (OS b) (Architecture b) (Maintainer b) (User b) (Workdir b) (Env b) (Cmd b) (Entrypoint b) (Expose b) (Labels b) (Volumes b) (Arg b).
Definition set_Links (v : list string) (b : Builder) : Builder :=
  mkBuilder (store b) (Type_ b) (FromImage b) (Config b) (Manifest b) (Container b) (ContainerID b) (MountPoint b) (Mounts b) v (Annotations b) (CreatedBy b) (OS b) (Architecture b) (Maintainer b) (User b) (Workdir b) (Env b) (Cmd b) (Entrypoint b) (Expose b) (Labels b) (Volumes b) (Arg b).
Definition set_Annotations (v : option (gmap string string)) (b : Builder) : Builder :=
  mkBuilder (store b) (Type_ b) (FromImage b) (Config b) (Manifest b) (Container b) (ContainerID b) (MountPoint b) (Mounts b) (Links b) v (CreatedBy b) (OS b) (Architecture b) (Maintainer b) (User b) (Workdir b) (Env b) (Cmd b) (Entrypoint b) (Expose b) (Labels b) (Volumes b) (Arg b).
Definition set_CreatedBy (v : string) (b : Builder) : Builder :=
  mkBuilder (store b) (Type_ b) (FromImage b) (Config b) (Manifest b) (Container b) (ContainerID b) (MountPoint b) (Mounts b) (Links b) (Annotations b) v (OS b) (Architecture b) (Maintainer b) (User b) (Workdir b) (Env b) (Cmd b) (Entrypoint b) (Expose b) (Labels b) (Volumes b) (Arg b).
Definition set_OS (v : string) (b : Builder) : Builder :=
  mkBuilder (store b) (Type_ b) (FromImage b) (Config b) (Manifest b) (Container b) (ContainerID b) (MountPoint b) (Mounts b) (Links b) (Annotations b) (CreatedBy b) v (Architecture b) (Maintainer b) (User b) (Workdir b) (Env b) (Cmd b) (Entrypoint b) (Expose b) (Labels b) (Volumes b) (Arg b).
Definition set_Architecture (v : string) (b : Builder) : Builder :=
  mkBuilder (store b) (Type_ b) (FromImage b) (Config b) (Manifest b) (Container b) (ContainerID b) (MountPoint b) (Mounts b) (Links b) (Annotations b) (CreatedBy b) (OS b) v (Maintainer b) (User b) (Workdir b) (Env b) (Cmd b) (Entrypoint b) (Expose b) (Labels b) (Volumes b) (Arg b).
Definition set_Maintainer (v : string) (b : Builder) : Builder :=
  mkBuilder (store b) (Type_ b) (FromImage b) (Config b) (Manifest b) (Container b) (ContainerID b) (MountPoint b) (Mounts b) (Links b) (Annotations b) (CreatedBy b) (OS b) (Architecture b) v (User b) (Workdir b) (Env b) (Cmd b) (Entrypoint b) (Expose b) (Labels b) (Volumes b) (Arg b).
Definition set_User (v : string) (b : Builder) : Builder :=
  mkBuilder (store b) (Type_ b) (FromImage b) (Config b) (Manifest b) (Container b) (ContainerID b) (MountPoint b) (Mounts b) (Links b) (Annotations b) (CreatedBy b) (OS b) (Architecture b) (Maintainer b) v (Workdir b) (Env b) (Cmd b) (Entrypoint b) (Expose b) (Labels b) (Volumes b) (Arg b).
Definition set_Workdir (v : string) (b : Builder) : Builder :=
  mkBuilder (store b) (Type_ b) (FromImage b) (Config b) (Manifest b) (Container b) (ContainerID b) (MountPoint b) (Mounts b) (Links b) (Annotations b) (CreatedBy b) (OS b) (Architecture b) (Maintainer b) (User b) v (Env b) (Cmd b) (Entrypoint b) (Expose b) (Labels b) (Volumes b) (Arg b).
Definition set_Env (v : list string) (b : Builder) : Builder :=
  mkBuilder (store b) (Type_ b) (FromImage b) (Config b) (Manifest b) (Container b) (ContainerID b) (MountPoint b) (Mounts b) (Links b) (Annotations b) (CreatedBy b) (OS b) (Architecture b) (Maintainer b) (User b) (Workdir b) v (Cmd b) (Entrypoint b) (Expose b) (Labels b) (Volumes b) (Arg b).
Definition set_Cmd (v : list string) (b : Builder) : Builder :=
  mkBuilder (store b) (Type_ b) (FromImage b) (Config b) (Manifest b) (Container b) (ContainerID b) (MountPoint b) (Mounts b) (Links b) (Annotations b) (CreatedBy b) (OS b) (Architecture b) (Maintainer b) (User b) (Workdir b) (Env b) v (Entrypoint b) (Expose b) (Labels b) (Volumes b) (Arg b).
Definition set_Entrypoint (v : list string) (b : Builder) : Builder :=
  mkBuilder (store b) (Type_ b) (FromImage b) (Config b) (Manifest b) (Container b) (ContainerID b) (MountPoint b) (Mounts b) (Links b) (Annotations b) (CreatedBy b) (OS b) (Architecture b) (Maintainer b) (User b) (Workdir b) (Env b) (Cmd b) v (Expose b) (Labels b) (Volumes b) (Arg b).
Definition set_Expose (v : option (gmap string iface)) (b : Builder) : Builder :=
  mkBuilder (store b) (Type_ b) (FromImage b) (Config b) (Manifest b) (Container b) (ContainerID b) (MountPoint b) (Mounts b) (Links b) (Annotations b) (CreatedBy b) (OS b) (Architecture b) (Maintainer b) (User b) (Workdir b) (Env b) (Cmd b) (Entrypoint b) v (Labels b) (Volumes b) (Arg b).
Definition set_Labels (v : option (gmap string string)) (b : Builder) : Builder :=
  mkBuilder (store b) (Type_ b) (FromImage b) (Config b) (Manifest b) (Container b) (ContainerID b) (MountPoint b) (Mounts b) (Links b) (Annotations b) (CreatedBy b) (OS b) (Architecture b) (Maintainer b) (User b) (Workdir b) (Env b) (Cmd b) (Entrypoint b) (Expose b) v (Volumes b) (Arg b).
Definition set_Volumes (v : list string) (b : Builder) : Builder :=
  mkBuilder (store b) (Type_ b) (FromImage b) (Config b) (Manifest b) (Container b) (ContainerID b) (MountPoint b) (Mounts b) (Links b) (Annotations b) (CreatedBy b) (OS b) (Architecture b) (Maintainer b) (User b) (Workdir b) (Env b) (Cmd b) (Entrypoint b) (Expose b) (Labels b) v (Arg b).
Definition set_Arg (v : option (gmap string string)) (b : Builder) : Builder :=
  mkBuilder (store b) (Type_ b) (FromImage b) (Config b) (Manifest b) (Container b) (ContainerID b) (MountPoint b) (Mounts b) (Links b) (Annotations b) (CreatedBy b) (OS b) (Architecture b) (Maintainer b) (User b) (Workdir b) (Env b) (Cmd b) (Entrypoint b) (Expose b) (Labels b) (Volumes b) v.

(** *** json.Marshal(b): the struct tags of Builder *)

Definition comma : string := ",".

(** ["name":text]. *)
Definition member (name text : string) : string :=
  json.encode_string name +:+ ":" +:+ text.

(** A string field; with [omitempty] it is left out when empty. *)
Definition string_field (name : string) (omitempty : bool) (v : string) : list string :=
  if omitempty && String.eqb v EmptyString then []
  else [member name (json.encode_string v)].

(** A [[]byte] field with [omitempty]: a base64 string. *)
Definition bytes_field (name : string) (v : string) : list string :=
  match v with
  | EmptyString => []
  | _ => [member name (json.encode_string (base64.EncodeToString v))]
  end.

(** A [[]string] field with [omitempty]. *)
Definition strings_field (name : string) (v : list string) : list string :=
  match v with
  | [] => []
  | _ => [member name ("[" +:+ json.join comma (map json.encode_string v) +:+ "]")]
  end.

(** The entries of a map in the order of their keys. *)
Definition key_le {A} (x y : string * A) : Prop := String.leb (fst x) (fst y).

Definition sorted_entries {A} (m : gmap string A) : list (string * A) :=
  merge_sort key_le (map_to_list m).

(** A [map[string]string] field with [omitempty]: left out when nil or empty. *)
Definition map_field (name : string) (v : option (gmap string string)) : list string :=
  match v with
  | None => []
  | Some m =>
      match sorted_entries m with
      | [] => []
      | es => [member name ("{" +:+ json.join comma
                  (map (fun kv => member (fst kv) (json.encode_string (snd kv))) es) +:+ "}")]
      end
  end.

(** The text of a value held in [Expose]. *)
Definition encode_iface (v : iface) : result string :=
  match v with
  | empty_struct => Ok "{}"
  | decoded j => Ok (json.encode_value j)
  | unsupported => Err UnsupportedTypeError
  end.

Fixpoint encode_ifaces (es : list (string * iface)) : result (list string) :=
  match es with
  | [] => Ok []
  | (k, v) :: es' =>
      match encode_iface v with
      | Ok t =>
          match encode_ifaces es' with
          | Ok ts => Ok (member k t :: ts)
          | Err e => Err e
          end
      | Err e => Err e
      end
  end.

(** The [map[string]interface{}] field with [omitempty]. *)
Definition expose_field (name : string) (v : option (gmap string iface)) : result (list string) :=
  match v with
  | None => Ok []
  | Some m =>
      match sorted_entries m with
      | [] => Ok []
      | es =>
          match encode_ifaces es with
          | Ok ts => Ok [member name ("{" +:+ json.join comma ts +:+ "}")]
          | Err e => Err e
          end
      end
  end.

(** [json.Marshal(b)]: the fields in the order of the struct, under the
    names of their tags. *)
Definition Marshal (b : Builder) : result string :=
  match expose_field "expose" (Expose b) with
  | Err e => Err e
  | Ok expose =>
      Ok ("{" +:+ json.join comma
            (string_field "type" false (Type_ b)
             ++ string_field "image" true (FromImage b)
             ++ bytes_field "config" (Config b)
             ++ bytes_field "manifest" (Manifest b)
             ++ string_field "container-name" true (Container b)
             ++ string_field "container-id" true (ContainerID b)
             ++ string_field "mountpoint" true (MountPoint b)
             ++ strings_field "mounts" (Mounts b)
             ++ strings_field "links" (Links b)
             ++ map_field "annotations" (Annotations b)
             ++ string_field "created-by" true (CreatedBy b)
             ++ string_field "os" true (OS b)
             ++ string_field "arch" true (Architecture b)
             ++ string_field "maintainer" true (Maintainer b)
             ++ string_field "user" true (User b)
             ++ string_field "workingdir" true (Workdir b)
             ++ strings_field "env" (Env b)
             ++ strings_field "cmd" (Cmd b)
             ++ strings_field "entrypoint" (Entrypoint b)
             ++ expose
             ++ map_field "labels" (Labels b)
             ++ strings_field "volumes" (Volumes b)
             ++ map_field "arg" (Arg b))
          +:+ "}")
  end.


(** *** json.Unmarshal(data, &b), [b] a [*Builder] *)

(** The field names of the tags, in the order of the struct. *)
Definition fields : list string :=
  ["type"; "image"; "config"; "manifest"; "container-name"; "container-id";
   "mountpoint"; "mounts"; "links"; "annotations"; "created-by"; "os"; "arch";
   "maintainer"; "user"; "workingdir"; "env"; "cmd"; "entrypoint"; "expose";
   "labels"; "volumes"; "arg"].

(** The field that a key of the JSON object names: the one equal to it,
    else the first that equals it without regard to case. *)
Definition find_field (key : string) : option string :=
  match List.find (String.eqb key) fields with
  | Some f => Some f
  | None => List.find (fun f => json.equalFold f key) fields
  end.

(** A JSON value decoded into Go values of the types of the fields.
    [None] stands for a saved error ([*UnmarshalTypeError] or a base64
    error), after which [Unmarshal] returns a non-nil error.  [null] leaves a
    string as it is and sets a slice or a map to nil.  A slice is filled anew
    from an array, a null element leaving the zero value. *)
Definition decode_string (v : json.value) (old : string) : option string :=
  match v with
  | json.JString s => Some s
  | json.JNull => Some old
  | _ => None
  end.

Fixpoint decode_elements (l : list json.value) : option (list string) :=
  match l with
  | [] => Some []
  | e :: l' =>
      match decode_string e EmptyString, decode_elements l' with
      | Some x, Some xs => Some (x :: xs)
      | _, _ => None
      end
  end.

Definition decode_strings (v : json.value) : option (list string) :=
  match v with
  | json.JArray l => decode_elements l
  | json.JNull => Some []
  | _ => None
  end.

Definition decode_uint8 (v : json.value) : option ascii :=
  match v with
  | json.JNumber lit => chr <$> json.to_uint8 lit
  | json.JNull => Some (chr 0)
  | _ => None
  end.

Fixpoint decode_uint8s (l : list json.value) : option string :=
  match l with
  | [] => Some EmptyString
  | e :: l' =>
      match decode_uint8 e, decode_uint8s l' with
      | Some x, Some xs => Some (String x xs)
      | _, _ => None
      end
  end.

(** A [[]byte]: from a string in base64, or from an array of numbers. *)
Definition decode_bytes (v : json.value) : option string :=
  match v with
  | json.JString s => base64.DecodeString s
  | json.JArray l => decode_uint8s l
  | json.JNull => Some EmptyString
  | _ => None
  end.

(** A map is allocated when nil and otherwise kept, and the members of
    the object are stored into it one after the other. *)
Fixpoint decode_entries (ms : list (string * json.value)) (m : gmap string string)
  : option (gmap string string) :=
  match ms with
  | [] => Some m
  | (k, e) :: ms' =>
      match decode_string e EmptyString with
      | Some x => decode_entries ms' (<[k := x]> m)
      | None => None
      end
  end.

Definition decode_map (v : json.value) (old : option (gmap string string))
  : option (option (gmap string string)) :=
  match v with
  | json.JObject ms => Some <$> decode_entries ms (default ∅ old)
  | json.JNull => Some None
  | _ => None
  end.

Fixpoint decode_iface_entries (ms : list (string * json.value)) (m : gmap string iface)
  : option (gmap string iface) :=
  match ms with
  | [] => Some m
  | (k, e) :: ms' =>
      match json.to_interface e with
      | Some x => decode_iface_entries ms' (<[k := decoded x]> m)
      | None => None
      end
  end.

Definition decode_expose (v : json.value) (old : option (gmap string iface))
  : option (option (gmap string iface)) :=
  match v with
  | json.JObject ms => Some <$> decode_iface_entries ms (default ∅ old)
  | json.JNull => Some None
  | _ => None
  end.

(** The value of one member stored into the field named [f]. *)
Definition decode_field (f : string) (v : json.value) (b : Builder) : option Builder :=
  if String.eqb f "type" then x ← decode_string v (Type_ b); Some (set_Type_ x b)
  else if String.eqb f "image" then x ← decode_string v (FromImage b); Some (set_FromImage x b)
  else if String.eqb f "config" then x ← decode_bytes v; Some (set_Config x b)
  else if String.eqb f "manifest" then x ← decode_bytes v; Some (set_Manifest x b)
  else if String.eqb f "container-name" then x ← decode_string v (Container b); Some (set_Container x b)
  else if String.eqb f "container-id" then x ← decode_string v (ContainerID b); Some (set_ContainerID x b)
  else if String.eqb f "mountpoint" then x ← decode_string v (MountPoint b); Some (set_MountPoint x b)
  else if String.eqb f "mounts" then x ← decode_strings v; Some (set_Mounts x b)
  else if String.eqb f "links" then x ← decode_strings v; Some (set_Links x b)
  else if String.eqb f "annotations" then x ← decode_map v (Annotations b); Some (set_Annotations x b)
  else if String.eqb f "created-by" then x ← decode_string v (CreatedBy b); Some (set_CreatedBy x b)
  else if String.eqb f "os" then x ← decode_string v (OS b); Some (set_OS x b)
  else if String.eqb f "arch" then x ← decode_string v (Architecture b); Some (set_Architecture x b)
  else if String.eqb f "maintainer" then x ← decode_string v (Maintainer b); Some (set_Maintainer x b)
  else if String.eqb f "user" then x ← decode_string v (User b); Some (set_User x b)
  else if String.eqb f "workingdir" then x ← decode_string v (Workdir b); Some (set_Workdir x b)
  else if String.eqb f "env" then x ← decode_strings v; Some (set_Env x b)
  else if String.eqb f "cmd" then x ← decode_strings v; Some (set_Cmd x b)
  else if String.eqb f "entrypoint" then x ← decode_strings v; Some (set_Entrypoint x b)
  else if String.eqb f "expose" then x ← decode_expose v (Expose b); Some (set_Expose x b)
  else if String.eqb f "labels" then x ← decode_map v (Labels b); Some (set_Labels x b)
  else if String.eqb f "volumes" then x ← decode_strings v; Some (set_Volumes x b)
  else if String.eqb f "arg" then x ← decode_map v (Arg b); Some (set_Arg x b)
  else Some b.

(** The members of the object, in their order; a key that names no field
    is passed over. *)
Fixpoint decode_members (ms : list (string * json.value)) (b : Builder) : option Builder :=
  match ms with
  | [] => Some b
  | (k, v) :: ms' =>
      match find_field k with
      | Some f =>
          match decode_field f v b with
          | Some b' => decode_members ms' b'
          | None => None
          end
      | None => decode_members ms' b
      end
  end.

(** [err = json.Unmarshal(data, &b)] where [b] points to the Builder [b0].
    The result is the error, or else the pointer [b] after the call: the
    literal [null] sets it to nil ([None]); an object is decoded into the
    Builder it points to; any other value is an [*UnmarshalTypeError]. *)
Definition Unmarshal (data : string) (b0 : Builder) : result (option Builder) :=
  match json.Parse data with
  | None => Err SyntaxError
  | Some json.JNull => Ok None
  | Some (json.JObject ms) =>
      match decode_members ms b0 with
      | Some b' => Ok (Some b')
      | None => Err UnmarshalTypeError
      end
  | Some _ => Err UnmarshalTypeError
  end.


(** *** OpenBuilder, OpenBuilderByPath, Save (buildah.go, lines 150-228) *)

Section operations.

(** [filepath.Join] and [filepath.Abs] (the latter reads the working
    directory and may fail). *)
Variable Join : string -> string -> string.
Variable Abs : string -> result string.

(** The error of line 166. *)
Definition not_a_buildah_container : error :=
  Errorf ("container is not a " +:+ Package +:+ " container").

(** [OpenBuilder(store, container)], reading the files [fs]. *)
Definition OpenBuilder (fs : FS) (store : storage.Store) (container : string)
  : outcome (result Builder) :=
  match storage.GetContainerDirectory store container with
  | Err err => Returns (Err err)
  | Ok cdir =>
      match ReadFile fs (Join cdir stateFile) with
      | Err err => Returns (Err err)
      | Ok buildstate =>
          match Unmarshal buildstate zero with
          | Err err => Returns (Err err)
          | Ok None => Panics                      (* b.Type with b == nil *)
          | Ok (Some b) =>
              if negb (String.eqb (Type_ b) containerType)
              then Returns (Err not_a_buildah_container)
              else Returns (Ok (set_store (Some store) b))
          end
      end
  end.

(** The closure [builderMatchesPath]. *)
Definition builderMatchesPath (b : Builder) (path : string) : bool :=
  if String.eqb (MountPoint b) path then true
  else if existsb (fun m => String.eqb m path) (Mounts b) then true
  else if existsb (fun l => String.eqb l path) (Links b) then true
  else false.

(** The loop of lines 200-211 over the containers that remain. *)
Fixpoint scan_containers (store : storage.Store) (abs : string)
    (containers : list storage.Container) : outcome (result Builder) :=
  match containers with
  | [] => Returns (Err ErrContainerUnknown)
  | container :: rest =>
      match storage.GetMetadata store (storage.ID container) with
      | Err err => Returns (Err err)
      | Ok buildstate =>
          match Unmarshal buildstate zero with
          | Err _ => scan_containers store abs rest
          | Ok None => Panics                      (* b.Type with b == nil *)
          | Ok (Some b) =>
              if String.eqb (Type_ b) containerType && builderMatchesPath b abs
              then Returns (Ok (set_store (Some store) b))
              else scan_containers store abs rest
          end
      end
  end.

(** [OpenBuilderByPath(store, path)]. *)
Definition OpenBuilderByPath (store : storage.Store) (path : string)
  : outcome (result Builder) :=
  match storage.Containers store with
  | Err err => Returns (Err err)
  | Ok containers =>
      match Abs path with
      | Err err => Returns (Err err)
      | Ok abs => scan_containers store abs containers
      end
  end.

(** [b.Save()], on the files [fs] and under the fault [f]: the states the
    file system goes through and the error returned.  A Builder without a
    Store panics at [b.store.GetContainerDirectory]. *)
Definition Save (f : ioutils.fault) (fs : FS) (b : Builder)
  : list FS * outcome (option error) :=
  match Marshal b with
  | Err err => ([], Returns (Some err))
  | Ok buildstate =>
      match store b with
      | None => ([], Panics)
      | Some st =>
          match storage.GetContainerDirectory st (ContainerID b) with
          | Err err => ([], Returns (Some err))
          | Ok cdir =>
              let '(states, err) :=
                ioutils.AtomicWriteFile f fs (Join cdir stateFile) buildstate in
              (states, Returns err)
          end
      end
  end.

End operations.

End buildah.

(** ** The configuration update (cmd/buildah/config.go) *)

Module cli.

(** A [*cli.Context], as [updateConfig] reads it. *)
Record Context : Type := {
  IsSet : string -> bool;
  String_ : string -> string;
  StringSlice : string -> list string
}.

End cli.

Module logrus.

(** One call [logrus.Errorf(format, arg, err)]. *)
Record entry : Type := Errorf { format : string; arg : string; err : error }.

End logrus.

Module main.

Import buildah.

Definition DefaultCreatedBy : string := "manual edits".

(** [m[k] = v] and [delete(m, k)] on a map that may be nil; the assignment
    is only made on a map that has been allocated. *)
Definition assign {A} (k : string) (v : A) (m : option (gmap string A)) : option (gmap string A) :=
  (fun m => <[k := v]> m) <$> m.

Definition remove {A} (k : string) (m : option (gmap string A)) : option (gmap string A) :=
  (fun m => delete k m) <$> m.

(** [if m == nil { m = make(...) }]. *)
Definition make_if_nil {A} (m : option (gmap string A)) : option (gmap string A) :=
  match m with
  | None => Some ∅
  | Some _ => m
  end.

(** One label or annotation: split at the first [=]; a value sets the key,
    no value deletes it. *)
Definition apply_spec (spec : string) (m : option (gmap string string))
  : option (gmap string string) :=
  match strings.SplitN spec "=" 2 with
  | k :: v :: _ => assign k v m
  | [k] => remove k m
  | [] => m
  end.

Section updateConfig.

(** [shellwords.Parse] (github.com/mattn/go-shellwords). *)
Variable Parse : string -> result (list string).

(** [updateConfig(builder, c)]: the Builder after the call and what was
    logged. *)
Definition updateConfig (builder : Builder) (c : cli.Context) : Builder * list logrus.entry :=
  let builder :=
    if cli.IsSet c "author" then set_Maintainer (cli.String_ c "author") builder else builder in
  let builder :=
    if cli.IsSet c "created-by" then set_CreatedBy (cli.String_ c "created-by") builder else builder in
  let builder :=
    if cli.IsSet c "arch" then set_Architecture (cli.String_ c "arch") builder else builder in
  let builder :=
    if cli.IsSet c "os" then set_OS (cli.String_ c "os") builder else builder in
  let builder :=
    if cli.IsSet c "user" then set_User (cli.String_ c "user") builder else builder in
  let builder :=
    if cli.IsSet c "port" then
      let builder := set_Expose (make_if_nil (Expose builder)) builder in
      fold_left (fun b portSpec => set_Expose (assign portSpec empty_struct (Expose b)) b)
        (cli.StringSlice c "port") builder
    else builder in
  let builder :=
    if cli.IsSet c "env" then
      fold_left (fun b envSpec => set_Env (Env b ++ [envSpec]) b) (cli.StringSlice c "env") builder
    else builder in
  let '(builder, log1) :=
    if cli.IsSet c "entrypoint" then
      match Parse (cli.String_ c "entrypoint") with
      | Err err =>
          (builder, [logrus.Errorf "error parsing --entrypoint %q: %v" (cli.String_ c "entrypoint") err])
      | Ok entrypointSpec => (set_Entrypoint entrypointSpec builder, [])
      end
    else (builder, []) in
  let '(builder, log2) :=
    if cli.IsSet c "cmd" then
      match Parse (cli.String_ c "cmd") with
      | Err err =>
          (builder, [logrus.Errorf "error parsing --cmd %q: %v" (cli.String_ c "cmd") err])
      | Ok cmdSpec => (set_Cmd cmdSpec builder, [])
      end
    else (builder, []) in
  let builder :=
    if cli.IsSet c "volume" then
      fold_left (fun b volSpec => set_Volumes (Volumes b ++ [volSpec]) b)
        (cli.StringSlice c "volume") builder
    else builder in
  let builder :=
    if cli.IsSet c "label" then
      let builder := set_Labels (make_if_nil (Labels builder)) builder in
      fold_left (fun b labelSpec => set_Labels (apply_spec labelSpec (Labels b)) b)
        (cli.StringSlice c "label") builder
    else builder in
  let builder :=
    if cli.IsSet c "workingdir" then set_Workdir (cli.String_ c "workingdir") builder else builder in
  let builder :=
    if cli.IsSet c "annotation" then
      let builder := set_Annotations (make_if_nil (Annotations builder)) builder in
      fold_left (fun b annotationSpec => set_Annotations (apply_spec annotationSpec (Annotations b)) b)
        (cli.StringSlice c "annotation") builder
    else builder in
  (builder, log1 ++ log2).

End updateConfig.

End main.

(** ** Opening a Builder: notions used by the statements *)

Module resolver.

Import buildah.

#[global] Instance Container_eq_dec : EqDecision storage.Container.
Proof. solve_decision. Defined.

(** The path is the mount point of the record, or one of its mounts, or
    one of its links. *)
Definition matches (b : Builder) (P : string) : Prop :=
  MountPoint b = P \/ In P (Mounts b) \/ In P (Links b).

(** The build-container record of a container of the Store: its metadata
    can be read, decodes to a record, and the record has the fixed type
    tag. *)
Definition record_of (st : storage.Store) (c : storage.Container) : option Builder :=
  match storage.GetMetadata st (storage.ID c) with
  | Ok md =>
      match Unmarshal md zero with
      | Ok (Some b) => if String.eqb (Type_ b) containerType then Some b else None
      | _ => None
      end
  | Err _ => None
  end.

(** The Store returns the metadata of the container, and the metadata is
    not the JSON literal [null] (which decodes to a nil pointer). *)
Definition readable (st : storage.Store) (c : storage.Container) : Prop :=
  exists md, storage.GetMetadata st (storage.ID c) = Ok md /\ Unmarshal md zero <> Ok None.

(** The container has no record that the path matches. *)
Definition no_match (st : storage.Store) (P : string) (c : storage.Container) : Prop :=
  forall b, record_of st c = Some b -> ~ matches b P.


(** *** Examples *)

Definition join_slash (dir file : string) : string := dir +:+ "/" +:+ file.

Definition abs_id (path : string) : result string := Ok path.

(** The record of a build container mounted at [/mnt/c2]. *)
Definition mounted_builder : Builder :=
  set_Mounts ["/mnt/c2"]
    (set_MountPoint "/mnt/c2"
       (set_ContainerID "c2" (set_Container "working" (set_Type_ containerType zero)))).

Definition text_of (b : Builder) : string :=
  match Marshal b with
  | Ok data => data
  | Err _ => EmptyString
  end.

(** A Store of two containers; the metadata of [c1] is [md1]. *)
Definition two_containers (md1 : result string) : storage.Store :=
  {| storage.GetContainerDirectory := fun id => Ok ("/var/lib/containers/" +:+ id);
     storage.Containers := Ok [ {| storage.ID := "c1" |}; {| storage.ID := "c2" |} ];
     storage.GetMetadata := fun id =>
       if String.eqb id "c1" then md1
       else if String.eqb id "c2" then Ok (text_of mounted_builder)
       else Err ErrContainerUnknown |}.

(** The state file of [c1] holds [data]. *)
Definition state_file_with (data : string) : FS :=
  {[ join_slash "/var/lib/containers/c1" stateFile := data ]}.

End resolver.

(** ** Saving a Builder: notions used by the statements *)

Module saving.

Import buildah.

(** The path of the metadata file of a Builder, when its Store gives the
    directory of its container. *)
Definition metadata_file (Join : string -> string -> string) (b : Builder) : option string :=
  match store b with
  | Some st =>
      match storage.GetContainerDirectory st (ContainerID b) with
      | Ok cdir => Some (Join cdir stateFile)
      | Err _ => None
      end
  | None => None
  end.

(** The file system when the call is over. *)
Definition final (fs : FS) (states : list FS) : FS := List.last states fs.

(** A Builder that holds a Store, for the examples. *)
Definition stored_builder : Builder :=
  set_store (Some (resolver.two_containers (Ok "{}")))
    (set_ContainerID "c1" (set_OS "linux" (set_Type_ containerType zero))).

End saving.

(** ** Encoding and decoding: notions used by the statements *)

Module roundtrip.

Import buildah.

(** The character of a 6-bit value is no line break and no padding, and
    stands for that value. *)
Definition char_ok (n : nat) : bool :=
  let c := base64.enc6 (N.of_nat n) in
  negb (base64.is_newline c) && negb (Ascii.eqb c base64.padChar)
  && (byte c <? utf8.RuneSelf)%N
  && match base64.dec6 c with
     | Some m => (m =? N.of_nat n)%N
     | None => false
     end.

(** The text of the encoding is ASCII, hence valid UTF-8. *)
Fixpoint ascii_only (s : string) : bool :=
  match s with
  | EmptyString => true
  | String c s' => (byte c <? utf8.RuneSelf)%N && ascii_only s'
  end.

(** The text that follows the first of the elements joined by commas. *)
Fixpoint tail_text (l : list string) : string :=
  match l with
  | [] => EmptyString
  | x :: l' => "," +:+ x +:+ tail_text l'
  end.

(** The text of one member of an object. *)
Definition member_text (kv : string * json.value) : string :=
  json.encode_string (fst kv) +:+ ":" +:+ json.encode_value (snd kv).

(** A value whose strings and keys are valid UTF-8 and that holds no
    number. *)
Fixpoint plain (v : json.value) : Prop :=
  match v with
  | json.JNull | json.JBool _ => True
  | json.JNumber _ => False
  | json.JString s => utf8.ValidString s = true
  | json.JArray l =>
      (fix all (l : list json.value) : Prop :=
         match l with
         | [] => True
         | x :: l' => plain x /\ all l'
         end) l
  | json.JObject ms =>
      (fix all (ms : list (string * json.value)) : Prop :=
         match ms with
         | [] => True
         | (k, x) :: ms' => utf8.ValidString k = true /\ plain x /\ all ms'
         end) ms
  end.

Definition plain_elements (l : list json.value) : Prop := Forall plain l.

Definition plain_members (ms : list (string * json.value)) : Prop :=
  Forall (fun kv => utf8.ValidString (fst kv) = true /\ plain (snd kv)) ms.

(** *** The members that [Marshal] writes *)

Definition string_member (name : string) (omitempty : bool) (v : string)
  : list (string * json.value) :=
  if omitempty && String.eqb v EmptyString then [] else [(name, json.JString v)].

Definition bytes_member (name : string) (v : string) : list (string * json.value) :=
  match v with
  | EmptyString => []
  | _ => [(name, json.JString (base64.EncodeToString v))]
  end.

Definition strings_member (name : string) (v : list string) : list (string * json.value) :=
  match v with
  | [] => []
  | _ => [(name, json.JArray (map json.JString v))]
  end.

Definition string_entry (kv : string * string) : string * json.value :=
  (fst kv, json.JString (snd kv)).

(** The JSON value that is written for a value held in Expose. *)
Definition tree_of (v : iface) : json.value :=
  match v with
  | empty_struct => json.JObject []
  | decoded j => j
  | unsupported => json.JNull
  end.

Definition iface_entry (kv : string * iface) : string * json.value :=
  (fst kv, tree_of (snd kv)).

Definition map_member (name : string) (v : option (gmap string string))
  : list (string * json.value) :=
  match v with
  | None => []
  | Some m =>
      match sorted_entries m with
      | [] => []
      | es => [(name, json.JObject (map string_entry es))]
      end
  end.

Definition expose_member (name : string) (v : option (gmap string iface))
  : list (string * json.value) :=
  match v with
  | None => []
  | Some m =>
      match sorted_entries m with
      | [] => []
      | es => [(name, json.JObject (map iface_entry es))]
      end
  end.

(** The JSON object that [Marshal] writes for a Builder. *)
Definition members (b : Builder) : list (string * json.value) :=
  string_member "type" false (Type_ b)
  ++ string_member "image" true (FromImage b)
  ++ bytes_member "config" (Config b)
  ++ bytes_member "manifest" (Manifest b)
  ++ string_member "container-name" true (Container b)
  ++ string_member "container-id" true (ContainerID b)
  ++ string_member "mountpoint" true (MountPoint b)
  ++ strings_member "mounts" (Mounts b)
  ++ strings_member "links" (Links b)
  ++ map_member "annotations" (Annotations b)
  ++ string_member "created-by" true (CreatedBy b)
  ++ string_member "os" true (OS b)
  ++ string_member "arch" true (Architecture b)
  ++ string_member "maintainer" true (Maintainer b)
  ++ string_member "user" true (User b)
  ++ string_member "workingdir" true (Workdir b)
  ++ strings_member "env" (Env b)
  ++ strings_member "cmd" (Cmd b)
  ++ strings_member "entrypoint" (Entrypoint b)
  ++ expose_member "expose" (Expose b)
  ++ map_member "labels" (Labels b)
  ++ strings_member "volumes" (Volumes b)
  ++ map_member "arg" (Arg b).

(** *** Records that can be written and read back *)

Definition valid (s : string) : Prop := utf8.ValidString s = true.

Definition valid_map (m : option (gmap string string)) : Prop :=
  match m with
  | Some m' => map_Forall (fun k v => valid k /\ valid v) m'
  | None => True
  end.

(** A value of Expose that can be written and read back: the marker of a
    port as [updateConfig] stores it ([struct{}{}]), or a value decoded from
    JSON that holds no number, whose strings are valid UTF-8, and that
    decodes to itself (its objects are maps: sorted by key, one entry per
    key). *)
Definition storable (v : iface) : Prop :=
  v = empty_struct
  \/ exists j, v = decoded j /\ plain j /\ json.to_interface j = Some j.

Definition valid_expose (m : option (gmap string iface)) : Prop :=
  match m with
  | Some m' => map_Forall (fun k v => valid k /\ storable v) m'
  | None => True
  end.

(** Every string of the record (field, element, key or value) is valid
    UTF-8, and Expose holds storable values.  Config and Manifest are bytes
    and may be any. *)
Definition encodable (b : Builder) : Prop :=
  valid (Type_ b) /\ valid (FromImage b) /\ valid (Container b) /\ valid (ContainerID b)
  /\ valid (MountPoint b) /\ Forall valid (Mounts b) /\ Forall valid (Links b)
  /\ valid_map (Annotations b) /\ valid (CreatedBy b) /\ valid (OS b)
  /\ valid (Architecture b) /\ valid (Maintainer b) /\ valid (User b)
  /\ valid (Workdir b) /\ Forall valid (Env b) /\ Forall valid (Cmd b)
  /\ Forall valid (Entrypoint b) /\ valid_expose (Expose b) /\ valid_map (Labels b)
  /\ Forall valid (Volumes b) /\ valid_map (Arg b).

(** A map as it is read back: an empty map is left out of the text, and the
    field stays nil. *)
Definition nil_if_empty {A} (m : option (gmap string A)) : option (gmap string A) :=
  match m with
  | Some m' =>
      match map_to_list m' with
      | [] => None
      | _ => Some m'
      end
  | None => None
  end.

(** A value of Expose as it is read back: the marker [struct{}{}] comes
    back as an empty object. *)
Definition as_read (v : iface) : iface := decoded (tree_of v).

Definition reread (m : gmap string iface) : gmap string iface := as_read <$> m.

(** The record that is read back from the text written for [b]: the Store
    handle is not part of the text, an empty map comes back as nil, and the
    marker [struct{}{}] comes back as an empty object. *)
Definition reloaded (b : Builder) : Builder :=
  mkBuilder None (Type_ b) (FromImage b) (Config b) (Manifest b) (Container b)
    (ContainerID b) (MountPoint b) (Mounts b) (Links b)
    (nil_if_empty (Annotations b))
    (CreatedBy b) (OS b) (Architecture b) (Maintainer b) (User b) (Workdir b)
    (Env b) (Cmd b) (Entrypoint b)
    (nil_if_empty (reread <$> Expose b))
    (nil_if_empty (Labels b))
    (Volumes b)
    (nil_if_empty (Arg b)).







End roundtrip.

(** ** The configuration update: notions used by the statements *)

Module update.

Import buildah main.

(** The entry split at its first [=], in the words of the specification:
    the text before it and the text after it, if the entry has one. *)
Fixpoint split_first_eq (entry : string) : option (string * string) :=
  match entry with
  | EmptyString => None
  | String c rest =>
      if Ascii.eqb c "=" then Some (EmptyString, rest)
      else match split_first_eq rest with
           | Some (k, v) => Some (String c k, v)
           | None => None
           end
  end.

(** The policy of the specification for one label or annotation entry. *)
Definition set_or_delete (m : gmap string string) (entry : string) : gmap string string :=
  match split_first_eq entry with
  | Some (k, v) => <[k := v]> m
  | None => delete entry m
  end.

(** [c] occurs in [s]. *)
Fixpoint occurs (c : ascii) (s : string) : bool :=
  match s with
  | EmptyString => false
  | String d s' => Ascii.eqb c d || occurs c s'
  end.

Section closed_form.

Variable Parse : string -> result (list string).

(** What a string flag leaves in its field. *)
Definition scalar (c : cli.Context) (flag : string) (old : string) : string :=
  if cli.IsSet c flag then cli.String_ c flag else old.

(** What the flag of an appended sequence leaves in its field. *)
Definition appended (c : cli.Context) (flag : string) (old : list string) : list string :=
  if cli.IsSet c flag then old ++ cli.StringSlice c flag else old.

(** What [--entrypoint] and [--cmd] leave in their fields, and what they log. *)
Definition parsed (c : cli.Context) (flag : string) (old : list string) : list string :=
  if cli.IsSet c flag then
    match Parse (cli.String_ c flag) with
    | Ok spec => spec
    | Err _ => old
    end
  else old.

Definition parse_log (c : cli.Context) (flag fmt : string) : list logrus.entry :=
  if cli.IsSet c flag then
    match Parse (cli.String_ c flag) with
    | Ok _ => []
    | Err err => [logrus.Errorf fmt (cli.String_ c flag) err]
    end
  else [].

(** What [--label] and [--annotation] leave in their fields. *)
Definition relabelled (c : cli.Context) (flag : string) (old : option (gmap string string))
  : option (gmap string string) :=
  if cli.IsSet c flag
  then Some (fold_left set_or_delete (cli.StringSlice c flag) (default ∅ old))
  else old.

Definition exposed (c : cli.Context) (old : option (gmap string iface))
  : option (gmap string iface) :=
  if cli.IsSet c "port"
  then Some (fold_left (fun m portSpec => <[portSpec := empty_struct]> m)
               (cli.StringSlice c "port") (default ∅ old))
  else old.

End closed_form.


(** A tokenizer for the examples: one word, unless the text holds a quote
    character, which is left open. *)
Definition one_word (s : string) : result (list string) :=
  if occurs "'" s then Err (ExternalError "invalid command line string") else Ok [s].

(** A Builder and command lines for the examples. *)
Definition example_builder : Builder :=
  set_Labels (Some {[ "b" := "x"; "c" := "y" ]})
    (set_Env ["PATH=/bin"]
       (set_Entrypoint ["/bin/sh"; "-c"]
          (set_Cmd ["ls"] (set_ContainerID "c1" (set_Type_ containerType zero))))).

Definition example_flags (given : list string) : cli.Context :=
  {| cli.IsSet := fun name => existsb (String.eqb name) given;
     cli.String_ := fun name =>
       if String.eqb name "entrypoint" then "'oops"
       else if String.eqb name "cmd" then "/bin/true"
       else if String.eqb name "os" then "linux"
       else EmptyString;
     cli.StringSlice := fun name =>
       if String.eqb name "label" then ["a=1"; "b"]
       else if String.eqb name "env" then ["FOO=1"]
       else [] |}.

End update.

(** ** The command [buildah config] (cmd/buildah/config.go, lines 19-115 and 198-227) *)

Module command.

Import buildah main.

(** [cli.StringFlag] and [cli.StringSliceFlag], with the fields that the
    tables give; a [Value] that is not given is the empty string. *)
Inductive Flag : Type :=
  | StringFlag (Name Usage Value : string)
  | StringSliceFlag (Name Usage : string).

Definition Name (f : Flag) : string :=
  match f with
  | StringFlag name _ _ => name
  | StringSliceFlag name _ => name
  end.

Definition configurationFlags : list Flag :=
  [ StringFlag "author" "image author contact information" EmptyString;
    StringFlag "created-by" "description of how the image was created" DefaultCreatedBy;
    StringFlag "arch" "image target architecture" EmptyString;
    StringFlag "os" "image target operating system" EmptyString;
    StringFlag "user" "user to run containers based on image as" EmptyString;
    StringSliceFlag "port" "port to expose when running containers based on image";
    StringSliceFlag "env" "environment variable to set when running containers based on image";
    StringFlag "entrypoint" "entry point for containers based on image" EmptyString;
    StringFlag "cmd" "command for containers based on image" EmptyString;
    StringSliceFlag "volume" "volume to create for containers based on image";
    StringFlag "workingdir" "initial working directory for containers based on image" EmptyString;
    StringSliceFlag "label" "image configuration label e.g. label=value";
    StringSliceFlag "annotation" "image annotation e.g. annotation=value" ].

Definition configFlags : list Flag :=
  [ StringFlag "name" "name of the working container" EmptyString;
    StringFlag "root" "root directory of the working container" EmptyString;
    StringFlag "link" "symlink to the root directory of the working container" EmptyString ].

(** An error that [configCmd] returns: an error value passed on or made
    from a message alone ([bare]), or [fmt.Errorf(format, arg, err)]. *)
Inductive failure : Type :=
  | bare (err : error)
  | formatted (format arg : string) (err : error).

(** The value of a string flag as lines 199-210 read it: empty unless the
    flag is set. *)
Definition flag_or_empty (c : cli.Context) (flag : string) : string :=
  if cli.IsSet c flag then cli.String_ c flag else EmptyString.

Section configCmd.

Variable Join : string -> string -> string.
Variable Parse : string -> result (list string).

(** [getStore] and [openBuilder] of the package (cmd/buildah/common.go) are
    not among the source files: any functions of their types.  Either may
    panic; [openBuilder] reads the files and returns a pointer, which may be
    nil, and an error, which may be nil. *)
Variable getStore : cli.Context -> outcome (result storage.Store).
Variable openBuilder :
  FS -> storage.Store -> string -> string -> string -> outcome (option Builder * option error).

(** [configCmd(c)], on the files [fs] and under the fault [f]: the states
    the file system goes through and, when the call returns, what was logged
    and the error.  With a nil Builder and a nil error from [openBuilder],
    [builder.Save()] encodes the nil pointer and panics at [b.store], if
    [updateConfig] has not dereferenced it before. *)
Definition configCmd (f : ioutils.fault) (fs : FS) (c : cli.Context)
  : list FS * outcome (list logrus.entry * option failure) :=
  let name := flag_or_empty c "name" in
  let root := flag_or_empty c "root" in
  let link := flag_or_empty c "link" in
  if String.eqb name EmptyString && String.eqb root EmptyString && String.eqb link EmptyString
  then ([], Returns ([], Some (bare (Errorf
         "either --name or --root or --link, or some combination, must be specified"))))
  else
    match getStore c with
    | Panics => ([], Panics)
    | Returns (Err err) => ([], Returns ([], Some (bare err)))
    | Returns (Ok store) =>
        match openBuilder fs store name root link with
        | Panics => ([], Panics)
        | Returns (_, Some err) =>
            ([], Returns ([], Some (formatted "error reading build container %q: %v" name err)))
        | Returns (None, None) => ([], Panics)
        | Returns (Some builder, None) =>
            let '(builder, log) := updateConfig Parse builder c in
            match Save Join f fs builder with
            | (states, Panics) => (states, Panics)
            | (states, Returns err) => (states, Returns (log, bare <$> err))
            end
        end
    end.

End configCmd.

End command.

(** ** The command line: notions used by the statements *)

Module entry.

(** What a label or annotation entry names, as lines 172-177 and 188-193
    read it: the key is [label[0]], and the value is [label[1]] when the
    split gives more than one part. *)
Definition key (spec : string) : string :=
  hd spec (strings.SplitN spec "=" 2).

Definition value (spec : string) : option string :=
  match strings.SplitN spec "=" 2 with
  | _ :: v :: _ => Some v
  | _ => None
  end.

End entry.

Module context.

Import buildah command.

(** Two contexts give the flag alike: set in both or in neither, and when
    set with the same value, read as the table declares the flag. *)
Definition same_flag (c1 c2 : cli.Context) (f : Flag) : Prop :=
  cli.IsSet c1 (Name f) = cli.IsSet c2 (Name f)
  /\ (cli.IsSet c1 (Name f) = true ->
      match f with
      | StringFlag _ _ _ => cli.String_ c1 (Name f) = cli.String_ c2 (Name f)
      | StringSliceFlag _ _ => cli.StringSlice c1 (Name f) = cli.StringSlice c2 (Name f)
      end).

(** Every value of the command line is valid UTF-8. *)
Definition valid (c : cli.Context) : Prop :=
  forall flag,
    roundtrip.valid (cli.String_ c flag) /\ Forall roundtrip.valid (cli.StringSlice c flag).

(** The words that the tokenizer makes of valid UTF-8 are valid UTF-8. *)
Definition valid_words (Parse : string -> result (list string)) : Prop :=
  forall s spec, roundtrip.valid s -> Parse s = Ok spec -> Forall roundtrip.valid spec.

(** The flag is given with a value that is not empty. *)
Definition names_container (c : cli.Context) (flag : string) : Prop :=
  cli.IsSet c flag = true /\ cli.String_ c flag <> EmptyString.

(** The context of a command line that gives these string flags and these
    slice flags, each flag once. *)
Definition command_line (strs : list (string * string)) (slices : list (string * list string))
  : cli.Context :=
  {| cli.IsSet := fun name =>
       existsb (fun kv => String.eqb name (fst kv)) strs
       || existsb (fun kv => String.eqb name (fst kv)) slices;
     cli.String_ := fun name =>
       match List.find (fun kv => String.eqb name (fst kv)) strs with
       | Some kv => snd kv
       | None => EmptyString
       end;
     cli.StringSlice := fun name =>
       match List.find (fun kv => String.eqb name (fst kv)) slices with
       | Some kv => snd kv
       | None => []
       end |}.

(** *** Examples *)

(** A [getStore] that gives the Store [st], and an [openBuilder] that opens
    the container by its name alone. *)
Definition store_of (st : storage.Store) (c : cli.Context) : outcome (result storage.Store) :=
  Returns (Ok st).

Definition open_by_name (fs : FS) (st : storage.Store) (name root link : string)
  : outcome (option Builder * option error) :=
  match OpenBuilder resolver.join_slash fs st name with
  | Returns (Ok b) => Returns (Some b, None)
  | Returns (Err err) => Returns (None, Some err)
  | Panics => Panics
  end.

(** The files in which the state file of [c1] holds the record
    [update.example_builder]. *)
Definition example_files : FS :=
  resolver.state_file_with (resolver.text_of update.example_builder).

Definition example_store : storage.Store := resolver.two_containers (Ok "{}").

End context.

(** ** Text: notions used by the statements *)

Module text.

(** No byte of the text is an ASCII character. *)
Fixpoint no_ascii (s : string) : bool :=
  match s with
  | EmptyString => true
  | String c s' => negb (byte c <? utf8.RuneSelf)%N && no_ascii s'
  end.


End text.

(** * Properties *)

(** ** Strings *)

Module string_facts.

Lemma append_cons c s t : String c s +:+ t = String c (s +:+ t).
Proof. reflexivity. Qed.

Lemma append_nil t : EmptyString +:+ t = t.
Proof. reflexivity. Qed.

Lemma append_assoc (s t u : string) : (s +:+ t) +:+ u = s +:+ (t +:+ u).
Proof.
  induction s as [|c s IH]; [done|].
  change (String c ((s +:+ t) +:+ u) = String c (s +:+ (t +:+ u))). by rewrite IH.
Qed.

Lemma append_empty_r (s : string) : s +:+ EmptyString = s.
Proof.
  induction s as [|c s IH]; [done|].
  change (String c (s +:+ EmptyString) = String c s). by rewrite IH.
Qed.

Lemma length_app (s t : string) :
  String.length (s +:+ t) = String.length s + String.length t.
Proof.
  induction s as [|c s IH]; [done|].
  change (S (String.length (s +:+ t)) = S (String.length s + String.length t)).
  by rewrite IH.
Qed.

Lemma take_drop (n : nat) (s : string) : take_str n s +:+ drop_str n s = s.
Proof.
  revert s. induction n as [|n IH]; intros [|c s]; try done.
  cbn [take_str drop_str]. change (String c (take_str n s +:+ drop_str n s) = String c s).
  by rewrite IH.
Qed.

Lemma length_take (n : nat) (s : string) :
  n <= String.length s -> String.length (take_str n s) = n.
Proof.
  revert s. induction n as [|n IH]; intros [|c s] H; try done; cbn in *; [lia|].
  rewrite IH; [done | lia].
Qed.

Lemma length_drop (n : nat) (s : string) :
  String.length (drop_str n s) = String.length s - n.
Proof.
  revert s. induction n as [|n IH]; intros [|c s]; try done. cbn. apply IH.
Qed.

Lemma take_app (s t : string) : take_str (String.length s) (s +:+ t) = s.
Proof.
  induction s as [|c s IH]; [by destruct t|].
  change (String c (take_str (String.length s) (s +:+ t)) = String c s). by rewrite IH.
Qed.

Lemma drop_app (s t : string) : drop_str (String.length s) (s +:+ t) = t.
Proof. induction s as [|c s IH]; [by destruct t|]. exact IH. Qed.

Lemma take_app_length (n : nat) (s t : string) :
  String.length s = n -> take_str n (s +:+ t) = s.
Proof. intros <-. apply take_app. Qed.

Lemma drop_app_length (n : nat) (s t : string) :
  String.length s = n -> drop_str n (s +:+ t) = t.
Proof. intros <-. apply drop_app. Qed.

Lemma chr_byte (c : ascii) : chr (byte c) = c.
Proof. apply ascii_N_embedding. Qed.

Lemma byte_lt_256 (c : ascii) : (byte c < 256)%N.
Proof. apply N_ascii_bounded. Qed.

End string_facts.

(** ** The configuration update in closed form *)

Module main_facts.

Import buildah main string_facts update.

Lemma split_first_eq_Some k v :
  occurs "=" k = false -> split_first_eq (k +:+ "=" +:+ v) = Some (k, v).
Proof.
  induction k as [|c k IH]; [done|].
  rewrite append_cons. cbn [occurs split_first_eq].
  intros H. apply orb_false_iff in H as [Hc Hk].
  rewrite Ascii.eqb_sym, Hc. by rewrite (IH Hk).
Qed.

Lemma split_first_eq_None s :
  occurs "=" s = false -> split_first_eq s = None.
Proof.
  induction s as [|c s IH]; cbn [occurs split_first_eq]; [done|].
  intros H. apply orb_false_iff in H as [Hc Hs].
  rewrite Ascii.eqb_sym, Hc. by rewrite (IH Hs).
Qed.

Lemma Cut_eq s :
  strings.Cut s "=" = split_first_eq s.
Proof.
  induction s as [|c s IH]; [done|].
  cbn [strings.Cut split_first_eq strings.HasPrefix String.length drop_str].
  rewrite (Ascii.eqb_sym c "="), IH.
  by destruct (Ascii.eqb "=" c), s.
Qed.

Lemma SplitN_eq s :
  strings.SplitN s "=" 2 =
  match split_first_eq s with
  | Some (k, v) => [k; v]
  | None => [s]
  end.
Proof.
  cbn [strings.SplitN]. rewrite Cut_eq. by destruct (split_first_eq s) as [[k v]|].
Qed.

Lemma apply_spec_Some spec m :
  apply_spec spec (Some m) = Some (set_or_delete m spec).
Proof.
  unfold apply_spec, set_or_delete. rewrite SplitN_eq.
  by destruct (split_first_eq spec) as [[k v]|].
Qed.

(** Each step of [updateConfig] is an assignment to one field. *)
Ltac by_cases := intros; repeat match goal with
  | b : Builder |- _ => destruct b
  | c : bool |- _ => destruct c
  end; reflexivity.

Lemma if_set_Maintainer (c : bool) v b :
  (if c then set_Maintainer v b else b) = set_Maintainer (if c then v else Maintainer b) b.
Proof. by_cases. Qed.
Lemma if_set_CreatedBy (c : bool) v b :
  (if c then set_CreatedBy v b else b) = set_CreatedBy (if c then v else CreatedBy b) b.
Proof. by_cases. Qed.
Lemma if_set_Architecture (c : bool) v b :
  (if c then set_Architecture v b else b) = set_Architecture (if c then v else Architecture b) b.
Proof. by_cases. Qed.
Lemma if_set_OS (c : bool) v b :
  (if c then set_OS v b else b) = set_OS (if c then v else OS b) b.
Proof. by_cases. Qed.
Lemma if_set_User (c : bool) v b :
  (if c then set_User v b else b) = set_User (if c then v else User b) b.
Proof. by_cases. Qed.
Lemma if_set_Workdir (c : bool) v b :
  (if c then set_Workdir v b else b) = set_Workdir (if c then v else Workdir b) b.
Proof. by_cases. Qed.
Lemma if_set_Env (c : bool) v b :
  (if c then set_Env v b else b) = set_Env (if c then v else Env b) b.
Proof. by_cases. Qed.
Lemma if_set_Volumes (c : bool) v b :
  (if c then set_Volumes v b else b) = set_Volumes (if c then v else Volumes b) b.
Proof. by_cases. Qed.
Lemma if_set_Expose (c : bool) v b :
  (if c then set_Expose v b else b) = set_Expose (if c then v else Expose b) b.
Proof. by_cases. Qed.
Lemma if_set_Labels (c : bool) v b :
  (if c then set_Labels v b else b) = set_Labels (if c then v else Labels b) b.
Proof. by_cases. Qed.
Lemma if_set_Annotations (c : bool) v b :
  (if c then set_Annotations v b else b) = set_Annotations (if c then v else Annotations b) b.
Proof. by_cases. Qed.

Lemma fold_env l b :
  fold_left (fun b envSpec => set_Env (Env b ++ [envSpec]) b) l b = set_Env (Env b ++ l) b.
Proof.
  revert b. induction l as [|x l IH]; intros b.
  - destruct b; simpl. by rewrite app_nil_r.
  - simpl. rewrite IH. destruct b; simpl. by rewrite <- app_assoc.
Qed.

Lemma fold_volumes l b :
  fold_left (fun b volSpec => set_Volumes (Volumes b ++ [volSpec]) b) l b
  = set_Volumes (Volumes b ++ l) b.
Proof.
  revert b. induction l as [|x l IH]; intros b.
  - destruct b; simpl. by rewrite app_nil_r.
  - simpl. rewrite IH. destruct b; simpl. by rewrite <- app_assoc.
Qed.

Lemma fold_port l b :
  fold_left (fun b portSpec => set_Expose (assign portSpec empty_struct (Expose b)) b) l
    (set_Expose (make_if_nil (Expose b)) b)
  = set_Expose (Some (fold_left (fun m portSpec => <[portSpec := empty_struct]> m) l
                        (default ∅ (Expose b)))) b.
Proof.
  assert (G : forall l m b,
    fold_left (fun b portSpec => set_Expose (assign portSpec empty_struct (Expose b)) b) l
      (set_Expose (Some m) b)
    = set_Expose (Some (fold_left (fun m portSpec => <[portSpec := empty_struct]> m) l m)) b).
  { clear. induction l as [|x l IH]; intros m b; [done|].
    simpl. rewrite <- IH. by destruct b. }
  rewrite <- G. by destruct b as [? ? ? ? ? ? ? ? ? ? ? ? ? ? ? ? ? ? ? ? [e|] ? ? ?].
Qed.

Lemma fold_label l b :
  fold_left (fun b labelSpec => set_Labels (apply_spec labelSpec (Labels b)) b) l
    (set_Labels (make_if_nil (Labels b)) b)
  = set_Labels (Some (fold_left set_or_delete l (default ∅ (Labels b)))) b.
Proof.
  assert (G : forall l m b,
    fold_left (fun b labelSpec => set_Labels (apply_spec labelSpec (Labels b)) b) l
      (set_Labels (Some m) b)
    = set_Labels (Some (fold_left set_or_delete l m)) b).
  { clear. induction l as [|x l IH]; intros m b; [done|].
    simpl. rewrite <- IH. destruct b; simpl. by rewrite apply_spec_Some. }
  rewrite <- G. by destruct b as [? ? ? ? ? ? ? ? ? ? ? ? ? ? ? ? ? ? ? ? ? [e|] ? ?].
Qed.

Lemma fold_annotation l b :
  fold_left (fun b annotationSpec => set_Annotations (apply_spec annotationSpec (Annotations b)) b) l
    (set_Annotations (make_if_nil (Annotations b)) b)
  = set_Annotations (Some (fold_left set_or_delete l (default ∅ (Annotations b)))) b.
Proof.
  assert (G : forall l m b,
    fold_left (fun b annotationSpec => set_Annotations (apply_spec annotationSpec (Annotations b)) b) l
      (set_Annotations (Some m) b)
    = set_Annotations (Some (fold_left set_or_delete l m)) b).
  { clear. induction l as [|x l IH]; intros m b; [done|].
    simpl. rewrite <- IH. destruct b; simpl. by rewrite apply_spec_Some. }
  rewrite <- G. by destruct b as [? ? ? ? ? ? ? ? ? ? [e|] ? ? ? ? ? ? ? ? ? ? ? ? ?].
Qed.

End main_facts.

Module main_closed.

Import buildah main update main_facts.

Section closed_form.

Variable Parse : string -> result (list string).

Lemma updateConfig_closed b c :
  updateConfig Parse b c =
  (mkBuilder (store b) (Type_ b) (FromImage b) (Config b) (Manifest b) (Container b)
     (ContainerID b) (MountPoint b) (Mounts b) (Links b)
     (relabelled c "annotation" (Annotations b))
     (scalar c "created-by" (CreatedBy b))
     (scalar c "os" (OS b))
     (scalar c "arch" (Architecture b))
     (scalar c "author" (Maintainer b))
     (scalar c "user" (User b))
     (scalar c "workingdir" (Workdir b))
     (appended c "env" (Env b))
     (parsed Parse c "cmd" (Cmd b))
     (parsed Parse c "entrypoint" (Entrypoint b))
     (exposed c (Expose b))
     (relabelled c "label" (Labels b))
     (appended c "volume" (Volumes b))
     (Arg b),
   parse_log Parse c "entrypoint" "error parsing --entrypoint %q: %v"
   ++ parse_log Parse c "cmd" "error parsing --cmd %q: %v").
Proof.
  unfold updateConfig, scalar, appended, parsed, parse_log, relabelled, exposed.
  cbv zeta.
  rewrite if_set_Maintainer, if_set_CreatedBy, if_set_Architecture, if_set_OS, if_set_User.
  rewrite fold_port, if_set_Expose.
  rewrite fold_env, if_set_Env.
  destruct b; cbn -[String.eqb fold_left].
  destruct (cli.IsSet c "entrypoint"), (Parse (cli.String_ c "entrypoint"));
  destruct (cli.IsSet c "cmd"), (Parse (cli.String_ c "cmd"));
  cbn -[fold_left];
  rewrite ?fold_volumes, ?if_set_Volumes, ?fold_label, ?if_set_Labels, ?if_set_Workdir,
    ?fold_annotation, ?if_set_Annotations; reflexivity.
Qed.

End closed_form.

End main_closed.

(** ** The configuration update: what each flag does *)

Module update_facts.

Import buildah main update main_facts main_closed.

(** C6: with [--label] given, Labels becomes the old map (empty if it was
    nil) with the entries applied in order, where an entry [k=v] ([k] without
    [=]) sets [k] to [v], and an entry without [=] deletes that key, which
    changes nothing when the key is absent; [a=1] and [b] applied to
    [{b: x, c: y}] give [{a: 1, c: y}]; [--annotation] does the same
    to Annotations. *)
Theorem C6_label_and_annotation_entries
    (Parse : string -> result (list string)) (b : Builder) (c : cli.Context) :
  (cli.IsSet c "label" = true ->
     Labels (fst (updateConfig Parse b c))
     = Some (fold_left set_or_delete (cli.StringSlice c "label") (default ∅ (Labels b))))
  /\ (cli.IsSet c "annotation" = true ->
      Annotations (fst (updateConfig Parse b c))
      = Some (fold_left set_or_delete (cli.StringSlice c "annotation")
                (default ∅ (Annotations b))))
  /\ (forall m k v, occurs "=" k = false ->
        set_or_delete m (k +:+ "=" +:+ v) = <[k := v]> m)
  /\ (forall m k, occurs "=" k = false -> set_or_delete m k = delete k m)
  /\ (forall m k, occurs "=" k = false -> m !! k = None -> set_or_delete m k = m)
  /\ (cli.IsSet c "label" = true ->
      cli.StringSlice c "label" = ["a=1"; "b"] ->
      Labels b = Some {[ "b" := "x"; "c" := "y" ]} ->
      Labels (fst (updateConfig Parse b c)) = Some {[ "a" := "1"; "c" := "y" ]}).
Proof.
  rewrite updateConfig_closed. cbn [fst Labels Annotations]. unfold relabelled.
  assert (Hset : forall m k v, occurs "=" k = false ->
            set_or_delete m (k +:+ "=" +:+ v) = <[k := v]> m).
  { intros m k v Hk. unfold set_or_delete. by rewrite split_first_eq_Some. }
  assert (Hdel : forall m k, occurs "=" k = false -> set_or_delete m k = delete k m).
  { intros m k Hk. unfold set_or_delete. by rewrite split_first_eq_None. }
  repeat split.
  - by intros ->.
  - by intros ->.
  - exact Hset.
  - exact Hdel.
  - intros m k Hk Hm. rewrite Hdel by done. by apply delete_id.
  - intros -> -> ->. reflexivity.
Qed.

Lemma C6_witness :
  Labels (fst (updateConfig one_word example_builder (example_flags ["label"])))
  = Some {[ "a" := "1"; "c" := "y" ]}.
Proof.
  destruct (C6_label_and_annotation_entries one_word example_builder (example_flags ["label"]))
    as (_ & _ & _ & _ & _ & H).
  apply H; reflexivity.
Defined.

(** C7: with [--env] given, the values are appended to Env in their order,
    and with [--volume] given to Volumes; what was there stays, and equal
    values are kept: the same value given twice in one update, or once in
    each of two updates, is there twice. *)
Theorem C7_env_and_volume_append
    (Parse : string -> result (list string)) (b : Builder) (c : cli.Context) :
  (cli.IsSet c "env" = true ->
     Env (fst (updateConfig Parse b c)) = Env b ++ cli.StringSlice c "env")
  /\ (cli.IsSet c "volume" = true ->
      Volumes (fst (updateConfig Parse b c)) = Volumes b ++ cli.StringSlice c "volume")
  /\ (forall v, cli.IsSet c "env" = true -> cli.StringSlice c "env" = [v; v] ->
      Env (fst (updateConfig Parse b c)) = Env b ++ [v; v])
  /\ (forall v, cli.IsSet c "env" = true -> cli.StringSlice c "env" = [v] ->
      Env (fst (updateConfig Parse (fst (updateConfig Parse b c)) c)) = Env b ++ [v; v]).
Proof.
  rewrite !updateConfig_closed. cbn [fst Env Volumes]. unfold appended.
  repeat split.
  - by intros ->.
  - by intros ->.
  - by intros v -> ->.
  - intros v -> ->. by rewrite <- app_assoc.
Qed.

Lemma C7_witness :
  Env (fst (updateConfig one_word
              (fst (updateConfig one_word example_builder (example_flags ["env"])))
              (example_flags ["env"])))
  = ["PATH=/bin"; "FOO=1"; "FOO=1"].
Proof.
  destruct (C7_env_and_volume_append one_word example_builder (example_flags ["env"]))
    as (_ & _ & _ & H).
  apply (H "FOO=1"); reflexivity.
Defined.



(** C9: a field whose flag is not given keeps its value; a string flag that
    is given sets its field to the value given, the empty one included; and
    Type, FromImage, Config, Manifest, Container, ContainerID, MountPoint,
    Mounts, Links and Arg (and the Store handle) are never changed. *)
Theorem C9_unset_fields_and_identity_are_kept
    (Parse : string -> result (list string)) (b : Builder) (c : cli.Context) :
  let b' := fst (updateConfig Parse b c) in
  (cli.IsSet c "author" = false -> Maintainer b' = Maintainer b)
  /\ (cli.IsSet c "created-by" = false -> CreatedBy b' = CreatedBy b)
  /\ (cli.IsSet c "arch" = false -> Architecture b' = Architecture b)
  /\ (cli.IsSet c "os" = false -> OS b' = OS b)
  /\ (cli.IsSet c "user" = false -> User b' = User b)
  /\ (cli.IsSet c "port" = false -> Expose b' = Expose b)
  /\ (cli.IsSet c "env" = false -> Env b' = Env b)
  /\ (cli.IsSet c "entrypoint" = false -> Entrypoint b' = Entrypoint b)
  /\ (cli.IsSet c "cmd" = false -> Cmd b' = Cmd b)
  /\ (cli.IsSet c "volume" = false -> Volumes b' = Volumes b)
  /\ (cli.IsSet c "label" = false -> Labels b' = Labels b)
  /\ (cli.IsSet c "workingdir" = false -> Workdir b' = Workdir b)
  /\ (cli.IsSet c "annotation" = false -> Annotations b' = Annotations b)
  /\ (cli.IsSet c "author" = true -> Maintainer b' = cli.String_ c "author")
  /\ (cli.IsSet c "created-by" = true -> CreatedBy b' = cli.String_ c "created-by")
  /\ (cli.IsSet c "arch" = true -> Architecture b' = cli.String_ c "arch")
  /\ (cli.IsSet c "os" = true -> OS b' = cli.String_ c "os")
  /\ (cli.IsSet c "user" = true -> User b' = cli.String_ c "user")
  /\ (cli.IsSet c "workingdir" = true -> Workdir b' = cli.String_ c "workingdir")
  /\ Type_ b' = Type_ b /\ FromImage b' = FromImage b /\ Config b' = Config b
  /\ Manifest b' = Manifest b /\ Container b' = Container b
  /\ ContainerID b' = ContainerID b /\ MountPoint b' = MountPoint b
  /\ Mounts b' = Mounts b /\ Links b' = Links b /\ Arg b' = Arg b
  /\ store b' = store b.
Proof.
  rewrite updateConfig_closed. cbn.
  unfold parsed, relabelled, scalar, appended, exposed.
  repeat split; try (intros Hset; rewrite Hset); reflexivity.
Qed.

Lemma C9_witness :
  OS (fst (updateConfig one_word example_builder (example_flags ["os"]))) = "linux"
  /\ Workdir (fst (updateConfig one_word example_builder (example_flags ["os"]))) = EmptyString
  /\ Labels (fst (updateConfig one_word example_builder (example_flags ["os"])))
     = Labels example_builder.
Proof.
  pose proof (C9_unset_fields_and_identity_are_kept one_word example_builder
                (example_flags ["os"])) as H.
  cbv zeta in H.
  destruct H as (_ & _ & _ & _ & _ & _ & _ & _ & _ & _ & Hl & Hw & _ & _ & _ & _ & Ho & _).
  split; [exact (Ho eq_refl)|]. split; [exact (Hw eq_refl)|]. exact (Hl eq_refl).
Defined.

(** C10: when [--entrypoint] is given and its tokenization succeeds, the
    words become the whole of Entrypoint, whatever was there; likewise for
    [--cmd] and Cmd; whereas [--env] and [--volume] keep what was there and
    append. *)
Theorem C10_entrypoint_and_cmd_replace
    (Parse : string -> result (list string)) (b : Builder) (c : cli.Context)
    (spec : list string) :
  (cli.IsSet c "entrypoint" = true ->
   Parse (cli.String_ c "entrypoint") = Ok spec ->
     Entrypoint (fst (updateConfig Parse b c)) = spec)
  /\ (cli.IsSet c "cmd" = true ->
      Parse (cli.String_ c "cmd") = Ok spec ->
        Cmd (fst (updateConfig Parse b c)) = spec)
  /\ (cli.IsSet c "env" = true ->
      Env (fst (updateConfig Parse b c)) = Env b ++ cli.StringSlice c "env")
  /\ (cli.IsSet c "volume" = true ->
      Volumes (fst (updateConfig Parse b c)) = Volumes b ++ cli.StringSlice c "volume").
Proof.
  rewrite updateConfig_closed. cbn [fst Entrypoint Cmd Env Volumes].
  unfold parsed, appended.
  repeat split.
  - by intros -> ->.
  - by intros -> ->.
  - by intros ->.
  - by intros ->.
Qed.

Lemma C10_witness :
  Cmd (fst (updateConfig one_word example_builder (example_flags ["cmd"]))) = ["/bin/true"].
Proof.
  destruct (C10_entrypoint_and_cmd_replace one_word example_builder (example_flags ["cmd"])
              ["/bin/true"]) as (_ & H & _).
  apply H; reflexivity.
Defined.

End update_facts.

(** ** Opening a Builder: OpenBuilder and OpenBuilderByPath *)

Module resolver_facts.

Import buildah resolver.

Lemma builderMatchesPath_matches b P :
  builderMatchesPath b P = true <-> matches b P.
Proof.
  unfold builderMatchesPath, matches.
  assert (Hex : forall l, existsb (fun m => String.eqb m P) l = true <-> In P l).
  { intros l. rewrite existsb_exists. split.
    - intros (x & Hx & ->%String.eqb_eq). done.
    - intros H. exists P. split; [done | apply String.eqb_refl]. }
  destruct (String.eqb (MountPoint b) P) eqn:E1.
  { apply String.eqb_eq in E1. tauto. }
  apply String.eqb_neq in E1.
  destruct (existsb _ (Mounts b)) eqn:E2.
  { apply Hex in E2. tauto. }
  destruct (existsb _ (Links b)) eqn:E3.
  { apply Hex in E3. tauto. }
  split; [done|]. intros [H | [H | H]]; [done | |].
  - apply Hex in H. congruence.
  - apply Hex in H. congruence.
Qed.

(** A container that is read and has no matching record is passed over. *)
Lemma scan_skip st P c rest :
  readable st c -> no_match st P c ->
  scan_containers st P (c :: rest) = scan_containers st P rest.
Proof.
  intros (md & Hmd & Hnil) Hno. cbn [scan_containers]. rewrite Hmd.
  unfold no_match, record_of in Hno. rewrite Hmd in Hno.
  destruct (Unmarshal md zero) as [[b|]|e]; [|done|done].
  destruct (String.eqb (Type_ b) containerType); [|done].
  destruct (builderMatchesPath b P) eqn:E; [|done].
  apply builderMatchesPath_matches in E. by destruct (Hno b).
Qed.

(** A container with a matching record ends the scan. *)
Lemma scan_hit st P c rest b :
  record_of st c = Some b -> matches b P ->
  scan_containers st P (c :: rest) = Returns (Ok (set_store (Some st) b)).
Proof.
  unfold record_of. intros Hrec Hm. cbn [scan_containers].
  destruct (storage.GetMetadata st (storage.ID c)) as [md|]; [|done].
  destruct (Unmarshal md zero) as [[b'|]|e]; [|done|done].
  destruct (String.eqb (Type_ b') containerType); [|done].
  injection Hrec as ->. apply builderMatchesPath_matches in Hm. by rewrite Hm.
Qed.

Lemma scan_first_match st P pre c post b :
  Forall (readable st) pre -> Forall (no_match st P) pre ->
  record_of st c = Some b -> matches b P ->
  scan_containers st P (pre ++ c :: post) = Returns (Ok (set_store (Some st) b)).
Proof.
  induction pre as [|c' pre IH]; intros Hr Hn Hrec Hm.
  - by apply scan_hit.
  - apply Forall_cons in Hr as [Hr1 Hr]. apply Forall_cons in Hn as [Hn1 Hn].
    rewrite <- app_comm_cons, scan_skip by done. by apply IH.
Qed.


(** What OpenBuilder does with the bytes of the state file. *)
Lemma OpenBuilder_on_bytes Join fs st container cdir data :
  storage.GetContainerDirectory st container = Ok cdir ->
  fs !! Join cdir stateFile = Some data ->
  OpenBuilder Join fs st container =
  match Unmarshal data zero with
  | Err err => Returns (Err err)
  | Ok None => Panics
  | Ok (Some b) =>
      if String.eqb (Type_ b) containerType
      then Returns (Ok (set_store (Some st) b))
      else Returns (Err not_a_buildah_container)
  end.
Proof.
  intros Hdir Hfile. unfold OpenBuilder, ReadFile. rewrite Hdir, Hfile.
  destruct (Unmarshal data zero) as [[b|]|e]; [|done|done].
  by destruct (String.eqb (Type_ b) containerType).
Qed.

(** Whatever the files and the Store, a Builder that OpenBuilder returns
    has the fixed type tag. *)
Lemma OpenBuilder_returns_typed Join fs st container b :
  OpenBuilder Join fs st container = Returns (Ok b) -> Type_ b = containerType.
Proof.
  unfold OpenBuilder.
  destruct (storage.GetContainerDirectory st container) as [cdir|]; [|done].
  destruct (ReadFile fs (Join cdir stateFile)) as [data|]; [|done].
  destruct (Unmarshal data zero) as [[b'|]|e]; [|done|done].
  destruct (String.eqb (Type_ b') containerType) eqn:E; [|done].
  intros [= <-]. by apply String.eqb_eq in E.
Qed.

(** A record with another type tag, or none, is refused with the error of
    line 166. *)
Lemma OpenBuilder_refuses_other_types Join fs st container cdir data b :
  storage.GetContainerDirectory st container = Ok cdir ->
  fs !! Join cdir stateFile = Some data ->
  Unmarshal data zero = Ok (Some b) ->
  Type_ b <> containerType ->
  OpenBuilder Join fs st container = Returns (Err not_a_buildah_container).
Proof.
  intros Hdir Hfile Hdec Hty.
  rewrite (OpenBuilder_on_bytes _ _ _ _ _ _ Hdir Hfile), Hdec.
  apply String.eqb_neq in Hty. by rewrite Hty.
Qed.

(** C2 (the code fails the specification here): the state file [null] is valid
    JSON without a type tag; [json.Unmarshal] sets the pointer to nil, and
    [b.Type] panics: OpenBuilder returns neither the type error nor a
    Builder. *)
Theorem C2_null_state_file_panics :
  Unmarshal "null" zero = Ok None
  /\ OpenBuilder join_slash (state_file_with "null") (two_containers (Ok "null")) "c1"
     = Panics.
Proof. split; reflexivity. Qed.

(** C5 (the code fails the specification here): a container whose metadata is
    the JSON literal [null] is not passed over: the scan panics at [b.Type],
    although the next container has the record that the path names. *)
Theorem C5_null_metadata_stops_the_scan :
  record_of (two_containers (Ok "null")) {| storage.ID := "c1" |} = None
  /\ record_of (two_containers (Ok "null")) {| storage.ID := "c2" |} = Some mounted_builder
  /\ OpenBuilderByPath abs_id (two_containers (Ok "null")) "/mnt/c2" = Panics.
Proof. repeat split; vm_compute; reflexivity. Qed.




End resolver_facts.

(** ** Saving a Builder *)

Module saving_facts.

Import buildah saving.

Lemma temp_name_fresh (filename : string) : ioutils.temp_name filename <> filename.
Proof.
  unfold ioutils.temp_name. intros H.
  apply (f_equal String.length) in H. rewrite string_facts.length_app in H. cbn in H. lia.
Qed.

(** The states that [AtomicWriteFile] goes through, seen at a path that is
    not the temporary file. *)
Lemma AtomicWriteFile_states f fs filename data states err p s :
  ioutils.AtomicWriteFile f fs filename data = (states, err) ->
  p <> ioutils.temp_name filename ->
  In s states ->
  s !! p = fs !! p \/ (p = filename /\ err = None /\ s !! p = Some data).
Proof.
  intros Hw Hp Hs. unfold ioutils.AtomicWriteFile in Hw.
  destruct f; injection Hw as <- <-; cbn [In] in Hs;
    repeat match goal with
    | H : _ \/ _ |- _ => destruct H as [H | H]
    | H : False |- _ => destruct H
    end; subst s;
    rewrite ?lookup_insert_ne, ?lookup_delete_ne by done; auto.
  destruct (decide (p = filename)) as [-> | Hne].
  - right. by rewrite lookup_insert_eq.
  - left. by rewrite lookup_insert_ne, lookup_delete_ne by done.
Qed.

Lemma AtomicWriteFile_final f fs filename data states err p :
  ioutils.AtomicWriteFile f fs filename data = (states, err) ->
  p <> ioutils.temp_name filename ->
  match err with
  | Some _ => final fs states !! p = fs !! p
  | None => final fs states !! filename = Some data
  end.
Proof.
  intros Hw Hp. unfold ioutils.AtomicWriteFile in Hw.
  destruct f; injection Hw as <- <-; cbn [final List.last];
    rewrite ?lookup_delete_ne by done; try done.
  by rewrite lookup_insert_eq.
Qed.

(** C4: whatever goes wrong while the file is written, and whether or not
    the Builder can be encoded and its directory found: in every state that
    the file system goes through, a file other than the temporary one either
    holds what it held before the call or is the metadata file holding the
    complete new encoding; when Save does not return nil (an error or a
    panic), the file holds what it held before; when Save returns nil, the
    metadata file holds the complete new encoding.  The metadata file itself
    is such a file. *)
Theorem C4_save_is_all_or_nothing (Join : string -> string -> string)
    (f : ioutils.fault) (fs : FS) (b : Builder) (p : string) :
  (forall t, metadata_file Join b = Some t -> p <> ioutils.temp_name t) ->
  (forall s, In s (fst (Save Join f fs b)) ->
     s !! p = fs !! p
     \/ (metadata_file Join b = Some p /\ exists data,
           Marshal b = Ok data /\ s !! p = Some data))
  /\ (snd (Save Join f fs b) <> Returns None ->
      ReadFile (final fs (fst (Save Join f fs b))) p = ReadFile fs p)
  /\ (snd (Save Join f fs b) = Returns None ->
      exists t data, metadata_file Join b = Some t /\ Marshal b = Ok data
        /\ ReadFile (final fs (fst (Save Join f fs b))) t = Ok data)
  /\ (forall t, metadata_file Join b = Some t -> t <> ioutils.temp_name t).
Proof.
  intros Hp. unfold Save, metadata_file, ReadFile in *.
  destruct (Marshal b) as [data|e].
  2:{ cbn. repeat split; try done. intros t _. apply not_eq_sym, temp_name_fresh. }
  destruct (store b) as [st|].
  2:{ cbn. repeat split; try done. }
  destruct (storage.GetContainerDirectory st (ContainerID b)) as [cdir|e].
  2:{ cbn. repeat split; try done. }
  specialize (Hp _ eq_refl).
  destruct (ioutils.AtomicWriteFile f fs (Join cdir stateFile) data) as [states err] eqn:Hw.
  cbn [fst snd]. repeat split.
  - intros s Hs.
    destruct (AtomicWriteFile_states _ _ _ _ _ _ _ _ Hw Hp Hs) as [H | (-> & _ & H)]; [by left|].
    right. split; [done|]. by exists data.
  - intros Herr. pose proof (AtomicWriteFile_final _ _ _ _ _ _ _ Hw Hp) as H.
    destruct err; [by rewrite H | done].
  - intros [= ->]. exists (Join cdir stateFile), data. split; [done|]. split; [done|].
    pose proof (AtomicWriteFile_final _ _ _ _ _ _ _ Hw Hp) as H. cbn in H. by rewrite H.
  - intros t [= <-]. apply not_eq_sym, temp_name_fresh.
Qed.

Lemma C4_witness :
  ReadFile (final (resolver.state_file_with "old")
              (fst (Save resolver.join_slash (ioutils.write_fails 3)
                      (resolver.state_file_with "old") stored_builder)))
    (resolver.join_slash "/var/lib/containers/c1" stateFile)
  = Ok "old".
Proof.
  destruct (C4_save_is_all_or_nothing resolver.join_slash (ioutils.write_fails 3)
              (resolver.state_file_with "old") stored_builder
              (resolver.join_slash "/var/lib/containers/c1" stateFile)) as (_ & H & _).
  - intros t Ht. vm_compute in Ht. injection Ht as <-. vm_compute. discriminate.
  - rewrite H; [reflexivity|]. vm_compute. discriminate.
Defined.

End saving_facts.

(** ** UTF-8: a well-formed sequence is one that [EncodeRune] writes *)

Module utf8_facts.

Import string_facts.

Ltac divmod := zify; Z.to_euclidean_division_equations; lia.

Ltac to_props :=
  repeat match goal with
  | H : (_ && _) = true |- _ => apply andb_true_iff in H as [? ?]
  | H : (_ <? _)%N = true |- _ => apply N.ltb_lt in H
  | H : (_ <? _)%N = false |- _ => apply N.ltb_ge in H
  | H : (_ <=? _)%N = true |- _ => apply N.leb_le in H
  | H : (_ <=? _)%N = false |- _ => apply N.leb_gt in H
  | H : (_ =? _)%N = true |- _ => apply N.eqb_eq in H
  | H : (_ =? _)%N = false |- _ => apply N.eqb_neq in H
  end.

Ltac decide_tests :=
  repeat match goal with
  | |- context [(?a <? ?b)%N] =>
      let E := fresh "E" in destruct (a <? b)%N eqn:E; to_props; try (exfalso; divmod)
  | |- context [(?a <=? ?b)%N] =>
      let E := fresh "E" in destruct (a <=? b)%N eqn:E; to_props; try (exfalso; divmod)
  end.

Ltac same_bytes :=
  repeat match goal with
  | |- String _ _ = String _ _ => f_equal
  | |- chr _ = chr _ => f_equal; divmod
  end.

Lemma EncodeRune_2 (b0 b1 : N) :
  (0xC2 <= b0 < 0xE0)%N -> (0x80 <= b1 <= 0xBF)%N ->
  utf8.EncodeRune ((b0 - 0xC0) * 64 + (b1 - 0x80))
  = String (chr b0) (String (chr b1) EmptyString).
Proof.
  intros H0 H1. unfold utf8.EncodeRune. decide_tests; cbn [andb orb]; same_bytes.
Qed.

Lemma EncodeRune_3 (b0 b1 b2 : N) :
  (0xE0 <= b0 < 0xF0)%N ->
  ((if b0 =? 0xE0 then 0xA0 else 0x80) <= b1 <= (if b0 =? 0xED then 0x9F else 0xBF))%N ->
  (0x80 <= b2 <= 0xBF)%N ->
  utf8.EncodeRune ((b0 - 0xE0) * 4096 + (b1 - 0x80) * 64 + (b2 - 0x80))
  = String (chr b0) (String (chr b1) (String (chr b2) EmptyString)).
Proof.
  intros H0 H1 H2.
  assert (0x80 <= b1 <= 0xBF)%N.
  { destruct (b0 =? 0xE0)%N, (b0 =? 0xED)%N; lia. }
  assert (b0 = 0xE0 -> 0xA0 <= b1)%N.
  { intros ->. cbn in H1. lia. }
  assert (b0 = 0xED -> b1 <= 0x9F)%N.
  { intros ->. cbn in H1. lia. }
  clear H1.
  unfold utf8.EncodeRune, utf8.RuneError. decide_tests; cbn [andb orb]; same_bytes.
Qed.

Lemma EncodeRune_4 (b0 b1 b2 b3 : N) :
  (0xF0 <= b0 < 0xF5)%N ->
  ((if b0 =? 0xF0 then 0x90 else 0x80) <= b1 <= (if b0 =? 0xF4 then 0x8F else 0xBF))%N ->
  (0x80 <= b2 <= 0xBF)%N -> (0x80 <= b3 <= 0xBF)%N ->
  utf8.EncodeRune ((b0 - 0xF0) * 262144 + (b1 - 0x80) * 4096 + (b2 - 0x80) * 64 + (b3 - 0x80))
  = String (chr b0) (String (chr b1) (String (chr b2) (String (chr b3) EmptyString))).
Proof.
  intros H0 H1 H2 H3.
  assert (0x80 <= b1 <= 0xBF)%N.
  { destruct (b0 =? 0xF0)%N, (b0 =? 0xF4)%N; lia. }
  assert (b0 = 0xF0 -> 0x90 <= b1)%N.
  { intros ->. cbn in H1. lia. }
  assert (b0 = 0xF4 -> b1 <= 0x8F)%N.
  { intros ->. cbn in H1. lia. }
  clear H1.
  unfold utf8.EncodeRune, utf8.RuneError. decide_tests; cbn [andb orb]; same_bytes.
Qed.

Lemma in_range_bounds c lo hi :
  in_range c lo hi = true -> (lo <= byte c <= hi)%N.
Proof. unfold in_range. intros H. to_props. lia. Qed.

(** A sequence that [DecodeRune] accepts: its width is from 1 to 4 and
    within the text, the text that follows it plays no part, and
    [EncodeRune] gives its bytes back. *)
Lemma DecodeRune_wellformed (c0 : ascii) (s1 : string) :
  (byte c0 <? utf8.RuneSelf)%N = false ->
  utf8.invalid (utf8.DecodeRune (String c0 s1)) = false ->
  2 <= snd (utf8.DecodeRune (String c0 s1)) <= String.length (String c0 s1)
  /\ (forall t, utf8.DecodeRune (take_str (snd (utf8.DecodeRune (String c0 s1))) (String c0 s1) +:+ t)
                = utf8.DecodeRune (String c0 s1))
  /\ utf8.EncodeRune (fst (utf8.DecodeRune (String c0 s1)))
     = take_str (snd (utf8.DecodeRune (String c0 s1))) (String c0 s1).
Proof.
  unfold utf8.RuneSelf. intros H0 Hv.
  unfold utf8.DecodeRune in *. rewrite H0 in *.
  destruct (byte c0 <? 0xC2)%N eqn:H1; [discriminate Hv|].
  destruct (byte c0 <? 0xE0)%N eqn:H2.
  { destruct s1 as [|c1 s2]; [discriminate Hv|].
    destruct (in_range c1 0x80 0xBF) eqn:R1; [|discriminate Hv].
    cbn [fst snd take_str String.length]. split; [lia|]. split.
    - intros t. change (String c0 (String c1 EmptyString) +:+ t) with (String c0 (String c1 t)).
      cbv beta iota. by rewrite H0, H1, H2, R1.
    - apply in_range_bounds in R1. to_props.
      rewrite EncodeRune_2 by lia. by rewrite !chr_byte. }
  destruct (byte c0 <? 0xF0)%N eqn:H3.
  { destruct s1 as [|c1 [|c2 s3]]; [discriminate Hv | discriminate Hv |].
    destruct (in_range c1 _ _) eqn:R1; [|discriminate Hv].
    destruct (in_range c2 0x80 0xBF) eqn:R2; [|discriminate Hv].
    cbn [fst snd take_str String.length andb]. split; [lia|]. split.
    - intros t.
      change (String c0 (String c1 (String c2 EmptyString)) +:+ t)
        with (String c0 (String c1 (String c2 t))).
      cbv beta iota zeta. by rewrite H0, H1, H2, H3, R1, R2.
    - apply in_range_bounds in R1, R2. to_props.
      rewrite EncodeRune_3 by lia. by rewrite !chr_byte. }
  destruct (byte c0 <? 0xF5)%N eqn:H4; [|discriminate Hv].
  destruct s1 as [|c1 [|c2 [|c3 s4]]]; [discriminate Hv | discriminate Hv | discriminate Hv |].
  destruct (in_range c1 _ _) eqn:R1; [|discriminate Hv].
  destruct (in_range c2 0x80 0xBF) eqn:R2; [|discriminate Hv].
  destruct (in_range c3 0x80 0xBF) eqn:R3; [|discriminate Hv].
  cbn [fst snd take_str String.length andb]. split; [lia|]. split.
  - intros t.
    change (String c0 (String c1 (String c2 (String c3 EmptyString))) +:+ t)
      with (String c0 (String c1 (String c2 (String c3 t)))).
    cbv beta iota zeta. by rewrite H0, H1, H2, H3, H4, R1, R2, R3.
  - apply in_range_bounds in R1, R2, R3. to_props.
    rewrite EncodeRune_4 by lia. by rewrite !chr_byte.
Qed.

End utf8_facts.

(** ** A string literal reads back as the string it was written from *)

Module literal_facts.

Import string_facts utf8_facts.

Ltac each_byte c := destruct c as [[] [] [] [] [] [] [] []].

Lemma unquote_escape_ascii (c : ascii) (g : nat) (tail : string) :
  (byte c <? utf8.RuneSelf)%N = true ->
  json.unquote (S g) (json.escape_ascii c +:+ tail)
  = json.push (String c EmptyString) (json.unquote g tail).
Proof. each_byte c; intros H; try discriminate H; reflexivity. Qed.

Lemma escape_ascii_length (c : ascii) : 1 <= String.length (json.escape_ascii c).
Proof. each_byte c; vm_compute; lia. Qed.

Lemma unquote_nonascii (g : nat) (c : ascii) (s' : string) :
  (byte c <? utf8.RuneSelf)%N = false ->
  json.unquote (S g) (String c s') =
  if utf8.invalid (utf8.DecodeRune (String c s'))
  then json.push (utf8.EncodeRune utf8.RuneError) (json.unquote g s')
  else json.push (take_str (snd (utf8.DecodeRune (String c s'))) (String c s'))
         (json.unquote g (drop_str (snd (utf8.DecodeRune (String c s'))) (String c s'))).
Proof.
  intros H. cbn [json.unquote]. rewrite H.
  destruct (Ascii.eqb_spec c json.dquote) as [-> | _]; [discriminate H|].
  destruct (Ascii.eqb_spec c json.backslash) as [-> | _]; [discriminate H|].
  destruct (byte c <? 0x20)%N eqn:E; [|done].
  unfold utf8.RuneSelf in H. apply N.ltb_lt in E. apply N.ltb_ge in H. lia.
Qed.

Lemma unquote_closing (g : nat) (rest : string) :
  json.unquote (S g) (String json.dquote rest) = Some (EmptyString, rest).
Proof. reflexivity. Qed.

Lemma unquote_line_separator (g : nat) (r : N) (tail : string) :
  r = 0x2028%N \/ r = 0x2029%N ->
  json.unquote (S g)
    (String json.backslash "u202" +:+ String (json.hexdigit (r mod 16)) tail)
  = json.push (utf8.EncodeRune r) (json.unquote g tail).
Proof. intros [-> | ->]; reflexivity. Qed.

(** The body of a literal, written from a valid string and followed by the
    closing quote, is read back as that string. *)
Lemma unquote_encode_body (f : nat) :
  forall s, String.length s <= f -> utf8.valid_from f s = true ->
  forall g rest, String.length (json.encode_body f s) < g ->
  json.unquote g (json.encode_body f s +:+ String json.dquote rest) = Some (s, rest).
Proof.
  induction f as [|f IH]; intros s Hlen Hv g rest Hg.
  - destruct s; [|cbn in Hlen; lia].
    destruct g; [cbn in Hg; lia|]. apply unquote_closing.
  - destruct s as [|c s'].
    { destruct g; [cbn in Hg; lia|]. apply unquote_closing. }
    cbn [json.encode_body utf8.valid_from] in *.
    destruct (byte c <? utf8.RuneSelf)%N eqn:Hc.
    + rewrite append_assoc. rewrite length_app in Hg.
      pose proof (escape_ascii_length c).
      destruct g as [|g]; [lia|].
      rewrite unquote_escape_ascii by done.
      rewrite IH; [done | cbn in Hlen; lia | done | lia].
    + destruct (utf8.invalid (utf8.DecodeRune (String c s'))) eqn:Hi; [discriminate Hv|].
      destruct (DecodeRune_wellformed c s' Hc Hi) as (Hn & Hpre & Henc).
      set (d := utf8.DecodeRune (String c s')) in *.
      assert (Hdrop : String.length (drop_str (snd d) (String c s')) <= f).
      { rewrite length_drop. cbn [String.length] in *. lia. }
      destruct g as [|g]; [lia|].
      destruct ((fst d =? 0x2028)%N || (fst d =? 0x2029)%N) eqn:Hls.
      * assert (Hr : fst d = 0x2028%N \/ fst d = 0x2029%N).
        { apply orb_true_iff in Hls as [H | H]; apply N.eqb_eq in H; auto. }
        rewrite append_assoc, (append_cons (json.hexdigit (fst d mod 16))).
        rewrite unquote_line_separator by done.
        rewrite IH; [| done | done |].
        -- cbn [json.push]. by rewrite Henc, take_drop.
        -- rewrite length_app in Hg. cbn [String.length] in Hg. lia.
      * rewrite append_assoc. rewrite length_app, length_take in Hg by lia.
        assert (Htk : take_str (snd d) (String c s') = String c (take_str (snd d - 1) s')).
        { destruct (snd d) as [|n]; [lia|]. by replace (S n - 1) with n by lia. }
        rewrite Htk at 1. rewrite append_cons.
        rewrite unquote_nonascii by done.
        rewrite <- append_cons, <- Htk. rewrite Hpre. fold d. rewrite Hi.
        pose proof (length_take (snd d) (String c s') ltac:(lia)) as Hl.
        rewrite (take_app_length _ _ _ Hl), (drop_app_length _ _ _ Hl).
        rewrite IH; [| done | done | lia].
        cbn [json.push]. by rewrite take_drop.
Qed.

(** A literal written by [encode_string] from a valid string. *)
Lemma scan_encode_string (s rest : string) :
  utf8.ValidString s = true ->
  exists body, json.encode_string s +:+ rest = String json.dquote body
    /\ json.scan_string body = Some (s, rest)
    /\ String.length body < String.length (json.encode_string s +:+ rest).
Proof.
  intros Hv. unfold json.encode_string.
  exists (json.encode_body (String.length s) s +:+ String json.dquote rest).
  split; [|split].
  - rewrite append_assoc. reflexivity.
  - unfold json.scan_string. apply unquote_encode_body; [done | done |].
    rewrite length_app. cbn [String.length]. lia.
  - rewrite append_assoc, length_app. cbn [String.length]. rewrite !length_app.
    cbn [String.length]. lia.
Qed.

End literal_facts.

(** ** A value reads back from its compact text *)

Module parse_facts.

Import string_facts utf8_facts literal_facts roundtrip.

Lemma join_cons (x : string) (l : list string) :
  json.join "," (x :: l) = x +:+ tail_text l.
Proof.
  revert x. induction l as [|y l IH]; intros x.
  - cbn. by rewrite append_empty_r.
  - change (json.join "," (x :: y :: l)) with (x +:+ "," +:+ json.join "," (y :: l)).
    by rewrite IH.
Qed.

Lemma plain_array l : plain (json.JArray l) <-> plain_elements l.
Proof.
  unfold plain_elements. induction l as [|x l IH]; cbn.
  - split; [constructor | done].
  - rewrite Forall_cons. cbn in IH. by rewrite IH.
Qed.

Lemma plain_object ms : plain (json.JObject ms) <-> plain_members ms.
Proof.
  unfold plain_members. induction ms as [|[k x] ms IH]; cbn.
  - split; [constructor | done].
  - rewrite Forall_cons. cbn in IH. rewrite IH. cbn. tauto.
Qed.

(** The text of a plain value begins with a character that opens a value. *)
Lemma encode_value_head v :
  plain v -> exists c s, json.encode_value v = String c s
    /\ json.is_space c = false /\ Ascii.eqb c "]" = false /\ Ascii.eqb c "}" = false.
Proof.
  destruct v as [|[]|lit|s|l|ms]; intros Hp; try (destruct Hp; fail); by eexists _, _.
Qed.

Lemma parse_value_string f body :
  json.parse_value (S f) (String json.dquote body) =
  match json.scan_string body with
  | Some (str, rest) => Some (json.JString str, rest)
  | None => None
  end.
Proof. reflexivity. Qed.

Lemma parse_value_array f c1 s1 :
  json.is_space c1 = false -> Ascii.eqb c1 "]" = false ->
  json.parse_value (S f) (String "[" (String c1 s1)) =
  match json.parse_value f (String c1 s1) with
  | Some (v, s2) =>
      match json.parse_elements f s2 with
      | Some (vs, rest) => Some (json.JArray (v :: vs), rest)
      | None => None
      end
  | None => None
  end.
Proof.
  intros Hs Hc. cbn [json.parse_value json.skip_space].
  change (json.is_space "[") with false. cbv iota.
  change (Ascii.eqb "[" "{") with false. change (Ascii.eqb "[" "[") with true. cbv iota.
  cbn [json.skip_space]. rewrite Hs, Hc. reflexivity.
Qed.

Lemma parse_value_object f s1 :
  json.parse_value (S f) (String "{" (String json.dquote s1)) =
  match json.parse_members f (String json.dquote s1) with
  | Some (ms, rest) => Some (json.JObject ms, rest)
  | None => None
  end.
Proof. reflexivity. Qed.

Lemma parse_elements_end f rest :
  json.parse_elements (S f) (String "]" rest) = Some ([], rest).
Proof. reflexivity. Qed.

Lemma parse_elements_comma f s :
  json.parse_elements (S f) (String "," s) =
  match json.parse_value f s with
  | Some (v, s2) =>
      match json.parse_elements f s2 with
      | Some (vs, rest) => Some (v :: vs, rest)
      | None => None
      end
  | None => None
  end.
Proof. reflexivity. Qed.

Lemma parse_members_key f body :
  json.parse_members (S f) (String json.dquote body) =
  match json.scan_string body with
  | Some (k, s2) =>
      match json.skip_space s2 with
      | String colon s3 =>
          if Ascii.eqb colon ":" then
            match json.parse_value f s3 with
            | Some (v, s4) =>
                match json.skip_space s4 with
                | String d s5 =>
                    if Ascii.eqb d "}" then Some ([(k, v)], s5)
                    else if Ascii.eqb d "," then
                      match json.parse_members f s5 with
                      | Some (ms, rest) => Some ((k, v) :: ms, rest)
                      | None => None
                      end
                    else None
                | EmptyString => None
                end
            | None => None
            end
          else None
      | EmptyString => None
      end
  | None => None
  end.
Proof. reflexivity. Qed.

Lemma parse_value_array_text f t :
  (exists c1 s1, t = String c1 s1 /\ json.is_space c1 = false /\ Ascii.eqb c1 "]" = false) ->
  json.parse_value (S f) (String "[" t) =
  match json.parse_value f t with
  | Some (v, s2) =>
      match json.parse_elements f s2 with
      | Some (vs, rest) => Some (json.JArray (v :: vs), rest)
      | None => None
      end
  | None => None
  end.
Proof. intros (c1 & s1 & -> & Hs & Hc). by apply parse_value_array. Qed.

Lemma encode_string_head k t :
  exists s1, json.encode_string k +:+ t = String json.dquote s1.
Proof. unfold json.encode_string. rewrite append_assoc, append_cons. by eexists. Qed.

Ltac flat := rewrite ?append_assoc, ?append_cons, ?append_nil.
Ltac len_lia := rewrite ?length_app; cbn [String.length]; lia.
Ltac lengths H :=
  repeat first [rewrite length_app in H | progress (cbn [String.length] in H)].

(** With fuel beyond the length of the text, a plain value is read back
    from its text, and so are the elements of an array and the members of an
    object. *)
Lemma parse_encode (f : nat) :
  (forall v rest, plain v -> String.length (json.encode_value v) < f ->
     json.parse_value f (json.encode_value v +:+ rest) = Some (v, rest))
  /\ (forall vs rest, plain_elements vs ->
       String.length (tail_text (map json.encode_value vs)) < f ->
       json.parse_elements f (tail_text (map json.encode_value vs) +:+ "]" +:+ rest)
       = Some (vs, rest))
  /\ (forall m ms rest, plain_members (m :: ms) ->
       String.length (member_text m +:+ tail_text (map member_text ms)) < f ->
       json.parse_members f (member_text m +:+ tail_text (map member_text ms) +:+ "}" +:+ rest)
       = Some (m :: ms, rest)).
Proof.
  induction f as [|f (IHv & IHe & IHm)]; [repeat split; intros; lia|].
  split; [|split].
  - intros v rest Hp Hlen. destruct v as [|[]|lit|s|l|ms]; try reflexivity.
    + destruct Hp.
    + destruct (scan_encode_string s rest Hp) as (body & E & Hscan & _).
      cbn [json.encode_value]. by rewrite E, parse_value_string, Hscan.
    + destruct l as [|v vs]; [reflexivity|].
      apply plain_array, Forall_cons in Hp as [Hv Hvs].
      cbn [json.encode_value map] in *. rewrite join_cons in *. revert Hlen. flat. intros Hlen. lengths Hlen.
      rewrite parse_value_array_text.
      2:{ destruct (encode_value_head v Hv) as (c & s & E & Hs & Hc & _).
          exists c, (s +:+ tail_text (map json.encode_value vs) +:+ String "]" rest).
          by rewrite E. }
      rewrite IHv by (done || len_lia).
      change (String "]" rest) with ("]" +:+ rest).
      rewrite IHe by (done || len_lia). done.
    + destruct ms as [|m ms]; [reflexivity|].
      apply plain_object in Hp.
      cbn [json.encode_value map] in *. fold (member_text m) in *.
      change (map (fun kv => json.encode_string (fst kv) +:+ ":" +:+ json.encode_value (snd kv)) ms)
        with (map member_text ms) in *.
      rewrite join_cons in *. revert Hlen. flat. intros Hlen. lengths Hlen.
      assert (Hq : exists s1, member_text m +:+ tail_text (map member_text ms) +:+ String "}" rest
                              = String json.dquote s1).
      { unfold member_text. rewrite append_assoc. apply encode_string_head. }
      destruct Hq as (s1 & Hq). rewrite Hq, parse_value_object, <- Hq.
      change (String "}" rest) with ("}" +:+ rest).
      rewrite IHm by (done || len_lia). done.
  - intros vs rest Hp Hlen. destruct vs as [|v vs]; [reflexivity|].
    apply Forall_cons in Hp as [Hv Hvs].
    cbn [map tail_text] in *. revert Hlen. flat. intros Hlen. lengths Hlen.
    rewrite parse_elements_comma.
    rewrite IHv by (done || len_lia).
    change (String "]" rest) with ("]" +:+ rest).
    rewrite IHe by (done || len_lia). done.
  - intros [k x] ms rest Hp Hlen.
    apply Forall_cons in Hp as [[Hk Hx] Hms]. cbn [fst snd] in Hk, Hx.
    unfold member_text at 1. unfold member_text at 1 in Hlen. cbn [fst snd] in *.
    revert Hlen. flat. intros Hlen. lengths Hlen.
    destruct (scan_encode_string k
                (String ":" (json.encode_value x +:+ tail_text (map member_text ms) +:+ String "}" rest))
                Hk) as (body & E & Hscan & Hb).
    rewrite E, parse_members_key, Hscan.
    cbn [json.skip_space]. change (json.is_space ":") with false. cbv iota.
    change (Ascii.eqb ":" ":") with true. cbv iota.
    rewrite IHv by (done || len_lia).
    destruct ms as [|m' ms]; [reflexivity|].
    cbn [map tail_text]. flat.
    cbn [json.skip_space]. change (json.is_space ",") with false. cbv iota.
    change (Ascii.eqb "," "}") with false. change (Ascii.eqb "," ",") with true. cbv iota.
    cbn [map tail_text] in Hlen. revert Hlen. flat. intros Hlen. lengths Hlen.
    change (String "}" rest) with ("}" +:+ rest).
    rewrite IHm by (done || len_lia). done.
Qed.

(** [Parse] reads a plain value back from its compact text. *)
Lemma Parse_encode_value v :
  plain v -> json.Parse (json.encode_value v) = Some v.
Proof.
  intros Hp. unfold json.Parse.
  destruct (parse_encode (S (String.length (json.encode_value v)))) as (H & _ & _).
  specialize (H v EmptyString Hp ltac:(lia)). rewrite append_empty_r in H.
  by rewrite H.
Qed.

End parse_facts.

(** ** Base64: decoding what was encoded *)

Module base64_facts.

Import string_facts utf8_facts roundtrip.

Lemma alphabet_ok : forallb char_ok (seq 0 64) = true.
Proof. vm_compute. reflexivity. Qed.

Lemma enc6_ok (n : N) :
  (n < 64)%N ->
  base64.is_newline (base64.enc6 n) = false
  /\ Ascii.eqb (base64.enc6 n) base64.padChar = false
  /\ base64.dec6 (base64.enc6 n) = Some n
  /\ (byte (base64.enc6 n) <? utf8.RuneSelf)%N = true.
Proof.
  intros Hn. pose proof alphabet_ok as H. rewrite forallb_forall in H.
  specialize (H (N.to_nat n)). rewrite in_seq in H. specialize (H ltac:(lia)).
  unfold char_ok in H. rewrite N2Nat.id in H.
  apply andb_true_iff in H as [H H3]. apply andb_true_iff in H as [H H4].
  apply andb_true_iff in H as [H1 H2].
  apply negb_true_iff in H1, H2.
  destruct (base64.dec6 (base64.enc6 n)) as [m|]; [|discriminate H3].
  apply N.eqb_eq in H3. by subst m.
Qed.

Lemma enc6_mod (x : N) :
  base64.is_newline (base64.enc6 (x mod 64)) = false
  /\ Ascii.eqb (base64.enc6 (x mod 64)) base64.padChar = false
  /\ base64.dec6 (base64.enc6 (x mod 64)) = Some (x mod 64)%N
  /\ (byte (base64.enc6 (x mod 64)) <? utf8.RuneSelf)%N = true.
Proof. apply enc6_ok. apply N.mod_lt. lia. Qed.

Lemma strip_newlines_encoded (s : string) :
  base64.strip_newlines (base64.EncodeToString s) = base64.EncodeToString s.
Proof.
  assert (Hpad : base64.is_newline base64.padChar = false) by reflexivity.
  assert (G : forall n s, String.length s <= n ->
            base64.strip_newlines (base64.EncodeToString s) = base64.EncodeToString s).
  { clear s. induction n as [|n IH]; intros s Hn.
    - destruct s; [done | cbn in Hn; lia].
    - destruct s as [|a [|b [|c rest]]]; [done | | |];
        cbn [base64.EncodeToString base64.strip_newlines];
        repeat match goal with
        | |- context [base64.is_newline (base64.enc6 (?x mod 64))] =>
            rewrite (proj1 (enc6_mod x))
        end; rewrite ?Hpad; [done | done |].
      rewrite IH; [done|]. cbn in Hn. lia. }
  by apply (G (String.length s)).
Qed.

Lemma quantum_bytes (A B C : N) :
  (A < 256)%N -> (B < 256)%N -> (C < 256)%N ->
  let val := (A * 65536 + B * 256 + C)%N in
  base64.quantum (val / 262144 mod 64) (val / 4096 mod 64) (val / 64 mod 64) (val mod 64) 4
  = String (chr A) (String (chr B) (String (chr C) EmptyString))
  /\ (C = 0%N ->
      base64.quantum (val / 262144 mod 64) (val / 4096 mod 64) (val / 64 mod 64) 0 3
      = String (chr A) (String (chr B) EmptyString))
  /\ (B = 0%N -> C = 0%N ->
      base64.quantum (val / 262144 mod 64) (val / 4096 mod 64) 0 0 2
      = String (chr A) EmptyString).
Proof.
  intros HA HB HC val. subst val. unfold base64.quantum. cbn [Nat.sub take_str].
  split; [|split]; intros; subst; same_bytes.
Qed.

Lemma quantum_3 (a b c : ascii) :
  let val := (byte a * 65536 + byte b * 256 + byte c)%N in
  base64.quantum (val / 262144 mod 64) (val / 4096 mod 64) (val / 64 mod 64) (val mod 64) 4
  = String a (String b (String c EmptyString)).
Proof.
  destruct (quantum_bytes (byte a) (byte b) (byte c)) as (H & _ & _);
    try apply byte_lt_256.
  cbv zeta in *. by rewrite H, !chr_byte.
Qed.

Lemma quantum_2 (a b : ascii) :
  let val := (byte a * 65536 + byte b * 256)%N in
  base64.quantum (val / 262144 mod 64) (val / 4096 mod 64) (val / 64 mod 64) 0 3
  = String a (String b EmptyString).
Proof.
  destruct (quantum_bytes (byte a) (byte b) 0) as (_ & H & _);
    try apply byte_lt_256; [done|].
  cbv zeta in *. rewrite N.add_0_r in H. by rewrite H, !chr_byte.
Qed.

Lemma quantum_1 (a : ascii) :
  let val := (byte a * 65536)%N in
  base64.quantum (val / 262144 mod 64) (val / 4096 mod 64) 0 0 2
  = String a EmptyString.
Proof.
  destruct (quantum_bytes (byte a) 0 0) as (_ & _ & H);
    try apply byte_lt_256; [done | done |].
  cbv zeta in *. rewrite !N.add_0_r in H. by rewrite H, !chr_byte.
Qed.

Lemma decode_quanta_encoded (s : string) :
  base64.decode_quanta (base64.EncodeToString s) = Some s.
Proof.
  assert (Hpad : Ascii.eqb base64.padChar base64.padChar = true) by reflexivity.
  assert (G : forall n s, String.length s <= n ->
            base64.decode_quanta (base64.EncodeToString s) = Some s).
  { clear s. induction n as [|n IH]; intros s Hn.
    - destruct s; [done | cbn in Hn; lia].
    - destruct s as [|a [|b [|c rest]]]; [done | | |];
        cbn [base64.EncodeToString base64.decode_quanta];
        repeat match goal with
        | |- context [base64.dec6 (base64.enc6 (?x mod 64))] =>
            rewrite (proj1 (proj2 (proj2 (enc6_mod x))))
        | |- context [Ascii.eqb (base64.enc6 (?x mod 64)) base64.padChar] =>
            rewrite (proj1 (proj2 (enc6_mod x)))
        end; rewrite ?Hpad.
      + by rewrite quantum_1.
      + by rewrite quantum_2.
      + rewrite IH by (cbn in Hn; lia). by rewrite quantum_3. }
  by apply (G (String.length s)).
Qed.

Lemma DecodeString_EncodeToString (s : string) :
  base64.DecodeString (base64.EncodeToString s) = Some s.
Proof.
  unfold base64.DecodeString. rewrite strip_newlines_encoded. apply decode_quanta_encoded.
Qed.

Lemma ascii_only_valid (s : string) :
  ascii_only s = true -> utf8.ValidString s = true.
Proof.
  unfold utf8.ValidString. induction s as [|c s IH]; [done|].
  cbn [ascii_only String.length utf8.valid_from].
  intros [Hc Hs]%andb_true_iff. rewrite Hc. by apply IH.
Qed.

Lemma ascii_only_encoded (s : string) :
  ascii_only (base64.EncodeToString s) = true.
Proof.
  assert (Hpad : (byte base64.padChar <? utf8.RuneSelf)%N = true) by reflexivity.
  assert (G : forall n s, String.length s <= n ->
            ascii_only (base64.EncodeToString s) = true).
  { clear s. induction n as [|n IH]; intros s Hn.
    - destruct s; [done | cbn in Hn; lia].
    - destruct s as [|a [|b [|c rest]]]; [done | | |];
        cbn [base64.EncodeToString ascii_only];
        repeat match goal with
        | |- context [(byte (base64.enc6 (?x mod 64)) <? utf8.RuneSelf)%N] =>
            rewrite (proj2 (proj2 (proj2 (enc6_mod x))))
        end; rewrite ?Hpad; [done | done |].
      rewrite IH; [done|]. cbn in Hn. lia. }
  by apply (G (String.length s)).
Qed.

Lemma valid_encoded (s : string) : utf8.ValidString (base64.EncodeToString s) = true.
Proof. apply ascii_only_valid, ascii_only_encoded. Qed.

End base64_facts.

(** ** The text of a Builder and the members it holds *)

Module marshal_facts.

Import buildah string_facts parse_facts roundtrip.

Lemma sorted_entries_perm {A} (m : gmap string A) :
  sorted_entries m ≡ₚ map_to_list m.
Proof. apply merge_sort_Permutation. Qed.

Lemma sorted_entries_nil {A} (m : gmap string A) :
  sorted_entries m = [] <-> map_to_list m = [].
Proof.
  split; intros H.
  - apply Permutation_nil_r. rewrite <- H. symmetry. apply sorted_entries_perm.
  - apply Permutation_nil_r. rewrite <- H. apply sorted_entries_perm.
Qed.

Lemma elem_of_sorted_entries {A} (m : gmap string A) k v :
  (k, v) ∈ sorted_entries m <-> m !! k = Some v.
Proof. rewrite sorted_entries_perm. apply elem_of_map_to_list. Qed.

Lemma sorted_entries_NoDup {A} (m : gmap string A) :
  NoDup ((sorted_entries m).*1).
Proof. rewrite sorted_entries_perm. apply NoDup_fst_map_to_list. Qed.

Lemma string_field_members name o v :
  string_field name o v = map member_text (string_member name o v).
Proof. unfold string_field, string_member. by destruct (o && String.eqb v EmptyString). Qed.

Lemma bytes_field_members name v :
  bytes_field name v = map member_text (bytes_member name v).
Proof. by destruct v. Qed.

Lemma strings_field_members name v :
  strings_field name v = map member_text (strings_member name v).
Proof.
  destruct v as [|x v]; [done|].
  unfold strings_field, strings_member, member_text, member, comma.
  cbn [map fst snd json.encode_value]. do 4 f_equal.
  rewrite map_map. done.
Qed.

Lemma map_field_members name v :
  map_field name v = map member_text (map_member name v).
Proof.
  destruct v as [m|]; [|done]. unfold map_field, map_member.
  destruct (sorted_entries m) as [|e es]; [done|].
  unfold member_text, member, comma.
  cbn [map fst snd json.encode_value]. do 4 f_equal.
  rewrite map_map. done.
Qed.

Lemma encode_ifaces_storable (es : list (string * iface)) :
  Forall (fun kv => storable (snd kv)) es ->
  encode_ifaces es = Ok (map member_text (map iface_entry es)).
Proof.
  induction es as [|[k v] es IH]; intros H; [done|].
  apply Forall_cons in H as [Hv Hes]. cbn [snd] in Hv. cbn [encode_ifaces map].
  rewrite (IH Hes). by destruct Hv as [-> | (j & -> & _)].
Qed.

Lemma expose_field_members name v :
  valid_expose v ->
  expose_field name v = Ok (map member_text (expose_member name v)).
Proof.
  destruct v as [m|]; [|done]. intros Hv. unfold expose_field, expose_member.
  destruct (sorted_entries m) as [|e es] eqn:E; [done|].
  rewrite encode_ifaces_storable.
  - reflexivity.
  - apply list.Forall_forall. intros [k x] Hin. rewrite <- E in Hin.
    apply elem_of_sorted_entries in Hin. by destruct (Hv k x Hin).
Qed.

(** The text that [Marshal] writes is the compact text of the object. *)
Lemma Marshal_members (b : Builder) :
  valid_expose (Expose b) ->
  Marshal b = Ok (json.encode_value (json.JObject (members b))).
Proof.
  intros Hv. unfold Marshal. rewrite (expose_field_members _ _ Hv).
  rewrite !string_field_members, !bytes_field_members, !strings_field_members,
    !map_field_members, <- !map_app.
  reflexivity.
Qed.

End marshal_facts.

(** ** The members of a Builder decode to the Builder *)

Module unmarshal_facts.

Import buildah string_facts utf8_facts parse_facts base64_facts marshal_facts roundtrip.

Lemma decode_members_app ms1 ms2 B B1 :
  decode_members ms1 B = Some B1 ->
  decode_members (ms1 ++ ms2) B = decode_members ms2 B1.
Proof.
  revert B. induction ms1 as [|[k v] ms1 IH]; intros B H.
  - by injection H as ->.
  - cbn [decode_members app] in *.
    destruct (find_field k) as [f|]; [|by apply IH].
    destruct (decode_field f v B) as [B'|]; [by apply IH | discriminate H].
Qed.

Lemma decode_elements_strings (l : list string) :
  decode_elements (map json.JString l) = Some l.
Proof. induction l as [|x l IH]; [done|]. cbn [map decode_elements decode_string]. by rewrite IH. Qed.

(** Storing the entries of a map one after the other gives the map back. *)
Lemma lookup_fold_insert {A B} (g : A -> B) (es : list (string * A)) (acc : gmap string B) k :
  NoDup (es.*1) ->
  fold_left (fun a kv => <[fst kv := g (snd kv)]> a) es acc !! k
  = match (list_to_map es : gmap string A) !! k with
    | Some v => Some (g v)
    | None => acc !! k
    end.
Proof.
  revert acc. induction es as [|[k0 v0] es IH]; intros acc Hnd; [done|].
  apply NoDup_cons in Hnd as [Hk0 Hnd]. cbn [fold_left fst snd list_to_map foldr].
  rewrite IH by done. cbn [uncurry].
  destruct (decide (k = k0)) as [-> | Hne].
  - rewrite lookup_insert_eq.
    rewrite (not_elem_of_list_to_map_1 es k0) by done. by rewrite lookup_insert_eq.
  - rewrite (lookup_insert_ne (list_to_map es)) by done.
    destruct (list_to_map es !! k); [done|]. by rewrite lookup_insert_ne.
Qed.

Lemma fold_insert_entries {A B} (g : A -> B) (m : gmap string A) :
  fold_left (fun a kv => <[fst kv := g (snd kv)]> a) (sorted_entries m) ∅ = g <$> m.
Proof.
  apply map_eq. intros k.
  rewrite lookup_fold_insert by apply sorted_entries_NoDup.
  rewrite (list_to_map_proper (sorted_entries m) (map_to_list m))
    by (apply sorted_entries_NoDup || apply sorted_entries_perm).
  rewrite list_to_map_to_list, lookup_fmap.
  by destruct (m !! k).
Qed.

Lemma decode_entries_strings (es : list (string * string)) (acc : gmap string string) :
  decode_entries (map string_entry es) acc
  = Some (fold_left (fun a kv => <[fst kv := id (snd kv)]> a) es acc).
Proof.
  revert acc. induction es as [|[k v] es IH]; intros acc; [done|].
  cbn [map string_entry decode_entries decode_string fst snd fold_left]. by rewrite IH.
Qed.

Lemma to_interface_tree_of (v : iface) :
  storable v -> json.to_interface (tree_of v) = Some (tree_of v).
Proof. by intros [-> | (j & -> & _ & Hj)]. Qed.

Lemma decode_entries_ifaces (es : list (string * iface)) (acc : gmap string iface) :
  Forall (fun kv => storable (snd kv)) es ->
  decode_iface_entries (map iface_entry es) acc
  = Some (fold_left (fun a kv => <[fst kv := as_read (snd kv)]> a) es acc).
Proof.
  revert acc. induction es as [|[k v] es IH]; intros acc H; [done|].
  apply Forall_cons in H as [Hv Hes]. cbn [snd] in Hv.
  cbn [map iface_entry decode_iface_entries fst snd fold_left].
  rewrite (to_interface_tree_of v Hv). by rewrite IH.
Qed.

Lemma nil_if_empty_Some {A} (m : gmap string A) :
  sorted_entries m <> [] -> nil_if_empty (Some m) = Some m.
Proof.
  intros H. unfold nil_if_empty. destruct (map_to_list m) eqn:E; [|done].
  by apply sorted_entries_nil in E.
Qed.

Lemma nil_if_empty_None {A} (m : gmap string A) :
  sorted_entries m = [] -> nil_if_empty (Some m) = None.
Proof. intros H%sorted_entries_nil. unfold nil_if_empty. by rewrite H. Qed.

Lemma sorted_entries_reread (m : gmap string iface) :
  sorted_entries m = [] <-> sorted_entries (reread m) = [].
Proof.
  rewrite !sorted_entries_nil, !map_to_list_empty_iff. unfold reread.
  by rewrite fmap_empty_iff.
Qed.

Section members.

Variable name : string.
Hypothesis Hname : find_field name = Some name.

Lemma decode_string_member o v B (set : string -> Builder -> Builder) (get : Builder -> string) :
  (forall j B, decode_field name j B = x ← decode_string j (get B); Some (set x B)) ->
  (forall B, set (get B) B = B) ->
  (o = true -> get B = EmptyString) ->
  decode_members (string_member name o v) B = Some (set v B).
Proof.
  intros Hdec Heta Hzero. unfold string_member.
  destruct o; cbn [andb].
  - destruct (String.eqb_spec v EmptyString) as [-> | _].
    + cbn [decode_members]. by rewrite <- (Hzero eq_refl), Heta.
    + cbn [decode_members]. by rewrite Hname, Hdec.
  - cbn [decode_members]. by rewrite Hname, Hdec.
Qed.

Lemma decode_bytes_member v B (set : string -> Builder -> Builder) (get : Builder -> string) :
  (forall j B, decode_field name j B = x ← decode_bytes j; Some (set x B)) ->
  (forall B, set (get B) B = B) ->
  get B = EmptyString ->
  decode_members (bytes_member name v) B = Some (set v B).
Proof.
  intros Hdec Heta Hzero. destruct v as [|c v].
  - cbn [bytes_member decode_members]. by rewrite <- Hzero, Heta.
  - cbn [bytes_member decode_members]. rewrite Hname, Hdec. cbn [decode_bytes].
    by rewrite DecodeString_EncodeToString.
Qed.

Lemma decode_strings_member v B (set : list string -> Builder -> Builder)
    (get : Builder -> list string) :
  (forall j B, decode_field name j B = x ← decode_strings j; Some (set x B)) ->
  (forall B, set (get B) B = B) ->
  get B = [] ->
  decode_members (strings_member name v) B = Some (set v B).
Proof.
  intros Hdec Heta Hzero. destruct v as [|x v].
  - cbn [strings_member decode_members]. by rewrite <- Hzero, Heta.
  - cbn [strings_member decode_members]. rewrite Hname, Hdec. cbn [decode_strings].
    by rewrite decode_elements_strings.
Qed.

Lemma decode_map_member v B (set : option (gmap string string) -> Builder -> Builder)
    (get : Builder -> option (gmap string string)) :
  (forall j B, decode_field name j B = x ← decode_map j (get B); Some (set x B)) ->
  (forall B, set (get B) B = B) ->
  get B = None ->
  decode_members (map_member name v) B = Some (set (nil_if_empty v) B).
Proof.
  intros Hdec Heta Hzero. destruct v as [m|].
  2:{ cbn [map_member decode_members nil_if_empty]. by rewrite <- Hzero, Heta. }
  unfold map_member. destruct (sorted_entries m) as [|e es] eqn:E.
  - rewrite nil_if_empty_None by done. cbn [decode_members]. by rewrite <- Hzero, Heta.
  - rewrite nil_if_empty_Some by (by rewrite E).
    cbn [decode_members]. rewrite Hname, Hdec, Hzero. cbn [decode_map default].
    rewrite <- E, decode_entries_strings, fold_insert_entries, map_fmap_id. done.
Qed.

Lemma decode_expose_member v B (set : option (gmap string iface) -> Builder -> Builder)
    (get : Builder -> option (gmap string iface)) :
  (forall j B, decode_field name j B = x ← decode_expose j (get B); Some (set x B)) ->
  (forall B, set (get B) B = B) ->
  get B = None ->
  valid_expose v ->
  decode_members (expose_member name v) B = Some (set (nil_if_empty (reread <$> v)) B).
Proof.
  intros Hdec Heta Hzero Hv. destruct v as [m|].
  2:{ cbn [expose_member decode_members nil_if_empty fmap option_fmap option_map].
      by rewrite <- Hzero, Heta. }
  unfold expose_member. cbn [fmap option_fmap option_map].
  destruct (sorted_entries m) as [|e es] eqn:E.
  - rewrite nil_if_empty_None by (apply (proj1 (sorted_entries_reread m)); exact E).
    cbn [decode_members]. by rewrite <- Hzero, Heta.
  - rewrite nil_if_empty_Some.
    2:{ intros H. apply (proj2 (sorted_entries_reread m)) in H. by rewrite E in H. }
    cbn [decode_members]. rewrite Hname, Hdec, Hzero. cbn [decode_expose default].
    rewrite <- E, decode_entries_ifaces, fold_insert_entries; [done|].
    apply list.Forall_forall. intros [k x] Hkx.
    apply elem_of_sorted_entries in Hkx. by destruct (Hv k x Hkx).
Qed.

End members.

End unmarshal_facts.

(** ** Writing a Builder and reading it back *)

Module roundtrip_facts.

Import buildah string_facts utf8_facts parse_facts base64_facts marshal_facts
  unmarshal_facts roundtrip.

Ltac side_conditions :=
  [> reflexivity | intros; reflexivity | by intros []
   | first [reflexivity | intros _; reflexivity | intros H; discriminate H] | assumption .. ].

Ltac member_step lem setter getter :=
  erewrite decode_members_app;
  [| apply lem with (set := setter) (get := getter); side_conditions].

Lemma decode_members_members (b : Builder) :
  valid_expose (Expose b) ->
  decode_members (members b) zero = Some (reloaded b).
Proof.
  intros Hexpose. unfold members.
  member_step decode_string_member set_Type_ Type_.
  member_step decode_string_member set_FromImage FromImage.
  member_step decode_bytes_member set_Config Config.
  member_step decode_bytes_member set_Manifest Manifest.
  member_step decode_string_member set_Container Container.
  member_step decode_string_member set_ContainerID ContainerID.
  member_step decode_string_member set_MountPoint MountPoint.
  member_step decode_strings_member set_Mounts Mounts.
  member_step decode_strings_member set_Links Links.
  member_step decode_map_member set_Annotations Annotations.
  member_step decode_string_member set_CreatedBy CreatedBy.
  member_step decode_string_member set_OS OS.
  member_step decode_string_member set_Architecture Architecture.
  member_step decode_string_member set_Maintainer Maintainer.
  member_step decode_string_member set_User User.
  member_step decode_string_member set_Workdir Workdir.
  member_step decode_strings_member set_Env Env.
  member_step decode_strings_member set_Cmd Cmd.
  member_step decode_strings_member set_Entrypoint Entrypoint.
  member_step decode_expose_member set_Expose Expose.
  member_step decode_map_member set_Labels Labels.
  member_step decode_strings_member set_Volumes Volumes.
  rewrite decode_map_member with (set := set_Arg) (get := Arg);
    [reflexivity | reflexivity | intros; reflexivity | by intros [] | reflexivity].
Qed.

Lemma plain_string_member name o v :
  valid name -> valid v -> plain_members (string_member name o v).
Proof.
  intros Hn Hv. unfold string_member, plain_members.
  destruct (o && String.eqb v EmptyString); [constructor|].
  apply List.Forall_cons; [|constructor]. by split.
Qed.

Lemma plain_bytes_member name v :
  valid name -> plain_members (bytes_member name v).
Proof.
  intros Hn. unfold plain_members. destruct v; [constructor|].
  apply List.Forall_cons; [|constructor]. split; [exact Hn|]. apply valid_encoded.
Qed.

Lemma plain_strings_member name v :
  valid name -> Forall valid v -> plain_members (strings_member name v).
Proof.
  intros Hn Hv. unfold plain_members. destruct v as [|x v]; [constructor|].
  apply List.Forall_cons; [|constructor]. split; [exact Hn|]. cbn [snd]. apply plain_array.
  unfold plain_elements. apply list.Forall_forall. intros j Hj.
  apply list_elem_of_fmap in Hj as (s & -> & Hs).
  rewrite list.Forall_forall in Hv. by apply Hv.
Qed.

Lemma plain_map_member name v :
  valid name -> valid_map v -> plain_members (map_member name v).
Proof.
  intros Hn Hv. unfold plain_members, map_member. destruct v as [m|]; [|constructor].
  destruct (sorted_entries m) as [|e es] eqn:E; [constructor|].
  apply List.Forall_cons; [|constructor]. split; [exact Hn|]. cbn [snd]. apply plain_object.
  unfold plain_members. apply list.Forall_forall. intros j Hj.
  apply list_elem_of_fmap in Hj as ([k x] & -> & Hkx).
  rewrite <- E in Hkx. apply elem_of_sorted_entries in Hkx.
  destruct (Hv k x Hkx). by split.
Qed.

Lemma plain_expose_member name v :
  valid name -> valid_expose v -> plain_members (expose_member name v).
Proof.
  intros Hn Hv. unfold plain_members, expose_member. destruct v as [m|]; [|constructor].
  destruct (sorted_entries m) as [|e es] eqn:E; [constructor|].
  apply List.Forall_cons; [|constructor]. split; [exact Hn|]. cbn [snd]. apply plain_object.
  unfold plain_members. apply list.Forall_forall. intros j Hj.
  apply list_elem_of_fmap in Hj as ([k x] & -> & Hkx).
  rewrite <- E in Hkx. apply elem_of_sorted_entries in Hkx.
  destruct (Hv k x Hkx) as [Hk Hx]. split; [done|]. cbn [snd].
  by destruct Hx as [-> | (j & -> & Hj & _)].
Qed.

Lemma plain_members_of (b : Builder) :
  encodable b -> plain (json.JObject (members b)).
Proof.
  intros (H1 & H2 & H3 & H4 & H5 & H6 & H7 & H8 & H9 & H10 & H11 & H12 & H13 & H14
          & H15 & H16 & H17 & H18 & H19 & H20 & H21).
  apply plain_object. unfold members, plain_members.
  repeat (apply Forall_app; split);
    first [ by apply plain_string_member | by apply plain_bytes_member
          | by apply plain_strings_member | by apply plain_map_member
          | by apply plain_expose_member ].
Qed.



(** The text written for an encodable Builder decodes to [reloaded b]. *)
Lemma Unmarshal_Marshal (b : Builder) :
  encodable b ->
  exists data, Marshal b = Ok data /\ Unmarshal data zero = Ok (Some (reloaded b)).
Proof.
  intros Hb. exists (json.encode_value (json.JObject (members b))). split.
  - apply Marshal_members. apply Hb.
  - unfold Unmarshal. rewrite Parse_encode_value by (by apply plain_members_of).
    rewrite decode_members_members; [done|]. apply Hb.
Qed.





(** What Save writes, OpenBuilder reads: after a Save without fault, the
    Builder that OpenBuilder returns for the container is [reloaded b] with
    the Store handle. *)
Lemma Save_then_OpenBuilder (Join : string -> string -> string) (fs : FS)
    (b : Builder) (st : storage.Store) (cdir : string) :
  encodable b ->
  Type_ b = containerType ->
  store b = Some st ->
  storage.GetContainerDirectory st (ContainerID b) = Ok cdir ->
  snd (Save Join ioutils.no_fault fs b) = Returns None
  /\ OpenBuilder Join (saving.final fs (fst (Save Join ioutils.no_fault fs b))) st (ContainerID b)
     = Returns (Ok (set_store (Some st) (reloaded b))).
Proof.
  intros Hb Hty Hst Hdir. destruct (Unmarshal_Marshal b Hb) as (data & HM & HU).
  unfold Save. rewrite HM, Hst, Hdir. cbn [ioutils.AtomicWriteFile fst snd saving.final List.last].
  split; [done|].
  rewrite (resolver_facts.OpenBuilder_on_bytes Join _ st (ContainerID b) cdir data Hdir)
    by apply lookup_insert_eq.
  rewrite HU. cbn [reloaded Type_]. rewrite Hty. reflexivity.
Qed.


End roundtrip_facts.

(** ** The configuration update: entries, ports, repetition, the flag table *)

Module entry_facts.

Import buildah main update main_facts.

Lemma key_eq spec :
  entry.key spec = match split_first_eq spec with
                   | Some (k, _) => k
                   | None => spec
                   end.
Proof.
  unfold entry.key. rewrite SplitN_eq. by destruct (split_first_eq spec) as [[k v]|].
Qed.

Lemma value_eq spec :
  entry.value spec = snd <$> split_first_eq spec.
Proof.
  unfold entry.value. rewrite SplitN_eq. by destruct (split_first_eq spec) as [[k v]|].
Qed.

(** One entry decides its own key and leaves the others. *)
Lemma lookup_set_or_delete m spec k :
  set_or_delete m spec !! k
  = if String.eqb (entry.key spec) k then entry.value spec else m !! k.
Proof.
  rewrite key_eq, value_eq. unfold set_or_delete.
  destruct (split_first_eq spec) as [[k' v]|]; cbn [fmap option_fmap option_map snd].
  - destruct (String.eqb k' k) eqn:E.
    + apply String.eqb_eq in E as ->. apply lookup_insert_eq.
    + apply String.eqb_neq in E. by apply lookup_insert_ne.
  - destruct (String.eqb spec k) eqn:E.
    + apply String.eqb_eq in E as ->. apply lookup_delete_eq.
    + apply String.eqb_neq in E. by apply lookup_delete_ne.
Qed.

Lemma fold_other l m k :
  Forall (fun e => entry.key e <> k) l ->
  fold_left set_or_delete l m !! k = m !! k.
Proof.
  revert m. induction l as [|e l IH]; intros m Hl; [done|].
  apply Forall_cons in Hl as [He Hl]. cbn [fold_left]. rewrite IH by done.
  rewrite lookup_set_or_delete. apply String.eqb_neq in He. by rewrite He.
Qed.

Lemma fold_last pre e post m :
  Forall (fun e' => entry.key e' <> entry.key e) post ->
  fold_left set_or_delete (pre ++ e :: post) m !! entry.key e = entry.value e.
Proof.
  intros Hpost. rewrite fold_left_app. cbn [fold_left]. rewrite fold_other by done.
  by rewrite lookup_set_or_delete, String.eqb_refl.
Qed.

(** Either no entry names the key, or there is a last one that does. *)
Lemma last_entry l k :
  Forall (fun e => entry.key e <> k) l
  \/ exists pre e post,
       l = pre ++ e :: post /\ entry.key e = k /\ Forall (fun e' => entry.key e' <> k) post.
Proof.
  induction l as [|x l IH]; [left; constructor|].
  destruct IH as [Hall | (pre & e & post & -> & He & Hpost)].
  - destruct (decide (entry.key x = k)) as [Hx | Hx].
    + right. by exists [], x, l.
    + left. by constructor.
  - right. by exists (x :: pre), e, post.
Qed.

(** The entries applied a second time change nothing. *)
Lemma fold_twice l m :
  fold_left set_or_delete l (fold_left set_or_delete l m) = fold_left set_or_delete l m.
Proof.
  apply map_eq. intros k.
  destruct (last_entry l k) as [Hall | (pre & e & post & -> & <- & Hpost)].
  - by rewrite !fold_other.
  - by rewrite !fold_last.
Qed.

(** The ports marked: every port of the list holds the marker, and the
    other keys hold what they held. *)
Lemma lookup_fold_port (l : list string) (m : gmap string iface) k :
  fold_left (fun m portSpec => <[portSpec := empty_struct]> m) l m !! k
  = if decide (k ∈ l) then Some empty_struct else m !! k.
Proof.
  revert m. induction l as [|p l IH]; intros m; [done|].
  cbn [fold_left]. rewrite IH.
  destruct (decide (k ∈ l)) as [Hin | Hout].
  - rewrite decide_True; [done | by right].
  - destruct (decide (k = p)) as [-> | Hne].
    + rewrite decide_True by left. apply lookup_insert_eq.
    + rewrite decide_False by (intros [? | ?]%elem_of_cons; done).
      by apply lookup_insert_ne.
Qed.

Lemma fold_port_twice (l : list string) (m : gmap string iface) :
  fold_left (fun m portSpec => <[portSpec := empty_struct]> m) l
    (fold_left (fun m portSpec => <[portSpec := empty_struct]> m) l m)
  = fold_left (fun m portSpec => <[portSpec := empty_struct]> m) l m.
Proof.
  apply map_eq. intros k. rewrite !lookup_fold_port. by destruct (decide (k ∈ l)).
Qed.

(** A flag that two command lines give alike leaves the same value. *)
Section same_flag.

Import command.

Variables c1 c2 : cli.Context.

Ltac same H :=
  destruct H as [Hs Hv]; cbn [Name] in Hs, Hv; rewrite <- Hs;
  destruct (cli.IsSet c1 _); [rewrite <- (Hv eq_refl)|]; reflexivity.

Lemma scalar_same n u v old :
  context.same_flag c1 c2 (StringFlag n u v) -> scalar c1 n old = scalar c2 n old.
Proof. intros H. unfold scalar. same H. Qed.

Lemma appended_same n u old :
  context.same_flag c1 c2 (StringSliceFlag n u) -> appended c1 n old = appended c2 n old.
Proof. intros H. unfold appended. same H. Qed.

Lemma parsed_same Parse n u v old :
  context.same_flag c1 c2 (StringFlag n u v) -> parsed Parse c1 n old = parsed Parse c2 n old.
Proof. intros H. unfold parsed. same H. Qed.

Lemma parse_log_same Parse n u v fmt :
  context.same_flag c1 c2 (StringFlag n u v) ->
  parse_log Parse c1 n fmt = parse_log Parse c2 n fmt.
Proof. intros H. unfold parse_log. same H. Qed.

Lemma relabelled_same n u old :
  context.same_flag c1 c2 (StringSliceFlag n u) -> relabelled c1 n old = relabelled c2 n old.
Proof. intros H. unfold relabelled. same H. Qed.

Lemma exposed_same u old :
  context.same_flag c1 c2 (StringSliceFlag "port" u) -> exposed c1 old = exposed c2 old.
Proof. intros H. unfold exposed. same H. Qed.

End same_flag.

End entry_facts.

Module update_more.

Import buildah main update main_facts main_closed entry_facts command.

(** X1: with [--port] given, Expose is a map (allocated if it was nil) in
    which every port of the command line holds the marker [struct{}{}],
    whatever it held before, and every other key holds what it held. *)
Theorem X1_port_marks_and_keeps
    (Parse : string -> result (list string)) (b : Builder) (c : cli.Context) :
  cli.IsSet c "port" = true ->
  exists m,
    Expose (fst (updateConfig Parse b c)) = Some m
    /\ forall k,
         m !! k = if decide (k ∈ cli.StringSlice c "port") then Some empty_struct
                  else default ∅ (Expose b) !! k.
Proof.
  intros Hset. rewrite updateConfig_closed. cbn [fst Expose]. unfold exposed. rewrite Hset.
  eexists. split; [reflexivity|]. intros k. apply lookup_fold_port.
Qed.

Lemma X1_witness :
  exists m,
    Expose (fst (updateConfig one_word example_builder
                   (context.command_line [] [("port", ["80/tcp"; "443"])]))) = Some m
    /\ forall k,
         m !! k = if decide (k ∈ ["80/tcp"; "443"]) then Some empty_struct
                  else (∅ : gmap string iface) !! k.
Proof.
  apply (X1_port_marks_and_keeps one_word example_builder
           (context.command_line [] [("port", ["80/tcp"; "443"])])).
  reflexivity.
Defined.

(** X2: with [--label] given, the last entry that names a key decides it:
    the key holds the value of that entry, or is absent when that entry has
    no [=]; the entries before it play no part.  [--annotation] likewise. *)
Theorem X2_last_entry_decides
    (Parse : string -> result (list string)) (b : Builder) (c : cli.Context)
    (flag : string) (field : Builder -> option (gmap string string))
    (pre post : list string) (e : string) :
  (flag = "label" /\ field = Labels) \/ (flag = "annotation" /\ field = Annotations) ->
  cli.IsSet c flag = true ->
  cli.StringSlice c flag = pre ++ e :: post ->
  Forall (fun e' => entry.key e' <> entry.key e) post ->
  exists m,
    field (fst (updateConfig Parse b c)) = Some m /\ m !! entry.key e = entry.value e.
Proof.
  intros Hflag Hset Hl Hpost. rewrite updateConfig_closed. cbn [fst].
  destruct Hflag as [[-> ->] | [-> ->]]; cbn [Labels Annotations];
    unfold relabelled; rewrite Hset, Hl;
    (eexists; split; [reflexivity|]); by apply fold_last.
Qed.

Lemma X2_witness :
  exists m,
    Labels (fst (updateConfig one_word example_builder
                   (context.command_line [] [("label", ["a=1"; "b=2"; "a"; "b=3=4"])])))
    = Some m
    /\ m !! entry.key "b=3=4" = entry.value "b=3=4".
Proof.
  apply (X2_last_entry_decides one_word example_builder
           (context.command_line [] [("label", ["a=1"; "b=2"; "a"; "b=3=4"])])
           "label" Labels ["a=1"; "b=2"; "a"] [] "b=3=4").
  - left. split; reflexivity.
  - reflexivity.
  - reflexivity.
  - constructor.
Defined.

(** X3: with [--label] given, a key that no entry names holds what it held
    before the update (nothing, if Labels was nil).  [--annotation]
    likewise. *)
Theorem X3_unnamed_keys_are_kept
    (Parse : string -> result (list string)) (b : Builder) (c : cli.Context)
    (flag : string) (field : Builder -> option (gmap string string)) (k : string) :
  (flag = "label" /\ field = Labels) \/ (flag = "annotation" /\ field = Annotations) ->
  cli.IsSet c flag = true ->
  Forall (fun e => entry.key e <> k) (cli.StringSlice c flag) ->
  exists m,
    field (fst (updateConfig Parse b c)) = Some m /\ m !! k = default ∅ (field b) !! k.
Proof.
  intros Hflag Hset Hl. rewrite updateConfig_closed. cbn [fst].
  destruct Hflag as [[-> ->] | [-> ->]]; cbn [Labels Annotations];
    unfold relabelled; rewrite Hset;
    (eexists; split; [reflexivity|]); by apply fold_other.
Qed.

Lemma X3_witness :
  exists m,
    Labels (fst (updateConfig one_word example_builder (example_flags ["label"]))) = Some m
    /\ m !! "c" = default ∅ (Labels example_builder) !! "c".
Proof.
  apply (X3_unnamed_keys_are_kept one_word example_builder (example_flags ["label"])
           "label" Labels "c").
  - left. split; reflexivity.
  - reflexivity.
  - repeat constructor; intros H; discriminate H.
Defined.

(** X4: an update without [--env] and [--volume] can be repeated: applied
    to its own result it gives the same record and logs the same entries.
    (With [--env] or [--volume] the values are appended once more.) *)
Theorem X4_update_can_be_repeated
    (Parse : string -> result (list string)) (b : Builder) (c : cli.Context) :
  cli.IsSet c "env" = false ->
  cli.IsSet c "volume" = false ->
  updateConfig Parse (fst (updateConfig Parse b c)) c = updateConfig Parse b c.
Proof.
  intros Henv Hvol. rewrite !updateConfig_closed. cbn [fst]. f_equal.
  cbn [store Type_ FromImage Config Manifest Container ContainerID MountPoint Mounts Links
       Annotations CreatedBy OS Architecture Maintainer User Workdir Env Cmd Entrypoint
       Expose Labels Volumes Arg].
  unfold scalar, appended, parsed, relabelled, exposed. rewrite Henv, Hvol.
  f_equal;
    repeat match goal with
    | |- context [cli.IsSet c ?f] => destruct (cli.IsSet c f)
    | |- context [Parse ?s] => destruct (Parse s)
    end; cbn [default from_option id]; rewrite ?fold_twice, ?fold_port_twice; reflexivity.
Qed.

Lemma X4_witness :
  updateConfig one_word
    (fst (updateConfig one_word example_builder (example_flags ["label"; "os"; "entrypoint"])))
    (example_flags ["label"; "os"; "entrypoint"])
  = updateConfig one_word example_builder (example_flags ["label"; "os"; "entrypoint"]).
Proof.
  apply (X4_update_can_be_repeated one_word example_builder
           (example_flags ["label"; "os"; "entrypoint"])); reflexivity.
Defined.

(** X5: [updateConfig] reads the command line through the flags of the
    table [configurationFlags] alone, each as the table declares it: two
    command lines that give these thirteen flags alike leave the same record
    and the same log, whatever else they hold. *)
Theorem X5_only_declared_flags_are_read
    (Parse : string -> result (list string)) (b : Builder) (c1 c2 : cli.Context) :
  Forall (context.same_flag c1 c2) configurationFlags ->
  updateConfig Parse b c1 = updateConfig Parse b c2.
Proof.
  intros H. unfold configurationFlags in H.
  repeat match type of H with
  | Forall _ (_ :: _) => let Hf := fresh "Hf" in apply Forall_cons in H as [Hf H]
  end.
  clear H. rewrite !updateConfig_closed.
  f_equal; [f_equal|f_equal];
    first [ reflexivity
          | eapply scalar_same; eassumption
          | eapply appended_same; eassumption
          | eapply parsed_same; eassumption
          | eapply parse_log_same; eassumption
          | eapply relabelled_same; eassumption
          | eapply exposed_same; eassumption ].
Qed.

Lemma X5_witness :
  updateConfig one_word example_builder (example_flags ["os"; "label"])
  = updateConfig one_word example_builder
      (context.command_line [("os", "linux"); ("name", "c1")] [("label", ["a=1"; "b"])]).
Proof.
  apply (X5_only_declared_flags_are_read one_word example_builder
           (example_flags ["os"; "label"])
           (context.command_line [("os", "linux"); ("name", "c1")] [("label", ["a=1"; "b"])])).
  repeat constructor; try reflexivity; intros H; try discriminate H; reflexivity.
Defined.

End update_more.

(** ** UTF-8: a text cut at an ASCII character *)

Module utf8_cut.

Import string_facts utf8_facts.

Lemma take_app_le (n : nat) (s t : string) :
  n <= String.length s -> take_str n (s +:+ t) = take_str n s.
Proof.
  revert s. induction n as [|n IH]; intros [|c s] H; cbn in H; try lia.
  - by destruct t.
  - done.
  - rewrite append_cons. cbn [take_str]. rewrite IH; [done | lia].
Qed.

Lemma drop_app_le (n : nat) (s t : string) :
  n <= String.length s -> drop_str n (s +:+ t) = drop_str n s +:+ t.
Proof.
  revert s. induction n as [|n IH]; intros [|c s] H; cbn in H; try lia.
  - by destruct t.
  - done.
  - rewrite append_cons. cbn [drop_str]. apply IH. lia.
Qed.

(** The bytes of a sequence that [DecodeRune] accepts at a byte that is
    not ASCII are none of them ASCII. *)
Lemma DecodeRune_no_ascii (c0 : ascii) (s1 : string) :
  (byte c0 <? utf8.RuneSelf)%N = false ->
  utf8.invalid (utf8.DecodeRune (String c0 s1)) = false ->
  text.no_ascii (take_str (snd (utf8.DecodeRune (String c0 s1))) (String c0 s1)) = true.
Proof.
  unfold utf8.RuneSelf. intros H0 Hv.
  assert (Hr : forall c lo hi, (0x80 <= lo)%N -> in_range c lo hi = true ->
                 negb (byte c <? 0x80)%N = true).
  { intros c lo hi Hlo Hc. apply in_range_bounds in Hc. apply negb_true_iff, N.ltb_ge. lia. }
  assert (Hlo3 : (0x80 <= (if (byte c0 =? 0xE0)%N then 0xA0 else 0x80))%N)
    by (destruct (byte c0 =? 0xE0)%N; lia).
  assert (Hlo4 : (0x80 <= (if (byte c0 =? 0xF0)%N then 0x90 else 0x80))%N)
    by (destruct (byte c0 =? 0xF0)%N; lia).
  unfold utf8.DecodeRune in *. rewrite H0 in *.
  destruct (byte c0 <? 0xC2)%N eqn:H1; [discriminate Hv|].
  destruct (byte c0 <? 0xE0)%N eqn:H2.
  { destruct s1 as [|c1 s2]; [discriminate Hv|].
    destruct (in_range c1 0x80 0xBF) eqn:R1; [|discriminate Hv].
    cbn [fst snd take_str text.no_ascii]. unfold utf8.RuneSelf.
    by rewrite H0, (Hr _ _ _ (N.le_refl _) R1). }
  destruct (byte c0 <? 0xF0)%N eqn:H3.
  { destruct s1 as [|c1 [|c2 s3]]; [discriminate Hv | discriminate Hv |].
    destruct (in_range c1 _ _) eqn:R1; [|discriminate Hv].
    destruct (in_range c2 0x80 0xBF) eqn:R2; [|discriminate Hv].
    cbn [fst snd take_str text.no_ascii andb]. unfold utf8.RuneSelf.
    by rewrite H0, (Hr _ _ _ Hlo3 R1), (Hr _ _ _ (N.le_refl _) R2). }
  destruct (byte c0 <? 0xF5)%N eqn:H4; [|discriminate Hv].
  destruct s1 as [|c1 [|c2 [|c3 s4]]]; [discriminate Hv | discriminate Hv | discriminate Hv |].
  destruct (in_range c1 _ _) eqn:R1; [|discriminate Hv].
  destruct (in_range c2 0x80 0xBF) eqn:R2; [|discriminate Hv].
  destruct (in_range c3 0x80 0xBF) eqn:R3; [|discriminate Hv].
  cbn [fst snd take_str text.no_ascii andb]. unfold utf8.RuneSelf.
  by rewrite H0, (Hr _ _ _ Hlo4 R1), (Hr _ _ _ (N.le_refl _) R2), (Hr _ _ _ (N.le_refl _) R3).
Qed.

(** A run without ASCII ends before the first ASCII character. *)
Lemma no_ascii_before (n : nat) (a : string) (c : ascii) (b : string) :
  (byte c <? utf8.RuneSelf)%N = true ->
  text.no_ascii (take_str n (a +:+ String c b)) = true ->
  n <= String.length a.
Proof.
  intros Hc. revert a. induction n as [|n IH]; intros a H; [lia|].
  destruct a as [|x a].
  - rewrite append_nil in H. cbn [take_str text.no_ascii] in H. rewrite Hc in H.
    discriminate H.
  - rewrite append_cons in H. cbn [take_str text.no_ascii] in H.
    apply andb_true_iff in H as [_ H]. cbn [String.length]. apply IH in H. lia.
Qed.

(** Fuel beyond the length of the text changes nothing. *)
Lemma valid_from_fuel (f g : nat) (s : string) :
  String.length s <= f -> String.length s <= g ->
  utf8.valid_from f s = utf8.valid_from g s.
Proof.
  revert g s. induction f as [|f IH]; intros g s Hf Hg.
  - destruct s; [by destruct g | cbn in Hf; lia].
  - destruct s as [|c s]; [by destruct g|].
    destruct g as [|g]; [cbn in Hg; lia|]. cbn [String.length] in Hf, Hg.
    cbn [utf8.valid_from].
    destruct (byte c <? utf8.RuneSelf)%N eqn:Hc; [apply IH; lia|].
    destruct (utf8.invalid (utf8.DecodeRune (String c s))) eqn:Hv; [done|].
    destruct (DecodeRune_wellformed c s Hc Hv) as (Hn & _ & _).
    apply IH; rewrite length_drop; cbn [String.length]; lia.
Qed.

Lemma valid_from_cut (c : ascii) (b : string) :
  (byte c <? utf8.RuneSelf)%N = true ->
  forall f a,
    String.length a <= f ->
    utf8.valid_from (f + S (String.length b)) (a +:+ String c b) = true ->
    utf8.valid_from f a = true /\ utf8.ValidString b = true.
Proof.
  intros Hc. induction f as [|f IH]; intros a Hf H.
  - destruct a; [|cbn in Hf; lia]. split; [done|].
    cbn [Nat.add] in H. rewrite append_nil in H. cbn [utf8.valid_from] in H.
    by rewrite Hc in H.
  - destruct a as [|x a].
    + split; [done|]. rewrite append_nil in H.
      rewrite Nat.add_succ_r in H. cbn [utf8.valid_from] in H. rewrite Hc in H.
      unfold utf8.ValidString. rewrite <- H. apply valid_from_fuel; lia.
    + cbn [String.length] in Hf. rewrite append_cons in H.
      cbn [Nat.add utf8.valid_from] in H |- *.
      destruct (byte x <? utf8.RuneSelf)%N eqn:Hx; [apply IH; [lia | done]|].
      destruct (utf8.invalid (utf8.DecodeRune (String x (a +:+ String c b)))) eqn:Hv;
        [discriminate H|].
      destruct (DecodeRune_wellformed _ _ Hx Hv) as (Hn & Hpre & _).
      pose proof (DecodeRune_no_ascii _ _ Hx Hv) as Hhigh.
      rewrite <- append_cons in Hhigh, Hpre, H, Hv, Hn.
      set (n := snd (utf8.DecodeRune (String x a +:+ String c b))) in *.
      apply (no_ascii_before n (String x a) c b Hc) in Hhigh.
      assert (Hd : utf8.DecodeRune (String x a) = utf8.DecodeRune (String x a +:+ String c b)).
      { rewrite <- (Hpre (drop_str n (String x a))).
        rewrite take_app_le by done. by rewrite take_drop. }
      rewrite Hd, Hv. fold n.
      rewrite drop_app_le in H by done.
      apply IH; [|done]. rewrite length_drop. cbn [String.length] in *. lia.
Qed.

(** The texts on both sides of an ASCII character of a valid text are
    valid. *)
Lemma ValidString_cut (a : string) (c : ascii) (b : string) :
  (byte c <? utf8.RuneSelf)%N = true ->
  utf8.ValidString (a +:+ String c b) = true ->
  utf8.ValidString a = true /\ utf8.ValidString b = true.
Proof.
  intros Hc H. unfold utf8.ValidString in H. rewrite length_app in H.
  by apply (valid_from_cut c b Hc (String.length a) a).
Qed.

End utf8_cut.

(** ** The configuration update keeps the record encodable *)

Module valid_update.

Import buildah main update main_facts main_closed roundtrip utf8_cut.

Lemma split_first_eq_text s k v :
  split_first_eq s = Some (k, v) -> s = k +:+ "=" +:+ v.
Proof.
  revert k. induction s as [|c s IH]; intros k H; [discriminate H|].
  cbn [split_first_eq] in H. destruct (Ascii.eqb c "=") eqn:E.
  - apply Ascii.eqb_eq in E as ->. by injection H as <- <-.
  - destruct (split_first_eq s) as [[k' v']|]; [|discriminate H].
    injection H as <- <-. rewrite string_facts.append_cons. f_equal. by apply IH.
Qed.

(** The key and the value of a valid entry are valid. *)
Lemma split_first_eq_valid s k v :
  valid s -> split_first_eq s = Some (k, v) -> valid k /\ valid v.
Proof.
  intros Hs H. apply split_first_eq_text in H as ->.
  by apply (ValidString_cut k "=" v).
Qed.

Lemma set_or_delete_valid m e :
  valid_map (Some m) -> valid e -> valid_map (Some (set_or_delete m e)).
Proof.
  cbn [valid_map]. intros Hm He. unfold set_or_delete.
  destruct (split_first_eq e) as [[k v]|] eqn:E.
  - apply map_Forall_insert_2; [|done]. by apply (split_first_eq_valid e).
  - by apply map_Forall_delete.
Qed.

Lemma fold_set_or_delete_valid l m :
  valid_map (Some m) -> Forall valid l -> valid_map (Some (fold_left set_or_delete l m)).
Proof.
  revert m. induction l as [|e l IH]; intros m Hm Hl; [done|].
  apply Forall_cons in Hl as [He Hl]. cbn [fold_left]. apply IH; [|done].
  by apply set_or_delete_valid.
Qed.

Lemma relabelled_valid c flag old :
  context.valid c -> valid_map old -> valid_map (relabelled c flag old).
Proof.
  intros Hc Hold. unfold relabelled. destruct (cli.IsSet c flag); [|done].
  apply fold_set_or_delete_valid; [|apply Hc].
  destruct old as [m|]; [done|]. cbn. apply map_Forall_empty.
Qed.

Lemma exposed_valid c old :
  context.valid c -> valid_expose old -> valid_expose (exposed c old).
Proof.
  intros Hc Hold. unfold exposed. destruct (cli.IsSet c "port"); [|done].
  assert (Hl : Forall valid (cli.StringSlice c "port")) by apply Hc.
  assert (Hm : valid_expose (Some (default ∅ old))).
  { destruct old as [m|]; [done|]. cbn. apply map_Forall_empty. }
  revert Hl Hm. generalize (default ∅ old). generalize (cli.StringSlice c "port").
  induction l as [|p l IH]; intros m Hl Hm; [done|].
  apply Forall_cons in Hl as [Hp Hl]. cbn [fold_left]. apply IH; [done|].
  cbn [valid_expose] in *. apply map_Forall_insert_2; [|done]. split; [done | by left].
Qed.

Lemma scalar_valid c flag old :
  context.valid c -> valid old -> valid (scalar c flag old).
Proof. intros Hc Hold. unfold scalar. destruct (cli.IsSet c flag); [apply Hc | done]. Qed.

Lemma appended_valid c flag old :
  context.valid c -> Forall valid old -> Forall valid (appended c flag old).
Proof.
  intros Hc Hold. unfold appended. destruct (cli.IsSet c flag); [|done].
  apply Forall_app. split; [done | apply Hc].
Qed.

Lemma parsed_valid Parse c flag old :
  context.valid c -> context.valid_words Parse -> Forall valid old ->
  Forall valid (parsed Parse c flag old).
Proof.
  intros Hc HP Hold. unfold parsed. destruct (cli.IsSet c flag); [|done].
  destruct (Parse (cli.String_ c flag)) as [spec|] eqn:E; [|done].
  apply (HP _ _ (proj1 (Hc flag)) E).
Qed.

(** With a command line and a tokenizer that give valid UTF-8,
    [updateConfig] leaves a record that can be written and read back when it
    was given one. *)
Lemma updateConfig_encodable Parse b c :
  context.valid c -> context.valid_words Parse -> encodable b ->
  encodable (fst (updateConfig Parse b c)).
Proof.
  intros Hc HP (H1 & H2 & H3 & H4 & H5 & H6 & H7 & H8 & H9 & H10 & H11 & H12 & H13 & H14
                & H15 & H16 & H17 & H18 & H19 & H20 & H21).
  rewrite updateConfig_closed. unfold encodable.
  cbn [fst store Type_ FromImage Config Manifest Container ContainerID MountPoint Mounts Links
       Annotations CreatedBy OS Architecture Maintainer User Workdir Env Cmd Entrypoint
       Expose Labels Volumes Arg].
  repeat split;
    first [ assumption
          | by apply scalar_valid | by apply appended_valid | by apply parsed_valid
          | by apply relabelled_valid | by apply exposed_valid ].
Qed.

(** A map whose entries pass the test holds valid UTF-8 alone. *)
Lemma valid_map_checked (m : gmap string string) :
  forallb (fun kv => utf8.ValidString (fst kv) && utf8.ValidString (snd kv)) (map_to_list m)
  = true ->
  valid_map (Some m).
Proof.
  intros H k v Hkv. rewrite forallb_forall in H.
  apply elem_of_map_to_list, list_elem_of_In, H, andb_true_iff in Hkv. exact Hkv.
Qed.

Lemma command_line_valid strs slices :
  Forall (fun kv => valid (snd kv)) strs ->
  Forall (fun kv => Forall valid (snd kv)) slices ->
  context.valid (context.command_line strs slices).
Proof.
  intros Hs Hl flag. cbn [context.command_line cli.String_ cli.StringSlice]. split.
  - destruct (List.find _ strs) as [kv|] eqn:E; [|done].
    apply find_some in E as [Hin _]. rewrite List.Forall_forall in Hs. by apply Hs.
  - destruct (List.find _ slices) as [kv|] eqn:E; [|constructor].
    apply find_some in E as [Hin _]. rewrite List.Forall_forall in Hl. by apply Hl.
Qed.

Lemma one_word_valid : context.valid_words one_word.
Proof.
  intros s spec Hs. unfold one_word. destruct (occurs "'" s); [done|].
  intros [= <-]. by constructor.
Qed.

Lemma example_builder_encodable : encodable example_builder.
Proof.
  unfold encodable.
  repeat lazymatch goal with
  | |- _ /\ _ => split
  end;
    first [ reflexivity | exact I
          | apply valid_map_checked; vm_compute; reflexivity
          | repeat constructor; reflexivity ].
Qed.

(** X6: with a command line and a tokenizer that give valid UTF-8,
    [updateConfig] keeps a record encodable: when every string of the
    Builder is valid UTF-8 and Expose holds values that can be written, the
    same is true of the Builder it leaves, so that Save writes it as it
    is. *)
Theorem X6_update_keeps_the_record_encodable
    (Parse : string -> result (list string)) (b : Builder) (c : cli.Context) :
  context.valid c -> context.valid_words Parse -> encodable b ->
  encodable (fst (updateConfig Parse b c)).
Proof. apply updateConfig_encodable. Qed.

Lemma X6_witness :
  encodable (fst (updateConfig one_word example_builder
                    (context.command_line [("os", "linux"); ("cmd", "/bin/true")]
                       [("label", ["a=1"; "b"]); ("port", ["80/tcp"])]))).
Proof.
  apply (X6_update_keeps_the_record_encodable one_word example_builder
           (context.command_line [("os", "linux"); ("cmd", "/bin/true")]
              [("label", ["a=1"; "b"]); ("port", ["80/tcp"])])).
  - apply command_line_valid; repeat constructor; reflexivity.
  - apply one_word_valid.
  - apply example_builder_encodable.
Defined.

End valid_update.

(** ** The command [buildah config] *)

Module command_facts.

Import buildah main update command saving roundtrip valid_update.



Section configCmd.

Variable Join : string -> string -> string.
Variable Parse : string -> result (list string).
Variable getStore : cli.Context -> outcome (result storage.Store).
Variable openBuilder :
  FS -> storage.Store -> string -> string -> string -> outcome (option Builder * option error).

(** The test of line 211. *)
Lemma no_container_named c :
  String.eqb (flag_or_empty c "name") EmptyString
  && String.eqb (flag_or_empty c "root") EmptyString
  && String.eqb (flag_or_empty c "link") EmptyString = true
  <-> ~ context.names_container c "name" /\ ~ context.names_container c "root"
      /\ ~ context.names_container c "link".
Proof.
  assert (H : forall flag,
            String.eqb (flag_or_empty c flag) EmptyString = true
            <-> ~ context.names_container c flag).
  { intros flag. unfold flag_or_empty, context.names_container.
    destruct (cli.IsSet c flag).
    - rewrite String.eqb_eq. split; [intros -> [_ H]; done|].
      intros Hn. destruct (decide (cli.String_ c flag = EmptyString)); [done|].
      destruct Hn. done.
    - split; [intros _ [H _]; done | done]. }
  rewrite !andb_true_iff, !H. tauto.
Qed.


Lemma Save_returns_nil f fs b states :
  Save Join f fs b = (states, Returns None) ->
  exists data t,
    Marshal b = Ok data /\ metadata_file Join b = Some t
    /\ final fs states !! t = Some data.
Proof.
  intros HS. unfold Save, metadata_file in *.
  destruct (Marshal b) as [data|]; [|by injection HS].
  destruct (store b) as [st|]; [|by injection HS].
  destruct (storage.GetContainerDirectory st (ContainerID b)) as [cdir|]; [|by injection HS].
  destruct (ioutils.AtomicWriteFile f fs (Join cdir stateFile) data) as [states' err] eqn:E.
  injection HS as <- ->. exists data, (Join cdir stateFile). split; [done|]. split; [done|].
  apply (saving_facts.AtomicWriteFile_final _ _ _ _ _ _ (Join cdir stateFile) E).
  apply not_eq_sym, saving_facts.temp_name_fresh.
Qed.

(** X7: without a container named ([--name], [--root] and [--link] each
    either not given or given as the empty string), [configCmd] returns the
    error of line 212, whatever the Store, the files and the other flags
    are, and writes nothing. *)
Theorem X7_command_needs_a_container (f : ioutils.fault) (fs : FS) (c : cli.Context) :
  ~ context.names_container c "name" ->
  ~ context.names_container c "root" ->
  ~ context.names_container c "link" ->
  configCmd Join Parse getStore openBuilder f fs c
  = ([], Returns ([], Some (bare (Errorf
       "either --name or --root or --link, or some combination, must be specified")))).
Proof.
  intros Hn Hr Hl. unfold configCmd.
  by rewrite (proj2 (no_container_named c) (conj Hn (conj Hr Hl))).
Qed.


(** X9: when [configCmd] returns nil, a Store was obtained and a Builder
    opened for the names of the command line, the log is that of
    [updateConfig], and the metadata file of that Builder holds, when the
    call is over, the complete encoding of the Builder as [updateConfig]
    left it. *)
Theorem X9_successful_command_saves_the_update
    (f : ioutils.fault) (fs : FS) (c : cli.Context) (log : list logrus.entry) :
  snd (configCmd Join Parse getStore openBuilder f fs c) = Returns (log, None) ->
  exists st b data t,
    getStore c = Returns (Ok st)
    /\ openBuilder fs st (flag_or_empty c "name") (flag_or_empty c "root")
         (flag_or_empty c "link") = Returns (Some b, None)
    /\ log = snd (updateConfig Parse b c)
    /\ Marshal (fst (updateConfig Parse b c)) = Ok data
    /\ metadata_file Join b = Some t
    /\ final fs (fst (configCmd Join Parse getStore openBuilder f fs c)) !! t = Some data.
Proof.
  unfold configCmd. intros H.
  destruct (_ && _); [discriminate H|].
  destruct (getStore c) as [[st|e]|] eqn:Hstore; [|discriminate H | discriminate H].
  destruct (openBuilder fs st _ _ _) as [[[b|] [e|]]|] eqn:Hopen; try discriminate H.
  pose proof (main_closed.updateConfig_closed Parse b c) as Hc.
  destruct (updateConfig Parse b c) as [b' log'] eqn:HU.
  destruct (Save Join f fs b') as [states [err|]] eqn:HS; cbn [fst snd] in H |- *;
    [|discriminate H].
  destruct err as [e|]; cbn [fmap option_fmap option_map] in H; [discriminate H|].
  injection H as <-.
  destruct (Save_returns_nil _ _ _ _ HS) as (data & t & HM & Ht & Hfin).
  assert (Hmeta : metadata_file Join b = Some t).
  { unfold metadata_file in *. injection Hc as -> _. exact Ht. }
  exists st, b, data, t. rewrite HU. cbn [fst snd]. done.
Qed.



End configCmd.

Lemma X7_witness :
  configCmd resolver.join_slash one_word (context.store_of context.example_store)
    context.open_by_name ioutils.no_fault context.example_files
    (context.command_line [("name", EmptyString); ("os", "linux")] [])
  = ([], Returns ([], Some (bare (Errorf
       "either --name or --root or --link, or some combination, must be specified")))).
Proof.
  apply (X7_command_needs_a_container resolver.join_slash one_word
           (context.store_of context.example_store) context.open_by_name ioutils.no_fault
           context.example_files
           (context.command_line [("name", EmptyString); ("os", "linux")] []));
    intros [H1 H2]; first [discriminate H1 | by apply H2].
Defined.


Lemma X9_witness :
  exists st b data t,
    context.store_of context.example_store
      (context.command_line [("name", "c1"); ("os", "linux")] []) = Returns (Ok st)
    /\ context.open_by_name context.example_files st "c1" EmptyString EmptyString
       = Returns (Some b, None)
    /\ [] = snd (updateConfig one_word b
                   (context.command_line [("name", "c1"); ("os", "linux")] []))
    /\ Marshal (fst (updateConfig one_word b
                       (context.command_line [("name", "c1"); ("os", "linux")] [])))
       = Ok data
    /\ metadata_file resolver.join_slash b = Some t
    /\ final context.example_files
         (fst (configCmd resolver.join_slash one_word (context.store_of context.example_store)
                 context.open_by_name ioutils.no_fault context.example_files
                 (context.command_line [("name", "c1"); ("os", "linux")] []))) !! t
       = Some data.
Proof.
  apply (X9_successful_command_saves_the_update resolver.join_slash one_word
           (context.store_of context.example_store) context.open_by_name ioutils.no_fault
           context.example_files
           (context.command_line [("name", "c1"); ("os", "linux")] []) []).
  vm_compute. reflexivity.
Defined.


End command_facts.

(** ** Opening a Builder: what is returned, what is passed over, what stops the scan *)

Module resolver_more.

Import buildah resolver resolver_facts.

(** What follows a container is scanned alike whatever stands before. *)
Lemma scan_congr st P pre rest1 rest2 :
  scan_containers st P rest1 = scan_containers st P rest2 ->
  scan_containers st P (pre ++ rest1) = scan_containers st P (pre ++ rest2).
Proof.
  intros H. induction pre as [|c pre IH]; [done|].
  cbn [app scan_containers].
  destruct (storage.GetMetadata st (storage.ID c)) as [md|]; [|done].
  destruct (Unmarshal md zero) as [[b|]|]; [|done|done].
  by destruct (String.eqb (Type_ b) containerType && builderMatchesPath b P).
Qed.

(** A scan that returns a Builder has passed over the containers before
    the one it is the record of. *)
Lemma scan_returns st P cs b' :
  scan_containers st P cs = Returns (Ok b') ->
  exists pre c post b,
    cs = pre ++ c :: post
    /\ Forall (readable st) pre /\ Forall (no_match st P) pre
    /\ record_of st c = Some b /\ matches b P
    /\ b' = set_store (Some st) b.
Proof.
  induction cs as [|c cs IH]; [done|].
  cbn [scan_containers].
  destruct (storage.GetMetadata st (storage.ID c)) as [md|] eqn:Hmd; [|done].
  destruct (Unmarshal md zero) as [[b|]|e] eqn:Hdec; [|done|].
  - destruct (String.eqb (Type_ b) containerType) eqn:Hty; cbn [andb].
    + destruct (builderMatchesPath b P) eqn:Hm.
      * intros [= <-]. exists [], c, cs, b.
        split; [done|]. split; [constructor|]. split; [constructor|].
        split; [unfold record_of; by rewrite Hmd, Hdec, Hty|].
        split; [by apply builderMatchesPath_matches | done].
      * intros (pre & c' & post & b0 & -> & Hr & Hn & Hrec & Hmatch & ->)%IH.
        exists (c :: pre), c', post, b0. split; [done|]. split; [|split; [|done]].
        -- constructor; [|done]. exists md. by rewrite Hdec.
        -- constructor; [|done]. intros b1. unfold record_of. rewrite Hmd, Hdec, Hty.
           intros [= <-]. rewrite <- builderMatchesPath_matches. by rewrite Hm.
    + intros (pre & c' & post & b0 & -> & Hr & Hn & Hrec & Hmatch & ->)%IH.
      exists (c :: pre), c', post, b0. split; [done|]. split; [|split; [|done]].
      * constructor; [|done]. exists md. by rewrite Hdec.
      * constructor; [|done]. intros b1. unfold record_of. by rewrite Hmd, Hdec, Hty.
  - intros (pre & c' & post & b0 & -> & Hr & Hn & Hrec & Hmatch & ->)%IH.
    exists (c :: pre), c', post, b0. split; [done|]. split; [|split; [|done]].
    + constructor; [|done]. exists md. by rewrite Hdec.
    + constructor; [|done]. intros b1. unfold record_of. by rewrite Hmd, Hdec.
Qed.

Section paths.

Variable Join : string -> string -> string.
Variable Abs : string -> result string.

(** X11: [OpenBuilder] returns a Builder in one case alone: the Store
    gives the directory of the container, the state file in it can be read
    and decodes to a record, and the record has the fixed type tag; the
    Builder returned is that record holding the Store. *)
Theorem X11_OpenBuilder_returns_exactly (fs : FS) (st : storage.Store)
    (container : string) (b' : Builder) :
  OpenBuilder Join fs st container = Returns (Ok b')
  <-> exists cdir data b,
        storage.GetContainerDirectory st container = Ok cdir
        /\ fs !! Join cdir stateFile = Some data
        /\ Unmarshal data zero = Ok (Some b)
        /\ Type_ b = containerType
        /\ b' = set_store (Some st) b.
Proof.
  unfold OpenBuilder, ReadFile. split.
  - destruct (storage.GetContainerDirectory st container) as [cdir|]; [|done].
    destruct (fs !! Join cdir stateFile) as [data|] eqn:Hfile; [|done].
    destruct (Unmarshal data zero) as [[b|]|] eqn:Hdec; [|done|done].
    destruct (String.eqb (Type_ b) containerType) eqn:Hty; [|done].
    intros [= <-]. exists cdir, data, b. apply String.eqb_eq in Hty. done.
  - intros (cdir & data & b & -> & -> & -> & Hty & ->).
    apply String.eqb_eq in Hty. by rewrite Hty.
Qed.

(** X12: [OpenBuilderByPath] returns a Builder in one case alone: the Store
    lists its containers, the path is made absolute, and some container has
    a record (its metadata decodes to a record with the fixed type tag) that
    the absolute path matches, while every container listed before it could
    be read and has no such record; the Builder returned is the record of
    that container, holding the Store. *)
Theorem X12_OpenBuilderByPath_returns_exactly (st : storage.Store) (path : string)
    (b' : Builder) :
  OpenBuilderByPath Abs st path = Returns (Ok b')
  <-> exists P pre c post b,
        storage.Containers st = Ok (pre ++ c :: post)
        /\ Abs path = Ok P
        /\ Forall (readable st) pre /\ Forall (no_match st P) pre
        /\ record_of st c = Some b /\ matches b P
        /\ b' = set_store (Some st) b.
Proof.
  unfold OpenBuilderByPath. split.
  - destruct (storage.Containers st) as [cs|]; [|done].
    destruct (Abs path) as [P|]; [|done].
    intros (pre & c & post & b & -> & Hr & Hn & Hrec & Hm & ->)%scan_returns.
    by exists P, pre, c, post, b.
  - intros (P & pre & c & post & b & -> & -> & Hr & Hn & Hrec & Hm & ->).
    by apply scan_first_match.
Qed.

(** X13: a Store error on the metadata of a container stops the scan:
    when the containers listed before it could be read and have no matching
    record, [OpenBuilderByPath] returns that error, whatever the containers
    listed after it hold. *)
Theorem X13_metadata_error_stops_the_scan (st : storage.Store) (path P : string)
    (pre post : list storage.Container) (c : storage.Container) (e : error) :
  storage.Containers st = Ok (pre ++ c :: post) ->
  Abs path = Ok P ->
  Forall (readable st) pre -> Forall (no_match st P) pre ->
  storage.GetMetadata st (storage.ID c) = Err e ->
  OpenBuilderByPath Abs st path = Returns (Err e).
Proof.
  intros Hcs Habs Hr Hn He. unfold OpenBuilderByPath. rewrite Hcs, Habs. clear Hcs.
  induction pre as [|c' pre IH].
  - cbn [app scan_containers]. by rewrite He.
  - apply Forall_cons in Hr as [Hr1 Hr]. apply Forall_cons in Hn as [Hn1 Hn].
    rewrite <- app_comm_cons, scan_skip by done. by apply IH.
Qed.

(** X14: a container whose metadata does not decode, or decodes to a
    record with another type tag or one that the path does not match, is
    passed over wherever it stands in the list: the result is that of the
    scan of the other containers. *)
Theorem X14_other_containers_are_passed_over (st : storage.Store) (path P : string)
    (pre post : list storage.Container) (c : storage.Container) (md : string) :
  storage.Containers st = Ok (pre ++ c :: post) ->
  Abs path = Ok P ->
  storage.GetMetadata st (storage.ID c) = Ok md ->
  (exists e, Unmarshal md zero = Err e)
  \/ (exists b, Unmarshal md zero = Ok (Some b)
                /\ (Type_ b <> containerType \/ builderMatchesPath b P = false)) ->
  OpenBuilderByPath Abs st path = scan_containers st P (pre ++ post).
Proof.
  intros Hcs Habs Hmd Hskip. unfold OpenBuilderByPath. rewrite Hcs, Habs.
  apply scan_congr. cbn [scan_containers]. rewrite Hmd.
  destruct Hskip as [(e & ->) | (b & -> & [Hty | Hm])]; [done | |].
  - apply String.eqb_neq in Hty. by rewrite Hty.
  - rewrite Hm. by rewrite andb_false_r.
Qed.


End paths.

Lemma X13_witness :
  OpenBuilderByPath abs_id (two_containers (Err (ExternalError "i/o error"))) "/mnt/c2"
  = Returns (Err (ExternalError "i/o error")).
Proof.
  apply (X13_metadata_error_stops_the_scan abs_id
           (two_containers (Err (ExternalError "i/o error"))) "/mnt/c2" "/mnt/c2"
           [] [ {| storage.ID := "c2" |} ] {| storage.ID := "c1" |}
           (ExternalError "i/o error")); try reflexivity; constructor.
Defined.

Lemma X14_witness :
  OpenBuilderByPath abs_id (two_containers (Ok "not json")) "/mnt/c2"
  = scan_containers (two_containers (Ok "not json")) "/mnt/c2" ([] ++ [ {| storage.ID := "c2" |} ]).
Proof.
  apply (X14_other_containers_are_passed_over abs_id (two_containers (Ok "not json"))
           "/mnt/c2" "/mnt/c2" [] [ {| storage.ID := "c2" |} ] {| storage.ID := "c1" |}
           "not json"); try reflexivity.
  left. exists SyntaxError. vm_compute. reflexivity.
Defined.


End resolver_more.

(** ** Writing and reading back, once more *)

Module roundtrip_more.

Import buildah roundtrip marshal_facts unmarshal_facts roundtrip_facts.









(** *** The text is a canonical form *)

(** Sorting by a relation that a function respects commutes with the
    function. *)
Section merge_sort_fmap.

Context {A B : Type} (R : relation A) (R' : relation B).
Context `{!forall x y, Decision (R x y)} `{!forall x y, Decision (R' x y)}.
Variable g : A -> B.
Hypothesis Hg : forall x y, R x y <-> R' (g x) (g y).






End merge_sort_fmap.







End roundtrip_more.
